(** * exr-preview: the glue logic of [src/extension.ts], embedded in Rocq

    The extension shells out to [oiiotool] and [ktx], parses their text
    output and renders markup.  This development embeds the pure parts of
    [extension.ts] (command construction, retry policy, metadata fallback,
    colour-config parsing, button markup) and proves the properties the
    specification states about them.

    Conventions of the embedding:
    - a JavaScript string is a [string]; its characters are code units
      restricted to the 8-bit range;
    - an index or a count ([selection.level], [header.faceCount], ...) is a
      [Z]; an absent property is [None];
    - the exposure is a runtime [number]: [Math.pow] and the conversion of
      a number to text belong to the JavaScript runtime and are taken
      through the interface [JSNumber];
    - [cp.exec] is an oracle from the commands issued so far and the
      command to its outcome; an [async] function is a computation in the
      monad [Proc], which threads the log of issued commands and a
      resolved-or-rejected result. *)

From Stdlib Require Import ZArith List Bool Lia Ascii String DecimalString.
Import ListNotations.

#[local] Open Scope list_scope.
#[local] Open Scope string_scope.

(* ================================================================== *)
(** * PART I: the embedding *)

(* ================================================================== *)
(** * Strings *)

Module Str.

(** [s.includes(sub)] *)
Fixpoint includes (sub s : string) : bool :=
  prefix sub s ||
  match s with
  | EmptyString => false
  | String _ s' => includes sub s'
  end.

(** [s.endsWith(suf)] *)
Fixpoint endsWith (s suf : string) : bool :=
  (s =? suf) ||
  match s with
  | EmptyString => false
  | String _ s' => endsWith s' suf
  end.

(** Membership of a character in a string. *)
Fixpoint mem (c : ascii) (s : string) : bool :=
  match s with
  | EmptyString => false
  | String d s' => Ascii.eqb c d || mem c s'
  end.

(** Every character of [s] satisfies [p]. *)
Fixpoint all (p : ascii -> bool) (s : string) : bool :=
  match s with
  | EmptyString => true
  | String c s' => p c && all p s'
  end.

Definition tail (s : string) : string :=
  match s with
  | EmptyString => EmptyString
  | String _ s' => s'
  end.

(** [s] without its prefix [lit], when it starts with [lit]. *)
Fixpoint strip (lit s : string) : option string :=
  match lit with
  | EmptyString => Some s
  | String a lit' =>
      match s with
      | EmptyString => None
      | String b s' => if Ascii.eqb a b then strip lit' s' else None
      end
  end.

(** The longest prefix of [s] whose characters satisfy [p], and what
    follows it. *)
Fixpoint span (p : ascii -> bool) (s : string) : string * string :=
  match s with
  | EmptyString => (EmptyString, EmptyString)
  | String c s' =>
      if p c then let (run, rest) := span p s' in (String c run, rest)
      else (EmptyString, s)
  end.

(** First occurrence of [sep] in [s]: the text before it and the text
    after it. *)
Fixpoint cut (sep s : string) : option (string * string) :=
  match strip sep s with
  | Some rest => Some (EmptyString, rest)
  | None =>
      match s with
      | EmptyString => None
      | String c s' =>
          match cut sep s' with
          | Some (a, b) => Some (String c a, b)
          | None => None
          end
      end
  end.

(** [s.split(sep)] for a non-empty separator: cut at the first
    occurrence and split what follows.  Every cut consumes at least one
    character, so [length s] rounds are enough. *)
Fixpoint split_fuel (fuel : nat) (sep s : string) : list string :=
  match fuel with
  | O => [s]
  | S fuel' =>
      match cut sep s with
      | None => [s]
      | Some (a, b) => a :: split_fuel fuel' sep b
      end
  end.

Definition split (sep s : string) : list string :=
  split_fuel (length s) sep s.

(** [pieces.join('')] *)
Definition join (pieces : list string) : string := concat "" pieces.

End Str.

(* ================================================================== *)
(** * Numbers in template literals *)

(** [`${n}`] for an integer [n]: decimal digits, with a leading minus
    sign for a negative one. *)
Definition decimal (n : Z) : string := NilEmpty.string_of_int (Z.to_int n).

Definition isDecimalChar (c : ascii) : bool := Str.mem c "-0123456789".

(** The double quote of the command templates. *)
Definition dq : ascii := "034"%char.

(** [`"${s}"`] *)
Definition quoted (s : string) : string := String dq (s ++ String dq "").

(* ================================================================== *)
(** * External processes *)

(** What a rejected promise carries. *)
Inductive Error : Type :=
| ExecError (message : string)
| SyntaxError (message : string).

Inductive Result (A : Type) : Type :=
| Resolved (a : A)
| Rejected (e : Error).
Arguments Resolved {A} a.
Arguments Rejected {A} e.

(** The commands issued so far, oldest first. *)
Definition Log := list string.

(** [cp.exec]: what a command yields, given the commands issued before
    it: an error, or the captured standard output. *)
Definition Shell := Log -> string -> Result string.

(** An [async] function body. *)
Definition Proc (A : Type) : Type := Log -> Result A * Log.

Definition ret {A} (a : A) : Proc A := fun log => (Resolved a, log).

Definition throw {A} (e : Error) : Proc A := fun log => (Rejected e, log).

Definition bind {A B} (m : Proc A) (k : A -> Proc B) : Proc B :=
  fun log =>
    match m log with
    | (Resolved a, log') => k a log'
    | (Rejected e, log') => (Rejected e, log')
    end.

(** [try { body } catch (e) { handler }] *)
Definition try_catch {A} (body : Proc A) (handler : Error -> Proc A) : Proc A :=
  fun log =>
    match body log with
    | (Resolved a, log') => (Resolved a, log')
    | (Rejected e, log') => handler e log'
    end.

(** [cp.exec(cmd, (error, stdout) => ...)]: the callback's arguments,
    after the command is appended to the log. *)
Definition exec (sh : Shell) (cmd : string) : Proc (Result string) :=
  fun log => (Resolved (sh log cmd), (log ++ [cmd])%list).

Declare Scope proc_scope.
Delimit Scope proc_scope with proc.
Notation "x <- m ;; k" := (bind m (fun x => k))
  (at level 61, m at next level, right associativity) : proc_scope.
Notation "m ;; k" := (bind m (fun _ => k))
  (at level 61, right associativity) : proc_scope.

(** Run an [async] function from an empty log. *)
Definition run {A} (m : Proc A) : Result A * Log := m []%list.

(* ================================================================== *)
(** * KTX2 sub-image extraction *)

Record Selection : Type := {
  level : Z;
  layer : Z;
  face : Z;
  depth : Z
}.

Record Ktx2Header : Type := {
  pixelWidth : option Z;
  pixelHeight : option Z;
  layerCount : option Z;
  faceCount : option Z;
  pixelDepth : option Z;
  levelCount : option Z;
  vkFormat : option string
}.

(** [index.levels]: one object per mip level, as key/value pairs. *)
Record Ktx2Index : Type := {
  levels : list (list (string * string))
}.

Record Ktx2Info : Type := {
  header : option Ktx2Header;
  index : option Ktx2Index
}.

(** [{}] *)
Definition emptyHeader : Ktx2Header :=
  {| pixelWidth := None; pixelHeight := None; layerCount := None;
     faceCount := None; pixelDepth := None; levelCount := None;
     vkFormat := None |}.

(** [n || d] for a count: an absent or zero [n] is falsy. *)
Definition orElse (n : option Z) (d : Z) : Z :=
  match n with
  | Some v => if (v =? 0)%Z then d else v
  | None => d
  end.

(** [info?.header || {}] *)
Definition headerOf (info : option Ktx2Info) : Ktx2Header :=
  match info with
  | Some i => match header i with Some h => h | None => emptyHeader end
  | None => emptyHeader
  end.

(** [previewPath.endsWith('.exr') ? previewPath : `${previewPath}.exr`] *)
Definition extractPathOf (previewPath : string) : string :=
  if Str.endsWith previewPath ".exr" then previewPath else previewPath ++ ".exr".

(** [(header.faceCount || 0) > 1] *)
Definition isCubemap (h : Ktx2Header) : bool := (orElse (faceCount h) 0 >? 1)%Z.

(** The value of [cmd] before the two paths are appended: the selector
    flags. *)
Definition extractFlags (selection : Selection) (h : Ktx2Header) : string :=
  let cmd := "ktx extract --level " ++ decimal (level selection) in
  let cmd :=
    if isCubemap h then cmd ++ " --face " ++ decimal (face selection)
    else if (orElse (pixelDepth h) 0 >? 1)%Z
         then cmd ++ " --depth " ++ decimal (depth selection)
         else cmd in
  let cmd :=
    if (orElse (layerCount h) 0 >? 1)%Z
    then cmd ++ " --layer " ++ decimal (layer selection)
    else cmd in
  cmd.

(** The primary extraction command. *)
Definition extractCmd (ktx2Path previewPath : string) (selection : Selection)
    (info : option Ktx2Info) : string :=
  extractFlags selection (headerOf info)
    ++ " " ++ quoted ktx2Path ++ " " ++ quoted (extractPathOf previewPath).

(** The reduced command of the cubemap retry. *)
Definition fallbackCmd (ktx2Path previewPath : string) (selection : Selection)
    : string :=
  "ktx extract --level " ++ decimal (level selection)
    ++ " --face " ++ decimal (face selection)
    ++ " " ++ quoted ktx2Path ++ " " ++ quoted (extractPathOf previewPath).

#[local] Open Scope proc_scope.

(** [updateKtx2Preview] (extension.ts, lines 492-558): the primary
    command; on failure, for a cubemap, the reduced command; the target
    path on success. *)
Definition updateKtx2Preview (sh : Shell) (ktx2Path previewPath : string)
    (selection : Selection) (info : option Ktx2Info) : Proc string :=
  let h := headerOf info in
  let extractPath := extractPathOf previewPath in
  let cmd := extractCmd ktx2Path previewPath selection info in
  try_catch
    (outcome <- exec sh cmd ;;
     match outcome with
     | Rejected error =>
         if isCubemap h then
           retried <- exec sh (fallbackCmd ktx2Path previewPath selection) ;;
           match retried with
           | Rejected fallbackError => throw fallbackError
           | Resolved _ => ret tt
           end
         else throw error
     | Resolved _ => ret tt
     end)
    (fun error => throw error) ;;
  ret extractPath.

(** The command of an earlier revision of [updateKtx2Preview] (the
    second source file, lines 110-136): every selector is added on its
    own count and the target path is used as given.  The current
    function, above, replaced it. *)
Definition legacyExtractCmd (ktx2Path previewPath : string)
    (selection : Selection) (info : option Ktx2Info) : string :=
  let h := headerOf info in
  let cmd := "ktx extract --level " ++ decimal (level selection) in
  let cmd := if (orElse (layerCount h) 0 >? 1)%Z
             then cmd ++ " --layer " ++ decimal (layer selection) else cmd in
  let cmd := if (orElse (faceCount h) 0 >? 1)%Z
             then cmd ++ " --face " ++ decimal (face selection) else cmd in
  let cmd := if (orElse (pixelDepth h) 0 >? 1)%Z
             then cmd ++ " --depth " ++ decimal (depth selection) else cmd in
  cmd ++ " " ++ quoted ktx2Path ++ " " ++ quoted previewPath.

(* ================================================================== *)
(** * Command lines as words

    The command templates separate their parts by single spaces; the
    theorems on flags read a command as the words it was built from. *)

(** Words joined by single spaces. *)
Fixpoint unwords (ws : list string) : string :=
  match ws with
  | nil => ""
  | w :: nil => w
  | w :: ws' => w ++ " " ++ unwords ws'
  end.

(** The primary command, word by word. *)
Definition extractWords (ktx2Path previewPath : string) (selection : Selection)
    (info : option Ktx2Info) : list string :=
  let h := headerOf info in
  ("ktx" :: "extract" :: "--level" :: decimal (level selection) :: nil)
  ++ (if isCubemap h then "--face" :: decimal (face selection) :: nil
      else if (orElse (pixelDepth h) 0 >? 1)%Z
           then "--depth" :: decimal (depth selection) :: nil else nil)
  ++ (if (orElse (layerCount h) 0 >? 1)%Z
      then "--layer" :: decimal (layer selection) :: nil else nil)
  ++ (quoted ktx2Path :: quoted (extractPathOf previewPath) :: nil).

(** ** Sample headers, selections and tools *)

(** A cubemap: six faces, no array layers, no depth. *)
Definition cubeHeader : Ktx2Header :=
  {| pixelWidth := Some 512%Z; pixelHeight := Some 512%Z;
     layerCount := Some 0%Z; faceCount := Some 6%Z; pixelDepth := Some 0%Z;
     levelCount := Some 10%Z; vkFormat := Some "VK_FORMAT_R16G16B16A16_SFLOAT" |}.

Definition cubeInfo : option Ktx2Info :=
  Some {| header := Some cubeHeader; index := None |}.

Definition face3 : Selection := {| level := 0; layer := 0; face := 3; depth := 0 |}.

(** A texture array of four layers. *)
Definition arrayInfo : option Ktx2Info :=
  Some {| header := Some {| pixelWidth := Some 256%Z; pixelHeight := Some 256%Z;
                            layerCount := Some 4%Z; faceCount := Some 1%Z;
                            pixelDepth := Some 0%Z; levelCount := Some 1%Z;
                            vkFormat := None |};
          index := None |}.

Definition layer2 : Selection := {| level := 1; layer := 2; face := 0; depth := 0 |}.

(** A [ktx] that rejects every command carrying [--layer]. *)
Definition rejectsLayer : Shell :=
  fun _ cmd =>
    if Str.includes "--layer" cmd
    then Rejected (ExecError "validation failed")
    else Resolved "".

(** A header that claims six faces and four depth slices. *)
Definition deepCubeInfo : option Ktx2Info :=
  Some {| header := Some {| pixelWidth := Some 64%Z; pixelHeight := Some 64%Z;
                            layerCount := Some 0%Z; faceCount := Some 6%Z;
                            pixelDepth := Some 4%Z; levelCount := Some 1%Z;
                            vkFormat := None |};
          index := None |}.

(** An array of two cubemaps. *)
Definition cubeArrayInfo : option Ktx2Info :=
  Some {| header := Some {| pixelWidth := Some 512%Z; pixelHeight := Some 512%Z;
                            layerCount := Some 2%Z; faceCount := Some 6%Z;
                            pixelDepth := Some 0%Z; levelCount := Some 1%Z;
                            vkFormat := None |};
          index := None |}.

(* ================================================================== *)
(** * KTX2 metadata *)

(** The suffix of [s] that starts at the first [c]. *)
Fixpoint fromFirst (c : ascii) (s : string) : option string :=
  match s with
  | EmptyString => None
  | String x s' => if Ascii.eqb x c then Some s else fromFirst c s'
  end.

(** The prefix of [s] that ends at the last [c]. *)
Fixpoint uptoLast (c : ascii) (s : string) : option string :=
  match s with
  | EmptyString => None
  | String x s' =>
      match uptoLast c s' with
      | Some r => Some (String x r)
      | None => if Ascii.eqb x c then Some (String x "") else None
      end
  end.

(** [s.match(/\{[\s\S]*\}/)]: the match starts at the first opening
    brace and, the star being greedy over every character, ends at the
    last closing brace after it; without such a pair there is no match. *)
Definition braced (s : string) : option string :=
  match fromFirst "{" s with
  | Some t => uptoLast "}" t
  | None => None
  end.

(** The synthetic metadata returned when [ktx info] is of no use. *)
Definition minimalInfo : Ktx2Info :=
  {| header := Some {| pixelWidth := Some 0%Z; pixelHeight := Some 0%Z;
                       layerCount := Some 1%Z; faceCount := Some 1%Z;
                       pixelDepth := Some 1%Z; levelCount := Some 1%Z;
                       vkFormat := Some "Unknown" |};
     index := Some {| levels := [nil] |} |}.

(** A value that is already settled. *)
Definition settled {A} (r : Result A) : Proc A := fun log => (r, log).

Definition infoCmd (filePath : string) : string :=
  "ktx info --format json " ++ quoted filePath.

Definition infoCmdUnvalidated (filePath : string) : string :=
  "ktx info --format json --format-json:validate=false " ++ quoted filePath.

Section Ktx2Metadata.

(** [JSON.parse], read as metadata: it rejects with a [SyntaxError] on
    text that is not JSON. *)
Variable JSON_parse : string -> Result Ktx2Info.

(** [getKtx2Info] (extension.ts, lines 561-608). *)
Definition getKtx2Info (sh : Shell) (filePath : string) : Proc Ktx2Info :=
  try_catch
    (infoJson <-
       (outcome <- exec sh (infoCmd filePath) ;;
        match outcome with
        | Rejected error =>
            retried <- exec sh (infoCmdUnvalidated filePath) ;;
            match retried with
            | Rejected fallbackError => throw fallbackError
            | Resolved fallbackStdout => ret fallbackStdout
            end
        | Resolved stdout => ret stdout
        end) ;;
     try_catch
       (settled (JSON_parse infoJson))
       (fun parseError =>
          match braced infoJson with
          | Some jsonMatch => settled (JSON_parse jsonMatch)
          | None => throw parseError
          end))
    (fun error => ret minimalInfo).

(** What the two-step [ktx info] invocation hands to the parser. *)
Definition infoOutput (sh : Shell) (filePath : string) (log : Log) : Result string :=
  match sh log (infoCmd filePath) with
  | Resolved stdout => Resolved stdout
  | Rejected _ => sh (log ++ [infoCmd filePath])%list (infoCmdUnvalidated filePath)
  end.

(** The text cannot be read as JSON, neither whole nor cut down to its
    braces. *)
Definition unparseable (text : string) : Prop :=
  (exists e, JSON_parse text = Rejected e)
  /\ match braced text with
     | Some jsonMatch => exists e, JSON_parse jsonMatch = Rejected e
     | None => True
     end.

End Ktx2Metadata.

(** A parser that reads one document only. *)
Definition parseEmptyObject (text : string) : Result Ktx2Info :=
  if text =? "{}" then Resolved {| header := None; index := None |}
  else Rejected (SyntaxError "Unexpected token").

(** A [ktx] whose output is a validation message around broken JSON. *)
Definition brokenKtx : Shell :=
  fun _ _ => Resolved "error: {not json} trailing".

(* ================================================================== *)
(** * Colour configuration *)

Module View.
Record t : Type := { name : string; isDefault : bool }.
End View.

Record ColorDisplay : Type := {
  name : string;
  isDefault : bool;
  views : list View.t
}.

(** ** The regular expressions, as the scanners they denote

    In the comments below [Q] stands for the double quote character.
    The display expression is [/- Q([^Q]+)Q( \(\*\))?\n\s+views: (.+)$/gm]
    and the view expression is [/Q([^Q]+)Q( \(\*\))?/g].

    Neither expression ever needs to backtrack: each repetition is over a
    character class and is followed by a character outside that class (or
    by an end-of-line assertion), so the greedy run is the only candidate;
    and the optional marker, when present, is followed by a literal that
    could not match at the first character of the marker. *)

Definition lf : ascii := "010"%char.
Definition cr : ascii := "013"%char.

(** [\s], for code units below 256: tab, line feed, vertical tab, form
    feed, carriage return, space and no-break space. *)
Definition isSpace (c : ascii) : bool :=
  Str.mem c (String "009" (String "010" (String "011" (String "012"
            (String "013" (String "032" (String "160" ""))))))).

(** Line terminators, for code units below 256: [.] does not match them
    and, under the [m] flag, [$] matches before them. *)
Definition isLineTerminator (c : ascii) : bool := Ascii.eqb c lf || Ascii.eqb c cr.

(** [[^Q]]: any character but the double quote. *)
Definition notQuote (c : ascii) : bool := negb (Ascii.eqb c dq).

(** [.] *)
Definition notLineTerminator (c : ascii) : bool := negb (isLineTerminator c).

Definition isEmpty (s : string) : bool :=
  match s with EmptyString => true | _ => false end.

(** The optional group for the default marker: whether the marker is
    there, and what follows it. *)
Definition optionalMarker (s : string) : bool * string :=
  match Str.strip " (*)" s with
  | Some rest => (true, rest)
  | None => (false, s)
  end.

(** One attempt of the display expression at the start of [s]: the
    three groups (the second as a flag) and the text after the match. *)
Definition matchDisplay (s : string) : option (string * bool * string * string) :=
  match Str.strip ("- " ++ String dq "") s with        (* dash, space, Q *)
  | None => None
  | Some s1 =>
      let (displayName, s2) := Str.span notQuote s1 in  (* group 1 *)
      if isEmpty displayName then None else
      match Str.strip (String dq "") s2 with             (* Q *)
      | None => None
      | Some s3 =>
          let (marked, s4) := optionalMarker s3 in       (* group 2 *)
          match Str.strip (String lf "") s4 with         (* line feed *)
          | None => None
          | Some s5 =>
              let (blank, s6) := Str.span isSpace s5 in  (* white space *)
              if isEmpty blank then None else
              match Str.strip "views: " s6 with
              | None => None
              | Some s7 =>
                  (* group 3, up to the end of the line *)
                  let (viewsLine, rest) := Str.span notLineTerminator s7 in
                  if isEmpty viewsLine then None
                  else Some (displayName, marked, viewsLine, rest)
              end
          end
      end
  end.

(** One attempt of [/Q([^Q]+)Q/] at the start of [s]: the group and the
    text after the match. *)
Definition matchQuoted (s : string) : option (string * string) :=
  match Str.strip (String dq "") s with
  | None => None
  | Some s1 =>
      let (inner, s2) := Str.span notQuote s1 in
      if isEmpty inner then None else
      match Str.strip (String dq "") s2 with
      | None => None
      | Some rest => Some (inner, rest)
      end
  end.

(** One attempt of the view expression at the start of [s]: the matched
    text and the text after it. *)
Definition matchView (s : string) : option (string * string) :=
  match matchQuoted s with
  | None => None
  | Some (inner, s1) =>
      let (marked, rest) := optionalMarker s1 in
      Some (quoted inner ++ (if marked then " (*)" else ""), rest)
  end.

(** [viewsLine.match(viewExpression) || []]: the matched texts, left to
    right, each search resuming where the last match ended. *)
Fixpoint matchAllViews (fuel : nat) (s : string) : list string :=
  match fuel with
  | O => nil
  | S fuel' =>
      match matchView s with
      | Some (viewMatch, rest) => viewMatch :: matchAllViews fuel' rest
      | None =>
          match s with
          | EmptyString => nil
          | String _ s' => matchAllViews fuel' s'
          end
      end
  end.

(** [viewMatch.match(/Q([^Q]+)Q/)?.[1]]: the group of the leftmost
    match. *)
Fixpoint firstQuoted (s : string) : option string :=
  match matchQuoted s with
  | Some (inner, _) => Some inner
  | None =>
      match s with
      | EmptyString => None
      | String _ s' => firstQuoted s'
      end
  end.

Definition viewOfMatch (viewMatch : string) : View.t :=
  {| View.name := match firstQuoted viewMatch with Some n => n | None => "" end;
     View.isDefault := Str.includes "(*)" viewMatch |}.

Definition parseViews (viewsLine : string) : list View.t :=
  map viewOfMatch (matchAllViews (S (length viewsLine)) viewsLine).

(** [while ((match = displayRegex.exec(displaySection)) !== null)]: the
    search resumes where the last match ended; a failed attempt moves
    one character on. *)
Fixpoint execDisplays (fuel : nat) (s : string) : list ColorDisplay :=
  match fuel with
  | O => nil
  | S fuel' =>
      match matchDisplay s with
      | Some (displayName, marked, viewsLine, rest) =>
          {| name := displayName; isDefault := marked; views := parseViews viewsLine |}
          :: execDisplays fuel' rest
      | None =>
          match s with
          | EmptyString => nil
          | String _ s' => execDisplays fuel' s'
          end
      end
  end.

(** [output.split('Known displays:')[1]?.split('Named transforms:')[0]] *)
Definition displaySectionOf (output : string) : option string :=
  match nth_error (Str.split "Known displays:" output) 1 with
  | Some afterHeading => nth_error (Str.split "Named transforms:" afterHeading) 0
  | None => None
  end.

(** [parseColorConfigInfo] (extension.ts, lines 1382-1412). *)
Definition parseColorConfigInfo (output : string) : list ColorDisplay :=
  match displaySectionOf output with
  | None => nil
  | Some displaySection =>
      if isEmpty displaySection then nil
      else execDisplays (S (length displaySection)) displaySection
  end.

(** The catalog used when [oiiotool --colorconfiginfo] cannot be run. *)
Definition fallbackDisplays : list ColorDisplay :=
  [ {| name := "sRGB - Display"; isDefault := true;
       views := [ {| View.name := "ACES 1.0 - SDR Video"; View.isDefault := true |} ] |} ].

(** [getColorConfigInfo] (extension.ts, lines 1417-1432). *)
Definition getColorConfigInfo (runCommand : string -> Proc string)
    : Proc (list ColorDisplay) :=
  try_catch
    (output <- runCommand "oiiotool --colorconfiginfo" ;;
     ret (parseColorConfigInfo output))
    (fun error => ret fallbackDisplays).

(* ================================================================== *)
(** * Exposure and tone mapping *)

(** Characters that occur in the decimal text of a JavaScript number:
    digits, sign, point, exponent, and the letters of [Infinity] and
    [NaN]. *)
Definition isNumberChar (c : ascii) : bool := Str.mem c "0123456789+-.eInfinityNaN".

(** The numbers of the JavaScript runtime, as far as [adjustExposure]
    uses them.  The laws are those of ECMAScript: [Math.pow(x, 0)] is 1
    for every [x]; a whole number of magnitude at most 2^53 is written
    in plain decimal digits; the text of a number is made of the
    characters above. *)
Class JSNumber : Type := {
  number : Type;
  num : Z -> number;
  Math_pow : number -> number -> number;
  numberToString : number -> string;
  pow_zero : forall x, Math_pow x (num 0) = num 1;
  toString_whole : forall n, (Z.abs n <= 2 ^ 53)%Z -> numberToString (num n) = decimal n;
  toString_chars : forall x, Str.all isNumberChar (numberToString x) = true
}.

(** [this.colorDisplays.find(d => d.isDefault) || this.colorDisplays[0]] *)
Definition defaultDisplayOf (colorDisplays : list ColorDisplay) : option ColorDisplay :=
  match find isDefault colorDisplays with
  | Some d => Some d
  | None => nth_error colorDisplays 0
  end.

(** [defaultDisplay?.views.find(v => v.isDefault) || defaultDisplay?.views[0]] *)
Definition defaultViewOf (defaultDisplay : option ColorDisplay) : option View.t :=
  match defaultDisplay with
  | Some d =>
      match find View.isDefault (views d) with
      | Some v => Some v
      | None => nth_error (views d) 0
      end
  | None => None
  end.

(** [x?.name || fallback]: an absent or empty name is falsy. *)
Definition nameOr (n : option string) (fallback : string) : string :=
  match n with
  | Some s => if isEmpty s then fallback else s
  | None => fallback
  end.

(** [defaultDisplay?.name || 'sRGB - Display'] and
    [defaultView?.name || 'ACES 1.0 - SDR Video'] in [resolveCustomEditor]. *)
Definition defaultDisplayName (colorDisplays : list ColorDisplay) : string :=
  nameOr (option_map name (defaultDisplayOf colorDisplays)) "sRGB - Display".

Definition defaultViewName (colorDisplays : list ColorDisplay) : string :=
  nameOr (option_map View.name (defaultViewOf (defaultDisplayOf colorDisplays)))
    "ACES 1.0 - SDR Video".

Section Tonemap.

Context {JS : JSNumber}.

(** The command [adjustExposure] (extension.ts, lines 181-218) hands to
    [runCommand]. *)
Definition adjustExposureCmd (inputPath outputPath : string) (exposure : number)
    (display view : string) : string :=
  let exposureVal := Math_pow (num 2) exposure in
  if view =? "No Tonemapping" then
    "oiiotool " ++ quoted inputPath ++ " --mulc " ++ numberToString exposureVal
      ++ " --colorconvert lin_rec709 sRGB -o " ++ quoted outputPath
  else
    "oiiotool " ++ quoted inputPath ++ " --mulc " ++ numberToString exposureVal
      ++ " --ociodisplay " ++ quoted display ++ " " ++ quoted view
      ++ " -o " ++ quoted outputPath.

(** [adjustExposure]: one call of [runCommand] on the command above.
    The [finally] block only unlinks a leftover intermediate file and
    does not touch the command. *)
Definition adjustExposure (inputPath outputPath : string) (exposure : number)
    (runCommand : string -> Proc unit) (display view : string) : Proc unit :=
  runCommand (adjustExposureCmd inputPath outputPath exposure display view).

(** The command of the initial preview of an [.exr] or [.hdr] file in
    [resolveCustomEditor] (extension.ts, lines 281-293): exposure 0 and
    the default display and view of the discovered catalog. *)
Definition initialPreviewCmd (colorDisplays : list ColorDisplay)
    (fsPath previewPath : string) : string :=
  adjustExposureCmd fsPath previewPath (num 0)
    (defaultDisplayName colorDisplays) (defaultViewName colorDisplays).

End Tonemap.

(** Whole-number arithmetic satisfies the interface; it stands for the
    runtime wherever only whole numbers and whole exponents from zero up
    arise. *)
#[refine] Instance wholeNumbers : JSNumber :=
  {| number := Z; num := fun n => n; Math_pow := Z.pow; numberToString := decimal |}.
Proof.
  - intros x. apply Z.pow_0_r.
  - reflexivity.
  - intros x. unfold decimal.
    assert (H : forall d, Str.all isNumberChar (NilEmpty.string_of_uint d) = true)
      by (induction d; simpl; auto).
    destruct (Z.to_int x); simpl; apply H.
Defined.

(** The catalog offers something to select: a display with a view. *)
Definition selectable (catalog : list ColorDisplay) : Prop :=
  exists d, In d catalog /\ views d <> nil.

(* ================================================================== *)
(** * Selector buttons *)

(** The markup of one button: the template inside [Array.from]. *)
Definition button (id : string) (selected : Z) (i : nat) : string :=
  "<button type=" ++ quoted "button"
    ++ " data-value=" ++ quoted (decimal (Z.of_nat i))
    ++ " class=" ++ quoted ("preview-btn" ++ (if (Z.of_nat i =? selected)%Z
                                               then " selected" else ""))
    ++ " data-group=" ++ quoted id ++ ">" ++ decimal (Z.of_nat i) ++ "</button>".

(** [Array.from({length: count}, (_, i) => ...)]: a count below zero
    gives no element. *)
Definition buttons (id : string) (count selected : Z) : list string :=
  map (button id selected) (seq 0 (Z.to_nat count)).

(** [renderButtonGroup] (extension.ts, lines 1329-1333). *)
Definition renderButtonGroup (id : string) (count selected : Z) : string :=
  "<div id=" ++ quoted (id ++ "-group") ++ " style="
    ++ quoted "margin: 4px 0; display: flex; flex-wrap: wrap; gap: 4px;" ++ ">"
    ++ String lf "            "
    ++ Str.join (buttons id count selected)
    ++ String lf "        </div>".

(** ** Reading a button back *)

(** The value of an attribute of a tag: the text between the attribute
    name followed by an equals sign and a double quote, and the next
    double quote. *)
Definition attribute (attr tag : string) : option string :=
  match Str.cut (" " ++ attr ++ "=" ++ String dq "") tag with
  | Some (_, rest) =>
      match Str.cut (String dq "") rest with
      | Some (value, _) => Some value
      | None => None
      end
  | None => None
  end.

(** The tag has class [c]: [c] is one of the space-separated words of
    its class attribute. *)
Definition hasClass (c tag : string) : bool :=
  match attribute "class" tag with
  | Some value => existsb (String.eqb c) (Str.split " " value)
  | None => false
  end.

(* ================================================================== *)
(** * The layout of a well-formed display block

    After the heading come the displays, each on two lines:
    a dash and the quoted display name, with the marker when the display
    is the default one; then, indented, [views:] and the entries of the
    display separated by commas, a quoted entry carrying the marker when
    the view is the default one. *)

Inductive ViewEntry : Type :=
| QuotedView (viewName : string) (marked : bool)
| BareText (text : string).

Definition renderEntry (e : ViewEntry) : string :=
  match e with
  | QuotedView n m => quoted n ++ (if m then " (*)" else "")
  | BareText t => t
  end.

Fixpoint commaSeparated (items : list string) : string :=
  match items with
  | nil => ""
  | x :: nil => x
  | x :: rest => x ++ ", " ++ commaSeparated rest
  end.

Record DisplayLines : Type := {
  lead : string;          (* what precedes the dash *)
  displayName : string;
  displayMarked : bool;
  indentation : string;   (* what precedes the word views *)
  entries : list ViewEntry
}.

Definition viewsLineOf (d : DisplayLines) : string :=
  commaSeparated (map renderEntry (entries d)).

Definition renderDisplay (d : DisplayLines) : string :=
  lead d ++ "- " ++ quoted (displayName d)
    ++ (if displayMarked d then " (*)" else "") ++ String lf ""
    ++ indentation d ++ "views: " ++ viewsLineOf d ++ String lf "".

(** The displays one after the other, then what precedes the closing
    heading. *)
Fixpoint renderBlock (ds : list DisplayLines) (trail : string) : string :=
  match ds with
  | nil => trail
  | d :: ds' => renderDisplay d ++ renderBlock ds' trail
  end.

Definition wfEntry (e : ViewEntry) : bool :=
  match e with
  | QuotedView n _ =>
      negb (isEmpty n) && Str.all notQuote n && Str.all notLineTerminator n
  | BareText t => Str.all notQuote t && Str.all notLineTerminator t
  end.

(** Names are non-empty and hold no double quote; what precedes the dash
    holds no double quote; the indentation is white space; the views
    line is non-empty and stays on its line. *)
Definition wfDisplay (d : DisplayLines) : bool :=
  Str.all notQuote (lead d)
  && negb (isEmpty (displayName d)) && Str.all notQuote (displayName d)
  && negb (isEmpty (indentation d)) && Str.all isSpace (indentation d)
  && forallb wfEntry (entries d)
  && negb (isEmpty (viewsLineOf d)).

(** The test of the parser on a quoted view, [viewMatch.includes] of
    the marker characters: the matched text, name and quotes included,
    holds them. *)
Definition carriesMarker (e : ViewEntry) : bool :=
  match e with
  | QuotedView _ _ => Str.includes "(*)" (renderEntry e)
  | BareText _ => false
  end.

(** The view is marked: the marker follows its closing quote. *)
Definition markedView (e : ViewEntry) : bool :=
  match e with
  | QuotedView _ marked => marked
  | BareText _ => false
  end.

(** What the parser is expected to read from the layout. *)
Fixpoint viewsOf (es : list ViewEntry) : list View.t :=
  match es with
  | nil => nil
  | QuotedView n m :: es' =>
      {| View.name := n; View.isDefault := carriesMarker (QuotedView n m) |}
      :: viewsOf es'
  | BareText _ :: es' => viewsOf es'
  end.

Definition displayOf (d : DisplayLines) : ColorDisplay :=
  {| name := displayName d; isDefault := displayMarked d;
     views := viewsOf (entries d) |}.

(** The output of [oiiotool --colorconfiginfo] for a configuration with
    two displays. *)
Definition sampleDisplays : list DisplayLines :=
  [ {| lead := String lf "    ";
       displayName := "sRGB - Display"; displayMarked := true;
       indentation := "      ";
       entries := [QuotedView "ACES 1.0 - SDR Video" true;
                   QuotedView "Un-tone-mapped" false; BareText "Raw"] |};
    {| lead := "    ";
       displayName := "Rec.1886 Rec.709 - Display"; displayMarked := false;
       indentation := "      ";
       entries := [QuotedView "ACES 1.0 - SDR Video" true;
                   QuotedView "Video (colorimetric)" false] |} ].

(** A configuration with one marked display and one marked view, beside
    a view that is not marked and whose name ends in the marker
    characters. *)
Definition markerInName : list DisplayLines :=
  [ {| lead := String lf "    ";
       displayName := "sRGB - Display"; displayMarked := true;
       indentation := "      ";
       entries := [QuotedView "A" true; QuotedView "B(*)" false] |} ].

Definition markerInNameOutput : string :=
  "Known displays:" ++ renderBlock markerInName "" ++ "Named transforms:".

Definition sampleOutput : string :=
  ("Color configuration: ocio://default" ++ String lf "Known color spaces: "
     ++ String lf "    - " ++ quoted "sRGB - Texture" ++ String lf "")
  ++ "Known displays:" ++ renderBlock sampleDisplays "" ++ "Named transforms:"
  ++ String lf "".

(* ================================================================== *)
(** * Notions used by the proofs only *)

(** [sep] starts at some position of [a] in the text [a ++ b]. *)
Fixpoint startsWithin (sep a b : string) : bool :=
  match a with
  | EmptyString => false
  | String c a' => prefix sep (a ++ b) || startsWithin sep a' b
  end.

(** The text before the first [sep], or the whole text without one:
    element 0 of [s.split(sep)]. *)
Definition before (sep s : string) : string :=
  match Str.cut sep s with
  | Some (a, _) => a
  | None => s
  end.

Definition headingDisplays : string := "Known displays:".
Definition headingTransforms : string := "Named transforms:".

(** [s] is empty or starts with a character outside [p]. *)
Definition startsOutside (p : ascii -> bool) (s : string) : bool :=
  match s with
  | EmptyString => true
  | String c _ => negb (p c)
  end.

Definition isQuotedView (e : ViewEntry) : bool :=
  match e with
  | QuotedView _ _ => true
  | BareText _ => false
  end.

(** The texts the view expression matches on a rendered line. *)
Definition quotedTexts (es : list ViewEntry) : list string :=
  map renderEntry (filter isQuotedView es).

(** The separator before the rest of a comma-separated line. *)
Definition comma (rest : list string) : string :=
  match rest with
  | nil => ""
  | _ :: _ => ", "
  end.

Definition markerText (marked : bool) : string := if marked then " (*)" else "".

(** The two lines of a display from the dash on, followed by [rest]. *)
Definition displayText (n : string) (m : bool) (ind line rest : string) : string :=
  ("- " ++ String dq "") ++ n ++ String dq "" ++ markerText m ++ String lf ""
    ++ ind ++ "views: " ++ line ++ String lf rest.

(* ================================================================== *)
(** * Further sample data *)

(** A volume texture of eight depth slices. *)
Definition volumeInfo : option Ktx2Info :=
  Some {| header := Some {| pixelWidth := Some 32%Z; pixelHeight := Some 32%Z;
                            layerCount := Some 0%Z; faceCount := Some 1%Z;
                            pixelDepth := Some 8%Z; levelCount := Some 1%Z;
                            vkFormat := None |};
          index := None |}.

Definition slice5 : Selection := {| level := 0; layer := 0; face := 0; depth := 5 |}.

(** A [ktx] that prints a validation message before and after the JSON
    document. *)
Definition chattyKtx : Shell :=
  fun _ _ => Resolved "warning: 2 issues {} done".

(** The names of the quoted views of a display, in the order listed. *)
Fixpoint quotedNames (es : list ViewEntry) : list string :=
  match es with
  | nil => nil
  | QuotedView n _ :: es' => n :: quotedNames es'
  | BareText _ :: es' => quotedNames es'
  end.

(** A name as the parser yields it: not empty and without a double
    quote. *)
Definition plainName (n : string) : Prop :=
  n <> "" /\ Str.all notQuote n = true.

(** A configuration whose single display lists its views without
    quotes, as in the comment of [parseColorConfigInfo]. *)
Definition bareDisplays : list DisplayLines :=
  [ {| lead := String lf "    ";
       displayName := "Rec.2020 - Display"; displayMarked := false;
       indentation := "      ";
       entries := [BareText "Un-tone-mapped"; BareText "Raw"] |} ].

Definition bareOutput : string :=
  "Known displays:" ++ renderBlock bareDisplays "" ++ "Named transforms:".

(** The output of the colour-config query around a block of displays. *)
Definition blockOutput (pre : string) (ds : list DisplayLines) (trail post : string)
    : string :=
  pre ++ "Known displays:" ++ renderBlock ds trail ++ "Named transforms:" ++ post.

(** A configuration that marks no display and no view, and whose second
    view has a name ending in the marker characters. *)
Definition spelledDisplays : list DisplayLines :=
  [ {| lead := String lf "    ";
       displayName := "P3-D65 - Display"; displayMarked := false;
       indentation := "      ";
       entries := [QuotedView "A" false; QuotedView "B(*)" false] |} ].

(** A configuration that marks no display and no view. *)
Definition unmarkedDisplays : list DisplayLines :=
  [ {| lead := String lf "    ";
       displayName := "P3-D65 - Display"; displayMarked := false;
       indentation := "      ";
       entries := [BareText "Raw"; QuotedView "Video (colorimetric)" false;
                   QuotedView "Un-tone-mapped" false] |};
    {| lead := "    ";
       displayName := "sRGB - Display"; displayMarked := false;
       indentation := "      ";
       entries := [QuotedView "ACES 1.0 - SDR Video" false] |} ].

(* ================================================================== *)
(** * Mip level details *)

(** [ToInt32]: the operand of a bitwise operator, wrapped into
    [-2^31, 2^31). *)
Definition toInt32 (n : Z) : Z := ((n + 2 ^ 31) mod 2 ^ 32 - 2 ^ 31)%Z.

(** [a >> b]: the sign-propagating shift of [ToInt32(a)] by the low five
    bits of [b]. *)
Definition signedShiftRight (a b : Z) : Z := Z.shiftr (toInt32 a) (b mod 32).

(** [Math.max(1, dimension >> level)] *)
Definition mipSize (dimension level : Z) : Z :=
  Z.max 1 (signedShiftRight dimension level).

(** A count read in a condition: absent and zero are falsy. *)
Definition truthy (n : option Z) : bool :=
  match n with
  | Some v => negb (v =? 0)%Z
  | None => false
  end.

(** [index.levels[level]], when [index] is there: no element below zero
    or past the end.  An index without [levels] is one whose list is
    empty: both make [renderLevelInfo] return the empty text. *)
Definition levelAt (index : option Ktx2Index) (level : Z)
    : option (list (string * string)) :=
  match index with
  | Some ix => if (level <? 0)%Z then None else nth_error (levels ix) (Z.to_nat level)
  | None => None
  end.

(** The multiplication sign of the resolution text (U+00D7). *)
Definition times : string := String "215"%char "".

(** One row of the details table: the template of the resolution row
    and of the row of each entry of the level. *)
Definition infoRow (k v : string) : string :=
  "<tr><td style='font-weight:bold;padding:2px 8px;width:30%;'>" ++ k
    ++ "</td><td style='padding:2px 8px;max-width:0;overflow:hidden;text-overflow:ellipsis;white-space:nowrap;' title='"
    ++ v ++ "'>" ++ v ++ "</td></tr>".

(** The resolution row: [res], empty unless the header has a width, a
    height and a level count. *)
Definition resolutionRow (h : Ktx2Header) (level : Z) : string :=
  match pixelWidth h, pixelHeight h with
  | Some pw, Some ph =>
      if truthy (pixelWidth h) && truthy (pixelHeight h) && truthy (levelCount h)
      then infoRow "Resolution"
             (decimal (mipSize pw level) ++ " " ++ times ++ " "
                ++ decimal (mipSize ph level))
      else ""
  | _, _ => ""
  end.

(** [renderLevelInfo] (extension.ts, lines 1312-1327).  [None] is the
    [TypeError] of reading a property of a header that is [undefined],
    which happens only once the level was found in the index. *)
Definition renderLevelInfo (header : option Ktx2Header) (index : option Ktx2Index)
    (level : Z) : option string :=
  match levelAt index level with
  | None => Some ""
  | Some lvl =>
      match header with
      | None => None
      | Some h =>
          Some ("<table style='width:100%;margin-top:8px;color:var(--vscode-foreground);background:var(--vscode-editor-background);border-collapse:collapse;'>"
                ++ String lf "            "
                ++ "<tr><td colspan=2 style='font-weight:bold;padding:2px 8px;'>Selected Mip Level: "
                ++ decimal level ++ "</td></tr>"
                ++ String lf "            " ++ resolutionRow h level
                ++ String lf "            "
                ++ Str.join (map (fun kv => infoRow (fst kv) (snd kv)) lvl)
                ++ String lf "        </table>")
      end
  end.

(** A 10 x 6 texture with four mip levels. *)
Definition mipHeader : Ktx2Header :=
  {| pixelWidth := Some 10%Z; pixelHeight := Some 6%Z;
     layerCount := Some 0%Z; faceCount := Some 1%Z;
     pixelDepth := Some 0%Z; levelCount := Some 4%Z;
     vkFormat := Some "VK_FORMAT_R16G16B16A16_SFLOAT" |}.

Definition mipIndex : Ktx2Index :=
  {| levels := [ [("byteOffset", "512"); ("byteLength", "480")];
                 [("byteOffset", "384"); ("byteLength", "120")];
                 [("byteOffset", "352"); ("byteLength", "16")];
                 [("byteOffset", "344"); ("byteLength", "8")] ] |}.

(* ================================================================== *)
(** * The selectors of the KTX2 page *)

(** [header.levelCount || 1] and the three counts after it in
    [getHtmlForKtx2Webview] (extension.ts, lines 904-908), where
    [header] is [info.header || {}]: the numbers of buttons of the four
    groups of the section [Preview Selection] (lines 1153-1162). *)
Definition levelCountOf (info : Ktx2Info) : Z :=
  orElse (levelCount (headerOf (Some info))) 1.

Definition layerCountOf (info : Ktx2Info) : Z :=
  orElse (layerCount (headerOf (Some info))) 1.

Definition faceCountOf (info : Ktx2Info) : Z :=
  orElse (faceCount (headerOf (Some info))) 1.

Definition depthCountOf (info : Ktx2Info) : Z :=
  orElse (pixelDepth (headerOf (Some info))) 1.

(** The selector flags, word by word. *)
Definition flagWords (selection : Selection) (h : Ktx2Header) : list string :=
  ("ktx" :: "extract" :: "--level" :: decimal (level selection) :: nil)
  ++ (if isCubemap h then "--face" :: decimal (face selection) :: nil
      else if (orElse (pixelDepth h) 0 >? 1)%Z
           then "--depth" :: decimal (depth selection) :: nil else nil)
  ++ (if (orElse (layerCount h) 0 >? 1)%Z
      then "--layer" :: decimal (layer selection) :: nil else nil).

(** An array of three cubemaps whose header also announces four depth
    slices. *)
Definition deepCubeArray : Ktx2Info :=
  {| header := Some {| pixelWidth := Some 64%Z; pixelHeight := Some 64%Z;
                       layerCount := Some 3%Z; faceCount := Some 6%Z;
                       pixelDepth := Some 4%Z; levelCount := Some 1%Z;
                       vkFormat := None |};
     index := None |}.

(* ================================================================== *)
(** * The display and view selectors of the two pages *)

(** One [<option>] of a selector: the template of the view options
    after the first. *)
Definition optionTag (n : string) (selected : bool) : string :=
  "<option value=" ++ quoted n ++ " " ++ (if selected then "selected" else "")
    ++ ">" ++ n ++ "</option>".

Definition noTonemappingOption : string :=
  "<option value=" ++ quoted "No Tonemapping" ++ ">No Tonemapping</option>".

(** [views.map(view => ...).join('')] *)
Definition viewOptionsOf (vs : list View.t) : string :=
  Str.join (map (fun v => optionTag (View.name v) (View.isDefault v)) vs).

(** [viewsOptions] of [getHtmlForWebview] (extension.ts, lines 629-633):
    the sum is taken before [|| ''], and an [undefined] right operand
    of the sum is appended as its text. *)
Definition exrViewsOptions (colorDisplays : list ColorDisplay) : string :=
  let sum :=
    noTonemappingOption
      ++ match defaultDisplayOf colorDisplays with
         | Some d => viewOptionsOf (views d)
         | None => "undefined"
         end in
  if isEmpty sum then "" else sum.

(** [defaultDisplay] of [getHtmlForKtx2Webview] (extension.ts, lines
    916-920), with its literal last resort. *)
Definition ktx2DefaultDisplay (colorDisplays : list ColorDisplay) : ColorDisplay :=
  match defaultDisplayOf colorDisplays with
  | Some d => d
  | None =>
      {| name := "sRGB - Display"; isDefault := true;
         views := [ {| View.name := "ACES 1.0 - SDR Video";
                       View.isDefault := true |} ] |}
  end.

(** [viewsOptions] of [getHtmlForKtx2Webview] (lines 923-927). *)
Definition ktx2ViewsOptions (colorDisplays : list ColorDisplay) : string :=
  noTonemappingOption ++ viewOptionsOf (views (ktx2DefaultDisplay colorDisplays)).

(** [defaultViewName] of [getHtmlForKtx2Webview] (lines 930-931). *)
Definition ktx2DefaultViewName (colorDisplays : list ColorDisplay) : string :=
  let d := ktx2DefaultDisplay colorDisplays in
  nameOr (option_map View.name (find View.isDefault (views d)))
    (nameOr (option_map View.name (nth_error (views d) 0)) "ACES 1.0 - SDR Video").

(** The declaration of the first selection state in the script of the
    page (lines 1172-1180).  The names are written between single
    quotes as they are, without escaping. *)
Definition selectionScript (colorDisplays : list ColorDisplay)
    (selection : Selection) : string :=
  "let selection = {"
    ++ String lf "                        level: " ++ decimal (level selection) ++ ","
    ++ String lf "                        layer: " ++ decimal (layer selection) ++ ","
    ++ String lf "                        face: " ++ decimal (face selection) ++ ","
    ++ String lf "                        depth: " ++ decimal (depth selection) ++ ","
    ++ String lf "                        exposure: 0,"
    ++ String lf "                        display: '"
    ++ name (ktx2DefaultDisplay colorDisplays) ++ "',"
    ++ String lf "                        view: '"
    ++ ktx2DefaultViewName colorDisplays ++ "'"
    ++ String lf "                    };".

(* ================================================================== *)
(** * The commands of a preview *)

(** How [resolveCustomEditor] or a message handler ends.
    [resolveCustomEditor] is followed through its [try] blocks to their
    end.  The message handlers are followed as far as their commands
    go: what follows their last command (reading the image, posting the
    update, unlinking the files) issues no command and is left out; an
    error thrown there is taken by the same [catch] as an error of the
    command before it. *)
Inductive Report : Type :=
| Ready                          (* nothing failed *)
| ErrorPanel (error : Error)     (* the panel [Failed to extract KTX2 image] *)
| ErrorMessage (error : Error)   (* [vscode.window.showErrorMessage] *)
| Ignored.                       (* a message of another type *)

(** What [resolveCustomEditor] asks of the runtime between its last
    command and the end of the [try] block: [fs.readFileSync(path)]
    with its [toString('base64')], the building of the page from the
    image, and [if (fs.existsSync(path)) fs.unlinkSync(path)]. *)
Inductive Step : Type :=
| ReadFile (path : string)
| BuildPage
| Unlink (path : string).


Section Editor.

Context {JS : JSNumber}.

(** [JSON.parse], [cp.exec], and the two path computations of the
    runtime: [path.extname(fsPath).toLowerCase()] and
    [path.join(os.tmpdir(), `preview_${path.basename(fsPath)}.png`)]. *)
Variable JSON_parse : string -> Result Ktx2Info.
Variable sh : Shell.
Variable extname : string -> string.
Variable previewPathOf : string -> string.

(** [runCommand] (extension.ts, lines 232-243). *)
Definition runCommand (cmd : string) : Proc unit :=
  (outcome <- exec sh cmd ;;
   match outcome with
   | Rejected error => throw error
   | Resolved _ => ret tt
   end)%proc.

(** [wrappedRunCommand] (lines 246-253); the promises around [exrinfo]
    and [oiiotool --info] are written the same way. *)
Definition wrappedRunCommand (cmd : string) : Proc string :=
  (outcome <- exec sh cmd ;; settled outcome)%proc.

(** What a step of the runtime gives, given the commands run so far:
    nothing, or the error it throws.  A step issues no command.  The
    calls of the editor itself (setting the page, registering the
    handler, showing a message) are taken not to throw. *)
Variable runtime : Log -> Step -> Result unit.

(** The [TypeError] of reading a property of [undefined]. *)
Variable typeError : Error.

Definition step (s : Step) : Proc unit := fun log => (runtime log s, log).

(** The end of the [try] block of an [.exr] or [.hdr] file (lines
    295-304). *)
Definition presentImage (previewPath : string) : Proc unit :=
  (step (ReadFile previewPath) ;;
   step BuildPage ;;
   step (Unlink previewPath))%proc.

(** The end of the inner [try] block of a [.ktx2] file (lines 359-371). *)
Definition presentKtx2 (info : Ktx2Info) (selection : Selection)
    (extractedPath initialDisplayPath : string) : Proc unit :=
  (step (ReadFile initialDisplayPath) ;;
   levelInfoHtml <-
     match renderLevelInfo (header info) (index info) (level selection) with
     | Some html => ret html
     | None => throw typeError
     end ;;
   step BuildPage ;;
   step (Unlink extractedPath) ;;
   step (Unlink initialDisplayPath))%proc.

(** [resolveCustomEditor] (lines 220-490).  The error of the last
    branch is [new Error('Unsupported file type')]. *)
Definition resolveCustomEditor (fsPath : string) : Proc Report :=
  let previewPath := previewPathOf fsPath in
  (colorDisplays <- getColorConfigInfo wrappedRunCommand ;;
   try_catch
     (let ext := extname fsPath in
      if (ext =? ".exr") || (ext =? ".hdr") then
        imageInfo <- (if ext =? ".exr"
                      then wrappedRunCommand ("exrinfo " ++ quoted fsPath)
                      else ret "") ;;
        oiioInfo <- wrappedRunCommand ("oiiotool --info " ++ quoted fsPath) ;;
        adjustExposure fsPath previewPath (num 0) runCommand
          (defaultDisplayName colorDisplays) (defaultViewName colorDisplays) ;;
        presentImage previewPath ;;
        ret Ready
      else if ext =? ".ktx2" then
        info <- getKtx2Info JSON_parse sh fsPath ;;
        let selection := {| level := 0; layer := 0; face := 0; depth := 0 |} in
        try_catch
          (extractedPath <- updateKtx2Preview sh fsPath previewPath selection (Some info) ;;
           let initialDisplayPath := previewPath ++ "_display.png" in
           adjustExposure extractedPath initialDisplayPath (num 0) runCommand
             (defaultDisplayName colorDisplays) (defaultViewName colorDisplays) ;;
           presentKtx2 info selection extractedPath initialDisplayPath ;;
           ret Ready)
          (fun error => ret (ErrorPanel error))
      else throw (ExecError "Unsupported file type"))
     (fun error => ret (ErrorMessage error)))%proc.

(** A message of a page: [msg.type], [msg.selection] with the
    [exposure], [display] and [view] it may carry, and [msg.display],
    [msg.view] and [msg.exposure], the last as the number [Math.pow]
    reads. *)
Record Message : Type := {
  msgType : string;
  msgSelection : Selection;
  msgSelectionExposure : option number;
  msgSelectionDisplay : option string;
  msgSelectionView : option string;
  msgDisplay : option string;
  msgView : option string;
  msgExposure : number
}.

(** [a || b || fallback] on names. *)
Definition nameOr2 (a b : option string) (fallback : string) : string :=
  nameOr a (nameOr b fallback).

(** The message handler of the EXR page (lines 307-331). *)
Definition onExrMessage (fsPath : string) (msg : Message) : Proc Report :=
  let previewPath := previewPathOf fsPath in
  if msgType msg =? "adjustExposure" then
    try_catch
      (let display := nameOr (msgDisplay msg) "sRGB - Display" in
       let view := nameOr (msgView msg) "ACES 1.0 - SDR Video" in
       adjustExposure fsPath previewPath (msgExposure msg) runCommand display view ;;
       ret Ready)%proc
      (fun e => ret (ErrorMessage e))
  else ret Ignored.

(** The message handler of the KTX2 page (lines 406-482). *)
Definition onKtx2Message (fsPath : string) (info : Ktx2Info) (msg : Message)
    : Proc Report :=
  let previewPath := previewPathOf fsPath in
  if msgType msg =? "extract" then
    try_catch
      (extractedPath <-
         updateKtx2Preview sh fsPath previewPath (msgSelection msg) (Some info) ;;
       let displayPath := previewPath ++ "_display.png" in
       let exposure := match msgSelectionExposure msg with
                       | Some e => e
                       | None => num 0
                       end in
       let display := nameOr (msgDisplay msg) "sRGB - Display" in
       let view := nameOr (msgView msg) "ACES 1.0 - SDR Video" in
       adjustExposure extractedPath displayPath exposure runCommand display view ;;
       ret Ready)%proc
      (fun e => ret (ErrorMessage e))
  else if msgType msg =? "adjustExposure" then
    try_catch
      (extractedPath <-
         updateKtx2Preview sh fsPath previewPath (msgSelection msg) (Some info) ;;
       let display := nameOr2 (msgDisplay msg) (msgSelectionDisplay msg)
                        "sRGB - Display" in
       let view := nameOr2 (msgView msg) (msgSelectionView msg)
                     "ACES 1.0 - SDR Video" in
       let displayPath := previewPath ++ "_display.png" in
       adjustExposure extractedPath displayPath (msgExposure msg) runCommand
         display view ;;
       ret Ready)%proc
      (fun e => ret (ErrorMessage e))
  else ret Ignored.

End Editor.

(** The catalog [getColorConfigInfo] yields on a given shell: what the
    query's output parses to, or the fallback when the query fails. *)
Definition discoveredDisplays (sh : Shell) (log : Log) : list ColorDisplay :=
  match sh log "oiiotool --colorconfiginfo" with
  | Resolved output => parseColorConfigInfo output
  | Rejected _ => fallbackDisplays
  end.



Definition noKtx : Shell :=
  fun _ cmd => if prefix "ktx " cmd then Rejected (ExecError "ktx: command not found")
               else Resolved "".

Definition quietTools : Shell := fun _ _ => Resolved "".

(** A runtime on which every step goes through, and one on which no
    file can be read. *)
Definition steadyRuntime : Log -> Step -> Result unit := fun _ _ => Resolved tt.


(** The error the runtime throws when a header is [undefined]. *)
Definition undefinedHeader : Error :=
  ExecError "TypeError: Cannot read properties of undefined (reading 'pixelWidth')".

(** The extension of a path whose name holds one dot, and a flat
    temporary directory. *)
Definition lastExtension (p : string) : string :=
  match Str.cut "." p with
  | Some (_, ext) => "." ++ ext
  | None => ""
  end.

Definition tmpPreview (p : string) : string := "/tmp/preview_" ++ p ++ ".png".

(** A message of the exposure slider that names no display and no view
    of its own, and a message of a selector button. *)
Definition sliderMessage : Message (JS := wholeNumbers) :=
  {| msgType := "adjustExposure";
     msgSelection := face3;
     msgSelectionExposure := Some 2%Z;
     msgSelectionDisplay := Some "Rec.1886 Rec.709 - Display";
     msgSelectionView := Some "Video (colorimetric)";
     msgDisplay := None;
     msgView := Some "";
     msgExposure := 2%Z |}.

Definition buttonMessage : Message (JS := wholeNumbers) :=
  {| msgType := "extract";
     msgSelection := face3;
     msgSelectionExposure := None;
     msgSelectionDisplay := Some "Rec.1886 Rec.709 - Display";
     msgSelectionView := None;
     msgDisplay := None;
     msgView := None;
     msgExposure := 0%Z |}.

(* ================================================================== *)
(** * PART II: lemmas and theorems *)

(* ================================================================== *)
(** ** Facts about strings *)

Section StringFacts.

Lemma append_nil_r (s : string) : s ++ "" = s.
Proof. induction s as [|c s IH]; simpl; [reflexivity | now rewrite IH]. Qed.

Lemma append_assoc (a b c : string) : (a ++ b) ++ c = a ++ b ++ c.
Proof. induction a as [|x a IH]; simpl; [reflexivity | now rewrite IH]. Qed.

Lemma length_append (a b : string) : length (a ++ b) = length a + length b.
Proof. induction a as [|x a IH]; simpl; [reflexivity | now rewrite IH]. Qed.

Lemma prefix_nil (s : string) : prefix "" s = true.
Proof. destruct s; reflexivity. Qed.

Lemma prefix_cons (a b : ascii) (p s : string) :
  prefix (String a p) (String b s) = Ascii.eqb a b && prefix p s.
Proof.
  simpl. destruct (ascii_dec a b) as [->|Hab].
  - now rewrite Ascii.eqb_refl.
  - apply Ascii.eqb_neq in Hab. now rewrite Hab.
Qed.

Lemma prefix_app (p r : string) : prefix p (p ++ r) = true.
Proof.
  induction p as [|a p IH]; [apply prefix_nil|].
  change (String a p ++ r) with (String a (p ++ r)).
  now rewrite prefix_cons, Ascii.eqb_refl, IH.
Qed.

Lemma prefix_inv (p s : string) :
  prefix p s = true -> exists r, s = p ++ r.
Proof.
  revert s; induction p as [|a p IH]; intros s H.
  - now exists s.
  - destruct s as [|b s]; [discriminate|].
    rewrite prefix_cons in H. apply andb_true_iff in H as [Hab Hp].
    apply Ascii.eqb_eq in Hab as ->.
    destruct (IH _ Hp) as [r ->]. now exists r.
Qed.

(** A prefix of [a ++ b] is a prefix of [a], or runs over the end of
    [a] into [b]. *)
Lemma prefix_app_inv (p a b : string) :
  prefix p (a ++ b) = true ->
  prefix p a = true \/ exists q, p = a ++ q /\ q <> "" /\ prefix q b = true.
Proof.
  revert a; induction p as [|x p IH]; intros a H.
  - left. apply prefix_nil.
  - destruct a as [|y a].
    + right. exists (String x p). repeat split; [discriminate | exact H].
    + change (String y a ++ b) with (String y (a ++ b)) in H.
      rewrite prefix_cons in H. apply andb_true_iff in H as [Hxy Hp].
      apply Ascii.eqb_eq in Hxy as ->.
      destruct (IH _ Hp) as [Hl | (q & -> & Hq & Hqb)].
      * left. now rewrite prefix_cons, Ascii.eqb_refl.
      * right. exists q. now repeat split.
Qed.

Lemma mem_app (c : ascii) (a b : string) :
  Str.mem c (a ++ b) = Str.mem c a || Str.mem c b.
Proof.
  induction a as [|x a IH]; simpl; [reflexivity|].
  now rewrite IH, orb_assoc.
Qed.

Lemma all_app (p : ascii -> bool) (a b : string) :
  Str.all p (a ++ b) = Str.all p a && Str.all p b.
Proof.
  induction a as [|x a IH]; simpl; [reflexivity|].
  now rewrite IH, andb_assoc.
Qed.

Lemma all_mem (p : ascii -> bool) (c : ascii) (s : string) :
  Str.all p s = true -> p c = false -> Str.mem c s = false.
Proof.
  induction s as [|x s IH]; simpl; [reflexivity|]; intros H Hc.
  apply andb_true_iff in H as [Hx Hs].
  rewrite (IH Hs Hc), orb_false_r.
  apply Ascii.eqb_neq. intros ->. congruence.
Qed.

(** ** [includes] *)

Lemma includes_cons (sub : string) (c : ascii) (s : string) :
  Str.includes sub (String c s) = prefix sub (String c s) || Str.includes sub s.
Proof. reflexivity. Qed.

Lemma includes_prefix (sub s : string) :
  prefix sub s = true -> Str.includes sub s = true.
Proof. intros H. destruct s; unfold Str.includes; now rewrite H. Qed.

Lemma includes_intro (sub a b : string) :
  Str.includes sub (a ++ sub ++ b) = true.
Proof.
  induction a as [|x a IH].
  - change ("" ++ sub ++ b) with (sub ++ b). apply includes_prefix, prefix_app.
  - change (String x a ++ sub ++ b) with (String x (a ++ sub ++ b)).
    rewrite includes_cons, IH. apply orb_true_r.
Qed.

Lemma includes_inv (sub s : string) :
  Str.includes sub s = true -> exists a b, s = a ++ sub ++ b.
Proof.
  induction s as [|x s IH]; intros H.
  - change (prefix sub "" || false = true) in H. rewrite orb_false_r in H.
    apply prefix_inv in H as [r ->]. now exists "", r.
  - rewrite includes_cons in H. apply orb_true_iff in H as [H|H].
    + apply prefix_inv in H as [r ->]. now exists "", r.
    + destruct (IH H) as (a & b & ->). now exists (String x a), b.
Qed.

(** A text that holds a character [s] lacks does not occur in [s]. *)
Lemma includes_foreign (sub s : string) (c : ascii) :
  Str.mem c sub = true -> Str.mem c s = false -> Str.includes sub s = false.
Proof.
  intros Hc Hs. destruct (Str.includes sub s) eqn:E; [|reflexivity].
  apply includes_inv in E as (a & b & ->).
  rewrite !mem_app, Hc in Hs. now rewrite orb_true_r in Hs.
Qed.

(** An occurrence cannot run across a character the text lacks. *)
Lemma includes_sep (sub a b : string) (c : ascii) :
  Str.mem c sub = false ->
  Str.includes sub (a ++ String c b) = Str.includes sub a || Str.includes sub b.
Proof.
  intros Hc. induction a as [|x a IH].
  - change ("" ++ String c b) with (String c b). rewrite includes_cons.
    destruct sub as [|y sub]; [now destruct b|].
    rewrite prefix_cons. simpl in Hc. apply orb_false_iff in Hc as [Hyc _].
    rewrite Ascii.eqb_sym in Hyc. now rewrite Hyc.
  - change (String x a ++ String c b) with (String x (a ++ String c b)).
    rewrite !includes_cons, IH, orb_assoc. f_equal.
    destruct (prefix sub (String x a)) eqn:E1.
    + apply prefix_inv in E1 as [r E1].
      change (String x (a ++ String c b)) with (String x a ++ String c b).
      rewrite E1, append_assoc. now rewrite prefix_app.
    + destruct (prefix sub (String x (a ++ String c b))) eqn:E2; [|reflexivity].
      change (String x (a ++ String c b)) with (String x a ++ String c b) in E2.
      apply prefix_app_inv in E2 as [E2 | (q & -> & Hq & Hqb)]; [congruence|].
      destruct q as [|y q]; [congruence|].
      rewrite prefix_cons in Hqb. apply andb_true_iff in Hqb as [Hy _].
      apply Ascii.eqb_eq in Hy as ->.
      rewrite mem_app in Hc. simpl in Hc. rewrite Ascii.eqb_refl in Hc.
      rewrite orb_true_r in Hc. discriminate.
Qed.

End StringFacts.

(** ** [endsWith] *)

Lemma endsWith_unfold (s suf : string) :
  Str.endsWith s suf =
  (s =? suf) || match s with "" => false | String _ s' => Str.endsWith s' suf end.
Proof. destruct s; reflexivity. Qed.

Lemma endsWith_refl (s : string) : Str.endsWith s s = true.
Proof. rewrite endsWith_unfold. now rewrite String.eqb_refl. Qed.

Lemma endsWith_app (p suf : string) : Str.endsWith (p ++ suf) suf = true.
Proof.
  induction p as [|x p IH]; [apply endsWith_refl|].
  change (String x p ++ suf) with (String x (p ++ suf)).
  rewrite endsWith_unfold, IH. apply orb_true_r.
Qed.

Lemma string_of_uint_chars (d : Decimal.uint) :
  Str.all isDecimalChar (NilEmpty.string_of_uint d) = true.
Proof. induction d; simpl; auto. Qed.

Lemma decimal_chars (n : Z) : Str.all isDecimalChar (decimal n) = true.
Proof.
  unfold decimal. destruct (Z.to_int n); simpl; apply string_of_uint_chars.
Qed.

(** A text with a character that is neither a digit nor a minus sign
    does not occur in a rendered integer. *)
Lemma decimal_excludes (sub : string) (c : ascii) (n : Z) :
  Str.mem c sub = true -> isDecimalChar c = false ->
  Str.includes sub (decimal n) = false.
Proof.
  intros Hc Hd. apply (includes_foreign _ _ c Hc).
  apply (all_mem isDecimalChar); [apply decimal_chars | exact Hd].
Qed.

Lemma unwords_cons (w : string) (ws : list string) :
  ws <> nil -> unwords (w :: ws) = w ++ " " ++ unwords ws.
Proof. destruct ws; [congruence | reflexivity]. Qed.

Lemma includes_nil_r (sub : string) : sub <> "" -> Str.includes sub "" = false.
Proof. destruct sub; [congruence | reflexivity]. Qed.

Lemma includes_app_l (sub a b : string) :
  Str.includes sub a = true -> Str.includes sub (a ++ b) = true.
Proof.
  intros H. apply includes_inv in H as (x & y & ->).
  rewrite !append_assoc. apply includes_intro.
Qed.

(** A text without a space occurs in a command line exactly when it
    occurs in one of its words. *)
Lemma includes_unwords (sub : string) (ws : list string) :
  Str.mem " " sub = false -> sub <> "" ->
  Str.includes sub (unwords ws) = existsb (Str.includes sub) ws.
Proof.
  intros Hsp Hne. induction ws as [|w ws IH].
  - now apply includes_nil_r.
  - destruct ws as [|w' ws].
    + simpl. now rewrite orb_false_r.
    + rewrite unwords_cons by discriminate.
      change (w ++ " " ++ unwords (w' :: ws))
        with (w ++ String " " (unwords (w' :: ws))).
      rewrite includes_sep by exact Hsp. rewrite IH. reflexivity.
Qed.

(** A text without a double quote occurs in a quoted argument exactly
    when it occurs in the argument. *)
Lemma includes_quoted (sub s : string) :
  Str.mem dq sub = false -> sub <> "" ->
  Str.includes sub (quoted s) = Str.includes sub s.
Proof.
  intros Hq Hne. unfold quoted.
  change (String dq (s ++ String dq "")) with ("" ++ String dq (s ++ String dq "")).
  rewrite !includes_sep by exact Hq.
  rewrite includes_nil_r by exact Hne. now rewrite orb_false_r.
Qed.

Lemma extractCmd_words ktx2Path previewPath selection info :
  extractCmd ktx2Path previewPath selection info
  = unwords (extractWords ktx2Path previewPath selection info).
Proof.
  unfold extractCmd, extractFlags, extractWords.
  destruct (isCubemap (headerOf info));
    destruct (orElse (pixelDepth (headerOf info)) 0 >? 1)%Z;
    destruct (orElse (layerCount (headerOf info)) 0 >? 1)%Z;
    cbn [app unwords]; rewrite ?append_assoc; reflexivity.
Qed.

Lemma fallbackCmd_words ktx2Path previewPath selection :
  fallbackCmd ktx2Path previewPath selection
  = unwords ("ktx" :: "extract" :: "--level" :: decimal (level selection)
             :: "--face" :: decimal (face selection)
             :: quoted ktx2Path :: quoted (extractPathOf previewPath) :: nil).
Proof. unfold fallbackCmd. cbn [unwords]. rewrite ?append_assoc. reflexivity. Qed.

(** Rewrites the question whether a flag text occurs in a command line
    into the same question about the path arguments. *)
Ltac flag_search :=
  rewrite includes_unwords by (try reflexivity; discriminate);
  cbn [existsb app];
  repeat rewrite includes_quoted by (try reflexivity; discriminate);
  repeat match goal with
    | |- context [Str.includes ?sub (decimal ?n)] =>
        rewrite (decimal_excludes sub "e"%char n) by reflexivity
    | |- context [Str.includes ?sub (decimal ?n)] =>
        rewrite (decimal_excludes sub "a"%char n) by reflexivity
    end.

(* ================================================================== *)
(** * Properties of the extraction command *)

Lemma gtb_true (a b : Z) : (a > b)%Z -> (a >? b)%Z = true.
Proof. intros H. rewrite Z.gtb_ltb. apply Z.ltb_lt. lia. Qed.

Lemma extractFlags_prefix ktx2Path previewPath selection info :
  extractCmd ktx2Path previewPath selection info
  = extractFlags selection (headerOf info)
    ++ " " ++ quoted ktx2Path ++ " " ++ quoted (extractPathOf previewPath).
Proof. reflexivity. Qed.

Lemma flags_clean (sub : string) ktx2Path previewPath selection info :
  Str.includes sub (extractCmd ktx2Path previewPath selection info) = false ->
  Str.includes sub (extractFlags selection (headerOf info)) = false.
Proof.
  intros H. destruct (Str.includes sub (extractFlags _ _)) eqn:E; [|reflexivity].
  rewrite extractFlags_prefix, (includes_app_l _ _ _ E) in H. discriminate.
Qed.

(** The target path never gains an occurrence of a text that holds no
    full stop. *)
Lemma extractPathOf_clean (sub previewPath : string) :
  Str.mem "." sub = false -> sub <> "" ->
  Str.includes sub previewPath = false ->
  Str.includes sub "exr" = false ->
  Str.includes sub (extractPathOf previewPath) = false.
Proof.
  intros Hdot Hne Hp Hexr. unfold extractPathOf.
  destruct (Str.endsWith previewPath ".exr"); [exact Hp|].
  change (previewPath ++ ".exr") with (previewPath ++ String "." "exr").
  rewrite includes_sep by exact Hdot. now rewrite Hp, Hexr.
Qed.

(** C1.  For a cubemap header (faceCount > 1) the extraction command
    carries [--face <selection.face>] and no [--depth], whatever
    pixelDepth is: the selector flags hold no [--depth], and the whole
    command holds none unless one of the two paths spells it.  With
    faceCount = 6, pixelDepth = 0 and no array layers, level 0 and face 3
    give [ktx extract --level 0 --face 3 "<input>" "<output>.exr"]. *)
Theorem cubemap_command_face_no_depth :
  forall (ktx2Path previewPath : string) (selection : Selection)
         (info : option Ktx2Info) (faces : Z),
    let h := headerOf info in
    let cmd := extractCmd ktx2Path previewPath selection info in
    faceCount h = Some faces -> (faces > 1)%Z ->
    Str.includes (" --face " ++ decimal (face selection) ++ " ") cmd = true
    /\ Str.includes "--depth" (extractFlags selection h) = false
    /\ (Str.includes "--depth" ktx2Path = false ->
        Str.includes "--depth" previewPath = false ->
        Str.includes "--depth" cmd = false)
    /\ (faces = 6%Z -> pixelDepth h = Some 0%Z ->
        (layerCount h = None \/ layerCount h = Some 0%Z \/ layerCount h = Some 1%Z) ->
        level selection = 0%Z -> face selection = 3%Z ->
        cmd = "ktx extract --level 0 --face 3 " ++ quoted ktx2Path
              ++ " " ++ quoted (extractPathOf previewPath)).
Proof.
  intros ktx2Path previewPath selection info faces h cmd Hfaces Hgt.
  assert (Hc : isCubemap h = true).
  { unfold isCubemap. rewrite Hfaces. unfold orElse.
    destruct (Z.eqb_spec faces 0); [lia | now apply gtb_true]. }
  assert (Hflags : forall k p,
             Str.includes "--depth" k = false ->
             Str.includes "--depth" p = false ->
             Str.includes "--depth" (extractCmd k p selection info) = false).
  { intros k p Hk Hp. rewrite extractCmd_words. unfold extractWords.
    fold h. rewrite Hc. destruct (orElse (layerCount h) 0 >? 1)%Z;
      flag_search;
      rewrite Hk, extractPathOf_clean by (reflexivity || discriminate || exact Hp);
      reflexivity. }
  repeat split.
  - subst cmd. unfold extractCmd, extractFlags. fold h. rewrite Hc.
    destruct (orElse (layerCount h) 0 >? 1)%Z.
    + replace ((("ktx extract --level " ++ decimal (level selection)) ++
                " --face " ++ decimal (face selection)) ++
               " --layer " ++ decimal (layer selection))
        with (("ktx extract --level " ++ decimal (level selection)) ++
              (" --face " ++ decimal (face selection) ++ " ") ++
              "--layer " ++ decimal (layer selection))
        by (rewrite !append_assoc; reflexivity).
      apply includes_app_l, includes_intro.
    + replace ((("ktx extract --level " ++ decimal (level selection)) ++
                " --face " ++ decimal (face selection)) ++
               " " ++ quoted ktx2Path ++ " " ++ quoted (extractPathOf previewPath))
        with (("ktx extract --level " ++ decimal (level selection)) ++
              (" --face " ++ decimal (face selection) ++ " ") ++
              quoted ktx2Path ++ " " ++ quoted (extractPathOf previewPath))
        by (rewrite !append_assoc; reflexivity).
      apply includes_intro.
  - apply (flags_clean _ "" ""); apply Hflags; reflexivity.
  - apply Hflags.
  - intros _ _ Hlayer Hlevel Hface. subst cmd.
    unfold extractCmd, extractFlags. fold h. rewrite Hc, Hlevel, Hface.
    replace (orElse (layerCount h) 0 >? 1)%Z with false
      by (destruct Hlayer as [-> | [-> | ->]]; reflexivity).
    reflexivity.
Qed.

Lemma cubemap_command_face_no_depth_witness :
  extractCmd "cube.ktx2" "/tmp/preview_cube.ktx2.png" face3 cubeInfo
  = "ktx extract --level 0 --face 3 " ++ quoted "cube.ktx2"
    ++ " " ++ quoted "/tmp/preview_cube.ktx2.png.exr"
  /\ Str.includes "--depth"
       (extractCmd "cube.ktx2" "/tmp/preview_cube.ktx2.png" face3 cubeInfo) = false.
Proof.
  destruct (cubemap_command_face_no_depth "cube.ktx2" "/tmp/preview_cube.ktx2.png"
              face3 cubeInfo 6%Z eq_refl) as (_ & _ & Hclean & Hcmd); [lia|].
  split.
  - apply Hcmd; try reflexivity. right; left; reflexivity.
  - apply Hclean; reflexivity.
Defined.

(** The earlier revision decided the depth selector on pixelDepth alone,
    so on a header with faces and depth slices its command carried both
    selectors; the current function, which C1 is about, drops the depth
    selector there. *)
Example earlier_revision_kept_depth :
  legacyExtractCmd "cube.ktx2" "/tmp/p.png" face3 deepCubeInfo
  = "ktx extract --level 0 --face 3 --depth 0 " ++ quoted "cube.ktx2"
    ++ " " ++ quoted "/tmp/p.png"
  /\ extractCmd "cube.ktx2" "/tmp/p.png" face3 deepCubeInfo
     = "ktx extract --level 0 --face 3 " ++ quoted "cube.ktx2"
       ++ " " ++ quoted "/tmp/p.png.exr".
Proof. split; reflexivity. Qed.

(** C7.  With layerCount absent, 0 or 1 the extraction command carries
    no [--layer]: the selector flags hold none, and the whole command
    holds none unless a path spells it.  With layerCount > 1 it carries
    [--layer <selection.layer>]. *)
Theorem layer_flag_only_for_arrays :
  forall (ktx2Path previewPath : string) (selection : Selection)
         (info : option Ktx2Info),
    let h := headerOf info in
    let cmd := extractCmd ktx2Path previewPath selection info in
    ((layerCount h = None \/ layerCount h = Some 0%Z \/ layerCount h = Some 1%Z) ->
     Str.includes "--layer" (extractFlags selection h) = false
     /\ (Str.includes "--layer" ktx2Path = false ->
         Str.includes "--layer" previewPath = false ->
         Str.includes "--layer" cmd = false))
    /\ (forall n, layerCount h = Some n -> (n > 1)%Z ->
        Str.includes (" --layer " ++ decimal (layer selection) ++ " ") cmd = true).
Proof.
  intros ktx2Path previewPath selection info h cmd. split.
  - intros Hcount.
    assert (Hl : (orElse (layerCount h) 0 >? 1)%Z = false)
      by (destruct Hcount as [-> | [-> | ->]]; reflexivity).
    assert (Hclean : forall k p,
               Str.includes "--layer" k = false ->
               Str.includes "--layer" p = false ->
               Str.includes "--layer" (extractCmd k p selection info) = false).
    { intros k p Hk Hp. rewrite extractCmd_words. unfold extractWords.
      fold h. rewrite Hl.
      destruct (isCubemap h); [|destruct (orElse (pixelDepth h) 0 >? 1)%Z];
        flag_search;
        rewrite Hk, extractPathOf_clean by (reflexivity || discriminate || exact Hp);
        reflexivity. }
    split; [|apply Hclean].
    apply (flags_clean _ "" ""); apply Hclean; reflexivity.
  - intros n Hn Hgt.
    assert (Hl : (orElse (layerCount h) 0 >? 1)%Z = true).
    { rewrite Hn. unfold orElse. destruct (Z.eqb_spec n 0); [lia|].
      apply gtb_true. exact Hgt. }
    subst cmd. unfold extractCmd, extractFlags. fold h. rewrite Hl.
    match goal with
    | |- Str.includes _ ((?flags ++ " --layer " ++ ?n) ++ " " ++ ?rest) = true =>
        replace ((flags ++ " --layer " ++ n) ++ " " ++ rest)
          with (flags ++ (" --layer " ++ n ++ " ") ++ rest)
          by (rewrite !append_assoc; reflexivity)
    end.
    apply includes_intro.
Qed.

Lemma layer_flag_only_for_arrays_witness :
  (Str.includes "--layer" (extractFlags face3 cubeHeader) = false
   /\ Str.includes "--layer"
        (extractCmd "cube.ktx2" "/tmp/preview_cube.ktx2.png" face3 cubeInfo) = false)
  /\ Str.includes " --layer 2 "
       (extractCmd "array.ktx2" "/tmp/preview_array.ktx2.png" layer2 arrayInfo) = true.
Proof.
  split.
  - destruct (proj1 (layer_flag_only_for_arrays "cube.ktx2"
                       "/tmp/preview_cube.ktx2.png" face3 cubeInfo)) as [H1 H2].
    + right; left; reflexivity.
    + split; [exact H1 | apply H2; reflexivity].
  - apply (proj2 (layer_flag_only_for_arrays "array.ktx2"
                    "/tmp/preview_array.ktx2.png" layer2 arrayInfo) 4%Z);
      [reflexivity | lia].
Defined.

(** ** The target path *)

(** C9.  The extraction target ends in [.exr]: it is [previewPath] when
    that already ends in [.exr] and [previewPath ++ ".exr"] otherwise; it
    is the last quoted argument of the primary and of the reduced
    command, and it is what a successful call returns.  Every call
    issues the primary command first, and every command it issues names
    the target as its output; a call resolves only after the shell has
    accepted the last command it issued, which names the target. *)
Theorem extract_path_is_exr_target :
  forall (sh : Shell) (ktx2Path previewPath : string) (selection : Selection)
         (info : option Ktx2Info) (log : Log),
    let target := extractPathOf previewPath in
    Str.endsWith target ".exr" = true
    /\ (Str.endsWith previewPath ".exr" = true -> target = previewPath)
    /\ (Str.endsWith previewPath ".exr" = false -> target = previewPath ++ ".exr")
    /\ Str.endsWith (extractCmd ktx2Path previewPath selection info)
         (" " ++ quoted target) = true
    /\ Str.endsWith (fallbackCmd ktx2Path previewPath selection)
         (" " ++ quoted target) = true
    /\ (forall path log',
          updateKtx2Preview sh ktx2Path previewPath selection info log
          = (Resolved path, log') -> path = target)
    /\ (forall stdout,
          sh log (extractCmd ktx2Path previewPath selection info) = Resolved stdout ->
          fst (updateKtx2Preview sh ktx2Path previewPath selection info log)
          = Resolved target)
    /\ (exists rest,
          snd (updateKtx2Preview sh ktx2Path previewPath selection info log)
          = (log ++ extractCmd ktx2Path previewPath selection info :: rest)%list
          /\ Forall (fun cmd => Str.endsWith cmd (" " ++ quoted target) = true)
               (extractCmd ktx2Path previewPath selection info :: rest))
    /\ (forall path log',
          updateKtx2Preview sh ktx2Path previewPath selection info log
          = (Resolved path, log') ->
          exists issued cmd stdout,
            log' = (issued ++ [cmd])%list
            /\ sh issued cmd = Resolved stdout
            /\ Str.endsWith cmd (" " ++ quoted target) = true).
Proof.
  intros sh ktx2Path previewPath selection info log target.
  assert (Hprimary : Str.endsWith (extractCmd ktx2Path previewPath selection info)
                       (" " ++ quoted target) = true).
  { unfold extractCmd. fold target.
    rewrite <- !append_assoc. rewrite append_assoc. apply endsWith_app. }
  assert (Hreduced : Str.endsWith (fallbackCmd ktx2Path previewPath selection)
                       (" " ++ quoted target) = true).
  { unfold fallbackCmd. fold target.
    rewrite <- !append_assoc. rewrite append_assoc. apply endsWith_app. }
  split; [|split; [|split; [|split; [|split; [|split; [|split; [|split]]]]]]].
  - subst target. unfold extractPathOf.
    destruct (Str.endsWith previewPath ".exr") eqn:E; [exact E|].
    apply endsWith_app.
  - intros E. subst target. unfold extractPathOf. now rewrite E.
  - intros E. subst target. unfold extractPathOf. now rewrite E.
  - exact Hprimary.
  - exact Hreduced.
  - intros path log'. unfold updateKtx2Preview, bind, try_catch, exec, throw, ret.
    fold target.
    destruct (sh log _); [intros [= <- _]; reflexivity|].
    destruct (isCubemap _); [|discriminate].
    destruct (sh _ _); [intros [= <- _]; reflexivity | discriminate].
  - intros stdout Hok. unfold updateKtx2Preview, bind, try_catch, exec, throw, ret.
    now rewrite Hok.
  - unfold updateKtx2Preview, bind, try_catch, exec, throw, ret.
    destruct (sh log _).
    + exists nil. split; [reflexivity | now constructor].
    + destruct (isCubemap _).
      * exists [fallbackCmd ktx2Path previewPath selection].
        split; [destruct (sh _ _); cbn [snd]; now rewrite <- app_assoc|].
        constructor; [exact Hprimary | now constructor].
      * exists nil. split; [reflexivity | now constructor].
  - intros path log'. unfold updateKtx2Preview, bind, try_catch, exec, throw, ret.
    destruct (sh log _) as [stdout|e] eqn:E1.
    + intros [= _ <-]. now exists log, (extractCmd ktx2Path previewPath selection info), stdout.
    + destruct (isCubemap _); [|intros H; discriminate H].
      destruct (sh (log ++ [extractCmd ktx2Path previewPath selection info])%list
                  (fallbackCmd ktx2Path previewPath selection))
        as [stdout|e2] eqn:E2; cbv beta iota;
        [|intros H; discriminate H].
      intros [= _ <-].
      now exists (log ++ [extractCmd ktx2Path previewPath selection info])%list,
        (fallbackCmd ktx2Path previewPath selection), stdout.
Qed.

Lemma extract_path_is_exr_target_witness :
  extractPathOf "/tmp/preview_cube.ktx2.png" = "/tmp/preview_cube.ktx2.png.exr"
  /\ extractPathOf "/tmp/slice.exr" = "/tmp/slice.exr"
  /\ fst (updateKtx2Preview (fun _ _ => Resolved "") "cube.ktx2"
            "/tmp/preview_cube.ktx2.png" face3 cubeInfo nil)
     = Resolved "/tmp/preview_cube.ktx2.png.exr"
  /\ (exists issued cmd stdout,
        snd (updateKtx2Preview (fun _ _ => Resolved "") "cube.ktx2"
               "/tmp/preview_cube.ktx2.png" face3 cubeInfo nil)
        = (issued ++ [cmd])%list
        /\ (fun _ _ => Resolved "") issued cmd = Resolved stdout
        /\ Str.endsWith cmd (" " ++ quoted "/tmp/preview_cube.ktx2.png.exr") = true).
Proof.
  pose proof (extract_path_is_exr_target (fun _ _ => Resolved "") "cube.ktx2"
                "/tmp/preview_cube.ktx2.png" face3 cubeInfo nil) as H1.
  pose proof (extract_path_is_exr_target (fun _ _ => Resolved "") "cube.ktx2"
                "/tmp/slice.exr" face3 cubeInfo nil) as H2.
  destruct H1 as (_ & _ & Ha & _ & _ & _ & Hr & _ & Hlast).
  destruct H2 as (_ & Hb & _).
  split; [apply Ha; reflexivity|].
  split; [apply Hb; reflexivity|].
  split; [apply (Hr ""); reflexivity|].
  destruct (Hlast "/tmp/preview_cube.ktx2.png.exr"
              (snd (updateKtx2Preview (fun _ _ => Resolved "") "cube.ktx2"
                      "/tmp/preview_cube.ktx2.png" face3 cubeInfo nil)) eq_refl)
    as (issued & cmd & stdout & Hlog & Hsh & Hend).
  exists issued, cmd, stdout. split; [exact Hlog|]. split; [exact Hsh | exact Hend].
Defined.

(** ** The retry policy *)

Lemma updateKtx2Preview_ok sh ktx2Path previewPath selection info log stdout :
  sh log (extractCmd ktx2Path previewPath selection info) = Resolved stdout ->
  updateKtx2Preview sh ktx2Path previewPath selection info log
  = (Resolved (extractPathOf previewPath),
     (log ++ [extractCmd ktx2Path previewPath selection info])%list).
Proof.
  intros H. unfold updateKtx2Preview, bind, try_catch, exec, throw, ret.
  now rewrite H.
Qed.

(** C2.  When the primary command fails on a cubemap, exactly one more
    command is issued: [ktx extract --level L --face F "<in>" "<out>"],
    which holds neither [--layer] nor [--depth]; the call rejects only if
    that one fails too, and resolves to the target path otherwise.  When
    the primary command fails on anything else, the call rejects with
    that error and nothing more is issued. *)
Theorem cubemap_failure_retried_once :
  forall (sh : Shell) (ktx2Path previewPath : string) (selection : Selection)
         (info : option Ktx2Info) (log : Log) (error : Error),
    let cmd := extractCmd ktx2Path previewPath selection info in
    let retry := fallbackCmd ktx2Path previewPath selection in
    sh log cmd = Rejected error ->
    (isCubemap (headerOf info) = true ->
       updateKtx2Preview sh ktx2Path previewPath selection info log
       = (match sh (log ++ [cmd])%list retry with
          | Resolved _ => Resolved (extractPathOf previewPath)
          | Rejected fallbackError => Rejected fallbackError
          end,
          (log ++ [cmd; retry])%list)
       /\ retry = "ktx extract --level " ++ decimal (level selection)
                  ++ " --face " ++ decimal (face selection)
                  ++ " " ++ quoted ktx2Path
                  ++ " " ++ quoted (extractPathOf previewPath)
       /\ (forall flag, flag = "--layer" \/ flag = "--depth" ->
           Str.includes flag ktx2Path = false ->
           Str.includes flag previewPath = false ->
           Str.includes flag retry = false))
    /\ (isCubemap (headerOf info) = false ->
        updateKtx2Preview sh ktx2Path previewPath selection info log
        = (Rejected error, (log ++ [cmd])%list)).
Proof.
  intros sh ktx2Path previewPath selection info log error cmd retry Hfail.
  split.
  - intros Hcube. repeat split.
    + unfold updateKtx2Preview, bind, try_catch, exec, throw, ret.
      fold cmd retry. rewrite Hfail, Hcube.
      rewrite <- app_assoc. simpl app.
      now destruct (sh (log ++ [cmd])%list retry).
    + intros flag Hflag Hk Hp. subst retry. rewrite fallbackCmd_words.
      destruct Hflag as [-> | ->]; flag_search;
        rewrite Hk, extractPathOf_clean by (reflexivity || discriminate || exact Hp);
        reflexivity.
  - intros Hflat. unfold updateKtx2Preview, bind, try_catch, exec, throw, ret.
    fold cmd. now rewrite Hfail, Hflat.
Qed.

Lemma cubemap_failure_retried_once_witness :
  updateKtx2Preview rejectsLayer "cube.ktx2" "/tmp/p.png" face3 cubeArrayInfo nil
  = (Resolved "/tmp/p.png.exr",
     [("ktx extract --level 0 --face 3 --layer 0 " ++ quoted "cube.ktx2"
        ++ " " ++ quoted "/tmp/p.png.exr")%string;
      ("ktx extract --level 0 --face 3 " ++ quoted "cube.ktx2"
        ++ " " ++ quoted "/tmp/p.png.exr")%string]%list)
  /\ updateKtx2Preview rejectsLayer "array.ktx2" "/tmp/p.png" layer2 arrayInfo nil
     = (Rejected (ExecError "validation failed"),
        [("ktx extract --level 1 --layer 2 " ++ quoted "array.ktx2"
           ++ " " ++ quoted "/tmp/p.png.exr")%string]%list).
Proof.
  split.
  - apply (proj1 (cubemap_failure_retried_once rejectsLayer "cube.ktx2" "/tmp/p.png"
             face3 cubeArrayInfo nil
             (ExecError "validation failed")
             eq_refl)).
    reflexivity.
  - apply (proj2 (cubemap_failure_retried_once rejectsLayer "array.ktx2" "/tmp/p.png"
             layer2 arrayInfo nil
             (ExecError "validation failed")
             eq_refl)).
    reflexivity.
Defined.

(* ================================================================== *)
(** * Properties of the metadata query *)

Section Ktx2MetadataFacts.

Variable JSON_parse : string -> Result Ktx2Info.

Lemma getKtx2Info_cases (sh : Shell) (filePath : string) (log : Log) :
  fst (getKtx2Info JSON_parse sh filePath log)
  = match infoOutput sh filePath log with
    | Rejected _ => Resolved minimalInfo
    | Resolved text =>
        match JSON_parse text with
        | Resolved info => Resolved info
        | Rejected _ =>
            match braced text with
            | Some jsonMatch =>
                match JSON_parse jsonMatch with
                | Resolved info => Resolved info
                | Rejected _ => Resolved minimalInfo
                end
            | None => Resolved minimalInfo
            end
        end
    end.
Proof.
  unfold getKtx2Info, infoOutput, bind, try_catch, exec, throw, ret, settled.
  destruct (sh log (infoCmd filePath)) as [stdout|e1].
  - destruct (JSON_parse stdout); [reflexivity|].
    destruct (braced stdout); [|reflexivity].
    now destruct (JSON_parse _).
  - destruct (sh _ (infoCmdUnvalidated filePath)) as [stdout|e2]; [|reflexivity].
    destruct (JSON_parse stdout); [reflexivity|].
    destruct (braced stdout); [|reflexivity].
    now destruct (JSON_parse _).
Qed.

(** C3.  [getKtx2Info] never rejects.  When both command variants fail,
    or when their output parses neither whole nor cut down to its
    braces, it resolves to metadata whose header has levelCount,
    layerCount, faceCount and pixelDepth all 1. *)
Theorem getKtx2Info_total_with_fallback :
  forall (sh : Shell) (filePath : string) (log : Log),
    (exists info, fst (getKtx2Info JSON_parse sh filePath log) = Resolved info)
    /\ ((match infoOutput sh filePath log with
         | Rejected _ => True
         | Resolved text => unparseable JSON_parse text
         end) ->
        exists info h,
          fst (getKtx2Info JSON_parse sh filePath log) = Resolved info
          /\ header info = Some h
          /\ levelCount h = Some 1%Z /\ layerCount h = Some 1%Z
          /\ faceCount h = Some 1%Z /\ pixelDepth h = Some 1%Z).
Proof.
  intros sh filePath log. rewrite getKtx2Info_cases. split.
  - destruct (infoOutput sh filePath log) as [text|]; [|now eexists].
    destruct (JSON_parse text); [now eexists|].
    destruct (braced text); [|now eexists].
    destruct (JSON_parse _); now eexists.
  - intros Hbad. exists minimalInfo. eexists. split; [|now repeat split].
    destruct (infoOutput sh filePath log) as [text|]; [|reflexivity].
    destruct Hbad as [[e He] Hb]. rewrite He.
    destruct (braced text); [|reflexivity].
    destruct Hb as [e' ->]. reflexivity.
Qed.

End Ktx2MetadataFacts.

Lemma getKtx2Info_total_with_fallback_witness :
  exists info h,
    fst (getKtx2Info parseEmptyObject brokenKtx "a.ktx2" nil) = Resolved info
    /\ header info = Some h
    /\ levelCount h = Some 1%Z /\ layerCount h = Some 1%Z
    /\ faceCount h = Some 1%Z /\ pixelDepth h = Some 1%Z.
Proof.
  apply (proj2 (getKtx2Info_total_with_fallback parseEmptyObject brokenKtx "a.ktx2" nil)).
  split; [now eexists | simpl; now eexists].
Defined.

(* ================================================================== *)
(** * Properties of the tone-mapping command *)

Section TonemapFacts.

Context {JS : JSNumber}.

Lemma number_excludes (sub : string) (c : ascii) (x : number) :
  Str.mem c sub = true -> isNumberChar c = false ->
  Str.includes sub (numberToString x) = false.
Proof.
  intros Hc Hn. apply (includes_foreign _ _ c Hc).
  apply (all_mem isNumberChar); [apply toString_chars | exact Hn].
Qed.

Lemma adjustExposureCmd_plain inputPath outputPath exposure display :
  adjustExposureCmd inputPath outputPath exposure display "No Tonemapping"
  = unwords ["oiiotool"; quoted inputPath; "--mulc";
             numberToString (Math_pow (num 2) exposure);
             "--colorconvert"; "lin_rec709"; "sRGB"; "-o"; quoted outputPath].
Proof. reflexivity. Qed.

Lemma adjustExposureCmd_display inputPath outputPath exposure display view :
  view <> "No Tonemapping" ->
  adjustExposureCmd inputPath outputPath exposure display view
  = unwords ["oiiotool"; quoted inputPath; "--mulc";
             numberToString (Math_pow (num 2) exposure);
             "--ociodisplay"; quoted display; quoted view; "-o"; quoted outputPath].
Proof.
  intros Hv. unfold adjustExposureCmd.
  apply String.eqb_neq in Hv. rewrite Hv. reflexivity.
Qed.

(** C5.  With view [No Tonemapping] the command converts with
    [--colorconvert lin_rec709 sRGB] and carries no [--ociodisplay];
    with any other view it carries [--ociodisplay "<display>" "<view>"]
    and no [--colorconvert].  (The whole command holds the absent flag
    only if a path or a name passed in spells it.)  Either way the
    multiplier is applied with [--mulc]. *)
Theorem tonemap_flag_by_view :
  forall (inputPath outputPath : string) (exposure : number) (display view : string),
    let cmd := adjustExposureCmd inputPath outputPath exposure display view in
    let mulc := " --mulc " ++ numberToString (Math_pow (num 2) exposure) ++ " " in
    (view = "No Tonemapping" ->
       cmd = "oiiotool " ++ quoted inputPath ++ mulc
             ++ "--colorconvert lin_rec709 sRGB -o " ++ quoted outputPath
       /\ Str.includes " --colorconvert lin_rec709 sRGB " cmd = true
       /\ Str.includes mulc cmd = true
       /\ (Str.includes "--ociodisplay" inputPath = false ->
           Str.includes "--ociodisplay" outputPath = false ->
           Str.includes "--ociodisplay" cmd = false))
    /\ (view <> "No Tonemapping" ->
       cmd = "oiiotool " ++ quoted inputPath ++ mulc
             ++ "--ociodisplay " ++ quoted display ++ " " ++ quoted view
             ++ " -o " ++ quoted outputPath
       /\ Str.includes (" --ociodisplay " ++ quoted display ++ " " ++ quoted view ++ " ")
            cmd = true
       /\ Str.includes mulc cmd = true
       /\ (Str.includes "--colorconvert" inputPath = false ->
           Str.includes "--colorconvert" outputPath = false ->
           Str.includes "--colorconvert" display = false ->
           Str.includes "--colorconvert" view = false ->
           Str.includes "--colorconvert" cmd = false)).
Proof.
  intros inputPath outputPath exposure display view cmd mulc. split.
  - intros ->. subst cmd mulc.
    assert (E : adjustExposureCmd inputPath outputPath exposure display "No Tonemapping"
                = "oiiotool " ++ quoted inputPath
                  ++ (" --mulc " ++ numberToString (Math_pow (num 2) exposure) ++ " ")
                  ++ "--colorconvert lin_rec709 sRGB -o " ++ quoted outputPath).
    { unfold adjustExposureCmd. simpl String.eqb. cbv iota.
      rewrite !append_assoc. reflexivity. }
    split; [exact E|]. split; [|split].
    + unfold adjustExposureCmd. simpl String.eqb. cbv iota.
      replace ("oiiotool " ++ quoted inputPath ++ " --mulc "
               ++ numberToString (Math_pow (num 2) exposure)
               ++ " --colorconvert lin_rec709 sRGB -o " ++ quoted outputPath)
        with (("oiiotool " ++ quoted inputPath ++ " --mulc "
               ++ numberToString (Math_pow (num 2) exposure))
              ++ " --colorconvert lin_rec709 sRGB " ++ ("-o " ++ quoted outputPath))
        by (rewrite !append_assoc; reflexivity).
      apply includes_intro.
    + rewrite E.
      rewrite <- (append_assoc "oiiotool " (quoted inputPath)).
      apply includes_intro.
    + intros Hi Ho. rewrite adjustExposureCmd_plain. flag_search.
      rewrite (number_excludes _ "o"%char) by reflexivity.
      now rewrite Hi, Ho.
  - intros Hv. subst cmd mulc.
    assert (E : adjustExposureCmd inputPath outputPath exposure display view
                = "oiiotool " ++ quoted inputPath
                  ++ (" --mulc " ++ numberToString (Math_pow (num 2) exposure) ++ " ")
                  ++ "--ociodisplay " ++ quoted display ++ " " ++ quoted view
                  ++ " -o " ++ quoted outputPath).
    { unfold adjustExposureCmd. apply String.eqb_neq in Hv. rewrite Hv.
      rewrite !append_assoc. reflexivity. }
    split; [exact E|]. split; [|split].
    + unfold adjustExposureCmd. pose proof Hv as Hv'.
      apply String.eqb_neq in Hv'. rewrite Hv'.
      replace ("oiiotool " ++ quoted inputPath ++ " --mulc "
               ++ numberToString (Math_pow (num 2) exposure)
               ++ " --ociodisplay " ++ quoted display ++ " " ++ quoted view
               ++ " -o " ++ quoted outputPath)
        with (("oiiotool " ++ quoted inputPath ++ " --mulc "
               ++ numberToString (Math_pow (num 2) exposure))
              ++ (" --ociodisplay " ++ quoted display ++ " " ++ quoted view ++ " ")
              ++ ("-o " ++ quoted outputPath))
        by (rewrite !append_assoc; reflexivity).
      apply includes_intro.
    + rewrite E.
      rewrite <- (append_assoc "oiiotool " (quoted inputPath)).
      apply includes_intro.
    + intros Hi Ho Hd Hw. rewrite adjustExposureCmd_display by exact Hv. flag_search.
      rewrite (number_excludes _ "o"%char) by reflexivity.
      now rewrite Hi, Ho, Hd, Hw.
Qed.

(** C6.  The argument of [--mulc] is the text of [Math.pow(2, exposure)]
    whatever the view; at exposure 0 that is [1], so the initial preview
    request, made with exposure 0 and the default display and view of
    the discovered catalog, carries [--mulc 1]. *)
Theorem exposure_multiplier_is_power_of_two :
  (forall (inputPath outputPath : string) (exposure : number) (display view : string),
      exists rest,
        adjustExposureCmd inputPath outputPath exposure display view
        = unwords ("oiiotool" :: quoted inputPath :: "--mulc"
                   :: numberToString (Math_pow (num 2) exposure) :: rest)
        /\ rest <> nil)
  /\ numberToString (Math_pow (num 2) (num 0)) = "1"
  /\ (forall (colorDisplays : list ColorDisplay) (fsPath previewPath : string),
        exists rest,
          initialPreviewCmd colorDisplays fsPath previewPath
          = "oiiotool " ++ quoted fsPath ++ " --mulc 1 " ++ rest).
Proof.
  assert (Hone : numberToString (Math_pow (num 2) (num 0)) = "1").
  { rewrite pow_zero. rewrite toString_whole by (simpl; lia). reflexivity. }
  split; [|split; [exact Hone|]].
  - intros inputPath outputPath exposure display view.
    destruct (string_dec view "No Tonemapping") as [->|Hv].
    + eexists. rewrite adjustExposureCmd_plain. split; [reflexivity | discriminate].
    + eexists. rewrite adjustExposureCmd_display by exact Hv.
      split; [reflexivity | discriminate].
  - intros colorDisplays fsPath previewPath. unfold initialPreviewCmd.
    unfold adjustExposureCmd. rewrite Hone.
    destruct (defaultViewName colorDisplays =? "No Tonemapping");
      eexists; reflexivity.
Qed.

End TonemapFacts.

Lemma exposure_multiplier_is_power_of_two_witness :
  Str.includes " --mulc 1 "
    (initialPreviewCmd (JS := wholeNumbers) (parseColorConfigInfo sampleOutput)
       "foo.exr" "/tmp/preview_foo.exr.png") = true.
Proof.
  destruct (proj2 (proj2 (exposure_multiplier_is_power_of_two (JS := wholeNumbers)))
              (parseColorConfigInfo sampleOutput) "foo.exr" "/tmp/preview_foo.exr.png")
    as [rest ->].
  rewrite <- append_assoc. apply includes_intro.
Defined.

(** The initial request for [foo.exr] with the sample catalog. *)
Example initial_preview_command_example :
  initialPreviewCmd (JS := wholeNumbers) (parseColorConfigInfo sampleOutput)
    "foo.exr" "/tmp/preview_foo.exr.png"
  = "oiiotool " ++ quoted "foo.exr" ++ " --mulc 1 --ociodisplay "
    ++ quoted "sRGB - Display" ++ " " ++ quoted "ACES 1.0 - SDR Video"
    ++ " -o " ++ quoted "/tmp/preview_foo.exr.png".
Proof. reflexivity. Qed.

Lemma tonemap_flag_by_view_witness :
  adjustExposureCmd "a.exr" "/tmp/preview_a.exr.png" 1%Z "sRGB - Display" "No Tonemapping"
  = "oiiotool " ++ quoted "a.exr" ++ " --mulc 2 --colorconvert lin_rec709 sRGB -o "
    ++ quoted "/tmp/preview_a.exr.png"
  /\ Str.includes "--colorconvert"
       (adjustExposureCmd "a.exr" "/tmp/preview_a.exr.png" 1%Z "sRGB - Display" "Raw")
     = false.
Proof.
  split.
  - apply (proj1 (tonemap_flag_by_view (JS := wholeNumbers) "a.exr"
                    "/tmp/preview_a.exr.png" 1%Z "sRGB - Display" "No Tonemapping")).
    reflexivity.
  - apply (proj2 (tonemap_flag_by_view (JS := wholeNumbers) "a.exr"
                    "/tmp/preview_a.exr.png" 1%Z "sRGB - Display" "Raw"));
      [discriminate | reflexivity ..].
Defined.

(* ================================================================== *)
(** * Properties of the colour-config discovery *)

Lemma strip_app (lit r : string) : Str.strip lit (lit ++ r) = Some r.
Proof.
  induction lit as [|a lit IH]; [reflexivity|].
  simpl. now rewrite Ascii.eqb_refl.
Qed.

Lemma strip_inv (lit s r : string) : Str.strip lit s = Some r -> s = lit ++ r.
Proof.
  revert s; induction lit as [|a lit IH]; intros s H.
  - now injection H as ->.
  - destruct s as [|b s]; [discriminate|]. simpl in H.
    destruct (Ascii.eqb_spec a b) as [->|]; [|discriminate].
    now rewrite (IH _ H).
Qed.

Lemma strip_prefix (lit s : string) :
  prefix lit s = false -> Str.strip lit s = None.
Proof.
  intros H. destruct (Str.strip lit s) eqn:E; [|reflexivity].
  apply strip_inv in E as ->. now rewrite prefix_app in H.
Qed.

Lemma cut_none (sep s : string) :
  Str.includes sep s = false -> Str.cut sep s = None.
Proof.
  induction s as [|c s IH]; intros H.
  - change (prefix sep "" || false = false) in H. rewrite orb_false_r in H.
    simpl. now rewrite strip_prefix.
  - rewrite includes_cons in H. apply orb_false_iff in H as [Hp Hs].
    simpl Str.cut. rewrite strip_prefix by exact Hp.
    fold (Str.cut sep s). now rewrite IH.
Qed.

Lemma split_none (sep s : string) :
  Str.cut sep s = None -> Str.split sep s = [s].
Proof.
  intros H. unfold Str.split. destruct (length s); simpl; [reflexivity|].
  now rewrite H.
Qed.

(** Without the heading there is no display section, and the catalog is
    empty. *)
Lemma parse_without_heading (output : string) :
  Str.includes "Known displays:" output = false ->
  parseColorConfigInfo output = nil.
Proof.
  intros H. unfold parseColorConfigInfo, displaySectionOf.
  rewrite split_none by (apply cut_none; exact H). reflexivity.
Qed.

Lemma nameOr_nonempty (n : option string) (fallback : string) :
  fallback <> "" -> nameOr n fallback <> "".
Proof.
  intros Hf. unfold nameOr. destruct n as [s|]; [|exact Hf].
  destruct s; [exact Hf | discriminate].
Qed.

(** C4, as stated, fails: when the query runs but its output has no
    [Known displays:] block, the catalog is empty. *)
Lemma no_displays_block_gives_empty_catalog :
  ~ (forall (runCommand : string -> Proc string) (log : Log),
        exists catalog,
          fst (getColorConfigInfo runCommand log) = Resolved catalog
          /\ selectable catalog).
Proof.
  intros H.
  destruct (H (fun _ => ret "OpenImageIO built without OpenColorIO") nil)
    as (catalog & Hc & d & Hin & _).
  vm_compute in Hc. injection Hc as <-. destruct Hin.
Qed.

(** C4, amended.  [getColorConfigInfo] never rejects.  When the query
    cannot be run it resolves to the fallback catalog, a single default
    display with a single default view.  When the query returns text it
    resolves to what [parseColorConfigInfo] reads from it, which is the
    empty catalog when the text has no [Known displays:] block.  Whatever
    the catalog, the preview request names a display and a view: the
    callers put [sRGB - Display] and [ACES 1.0 - SDR Video] where the
    catalog has none. *)
Theorem color_config_discovery_outcomes :
  forall (runCommand : string -> Proc string) (log : Log),
    (exists catalog, fst (getColorConfigInfo runCommand log) = Resolved catalog)
    /\ (forall e log',
          runCommand "oiiotool --colorconfiginfo" log = (Rejected e, log') ->
          getColorConfigInfo runCommand log = (Resolved fallbackDisplays, log'))
    /\ (forall output log',
          runCommand "oiiotool --colorconfiginfo" log = (Resolved output, log') ->
          getColorConfigInfo runCommand log
          = (Resolved (parseColorConfigInfo output), log')
          /\ (Str.includes "Known displays:" output = false ->
              parseColorConfigInfo output = nil))
    /\ (exists d v, fallbackDisplays = [d] /\ views d = [v]
                    /\ isDefault d = true /\ View.isDefault v = true)
    /\ (forall catalog, defaultDisplayName catalog <> ""
                        /\ defaultViewName catalog <> "").
Proof.
  intros runCommand log. repeat split.
  - unfold getColorConfigInfo, try_catch, bind, ret.
    destruct (runCommand _ log) as [[output|e] log']; now eexists.
  - intros e log' H. unfold getColorConfigInfo, try_catch, bind, ret. now rewrite H.
  - unfold getColorConfigInfo, try_catch, bind, ret. now rewrite H.
  - apply parse_without_heading.
  - do 2 eexists. repeat split.
  - apply nameOr_nonempty. discriminate.
  - apply nameOr_nonempty. discriminate.
Qed.

Lemma color_config_discovery_outcomes_witness :
  getColorConfigInfo (fun _ => throw (ExecError "oiiotool: command not found")) nil
  = (Resolved fallbackDisplays, nil)
  /\ getColorConfigInfo (fun _ => ret "OpenImageIO built without OpenColorIO") nil
     = (Resolved nil, nil).
Proof.
  split.
  - apply (proj1 (proj2 (color_config_discovery_outcomes
             (fun _ => throw (ExecError "oiiotool: command not found")) nil))
             (ExecError "oiiotool: command not found") nil).
    reflexivity.
  - destruct (proj1 (proj2 (proj2 (color_config_discovery_outcomes
                (fun _ => ret "OpenImageIO built without OpenColorIO") nil)))
                "OpenImageIO built without OpenColorIO" nil eq_refl) as [H1 H2].
    rewrite H1, H2; reflexivity.
Defined.

(** A separator whose first character does not occur in [a] is found in
    [a ++ b] where it is found in [b]. *)
Lemma cut_skip_foreign (k : ascii) (sep a b : string) :
  Str.mem k a = false ->
  Str.cut (String k sep) (a ++ b)
  = match Str.cut (String k sep) b with
    | Some (x, y) => Some (a ++ x, y)
    | None => None
    end.
Proof.
  intros Hk. induction a as [|c a IH].
  - change ("" ++ b) with b. now destruct (Str.cut (String k sep) b) as [[x y]|].
  - simpl in Hk. apply orb_false_iff in Hk as [Hkc Hka].
    change (String c a ++ b) with (String c (a ++ b)).
    simpl Str.cut. rewrite Hkc. fold (Str.cut (String k sep) (a ++ b)).
    rewrite (IH Hka). now destruct (Str.cut (String k sep) b) as [[x y]|].
Qed.

Lemma cut_here (sep r : string) : Str.cut sep (sep ++ r) = Some ("", r).
Proof.
  destruct (sep ++ r) eqn:E; simpl; rewrite <- E, strip_app; reflexivity.
Qed.

Lemma decimal_no_char (c : ascii) (n : Z) :
  isDecimalChar c = false -> Str.mem c (decimal n) = false.
Proof. intros H. apply (all_mem isDecimalChar); [apply decimal_chars | exact H]. Qed.

(* ================================================================== *)
(** * Properties of the selector buttons *)

Arguments decimal : simpl never.

Ltac norm_app :=
  unfold quoted; repeat (cbn [append]; rewrite ?append_assoc); cbn [append].

Lemma cut_at_char (c : ascii) (a b : string) :
  Str.mem c a = false ->
  Str.cut (String c "") (a ++ String c b) = Some (a, b).
Proof.
  intros H. rewrite cut_skip_foreign by exact H.
  simpl. rewrite Ascii.eqb_refl. now rewrite append_nil_r.
Qed.

Lemma attribute_data_value (id : string) (selected : Z) (i : nat) :
  attribute "data-value" (button id selected i) = Some (decimal (Z.of_nat i)).
Proof.
  unfold attribute, button. norm_app. simpl Str.cut. cbv iota beta.
  rewrite cut_at_char by (apply decimal_no_char; reflexivity).
  reflexivity.
Qed.

Lemma attribute_class (id : string) (selected : Z) (i : nat) :
  attribute "class" (button id selected i)
  = Some (if (Z.of_nat i =? selected)%Z then "preview-btn selected" else "preview-btn").
Proof.
  unfold attribute, button.
  destruct (Z.of_nat i =? selected)%Z; norm_app; simpl Str.cut;
    rewrite cut_skip_foreign by (apply decimal_no_char; reflexivity);
    simpl Str.cut; reflexivity.
Qed.

Lemma hasClass_selected (id : string) (selected : Z) (i : nat) :
  hasClass "selected" (button id selected i) = (Z.of_nat i =? selected)%Z.
Proof.
  unfold hasClass. rewrite attribute_class.
  now destruct (Z.of_nat i =? selected)%Z.
Qed.

(** How many indices below [n], counted from [from], equal [selected]. *)
Lemma count_selected (selected : Z) (n from : nat) :
  List.length (filter (fun i => (Z.of_nat i =? selected)%Z) (seq from n))
  = if ((Z.of_nat from <=? selected) && (selected <? Z.of_nat (from + n)))%Z
    then 1 else 0.
Proof.
  revert from; induction n as [|n IH]; intros from.
  - simpl. rewrite Nat.add_0_r.
    destruct (Z.leb_spec (Z.of_nat from) selected);
      destruct (Z.ltb_spec selected (Z.of_nat from)); simpl; lia.
  - simpl seq. simpl filter. rewrite <- Nat.add_succ_comm.
    destruct (Z.eqb_spec (Z.of_nat from) selected) as [E|E]; simpl List.length;
      rewrite IH;
      destruct (Z.leb_spec (Z.of_nat (S from)) selected);
      destruct (Z.leb_spec (Z.of_nat from) selected);
      destruct (Z.ltb_spec selected (Z.of_nat (S from + n))); simpl; lia.
Qed.

(** C10.  For a count of at least zero the markup is the opening tag,
    [count] buttons and the closing tag; the data-value attributes of
    the buttons are 0, 1, ..., count-1 in this order; a button has the
    class [selected] exactly when its index is [selected]; so one button
    is marked when 0 <= selected < count and none otherwise. *)
Theorem button_group_marks_selected_index :
  forall (id : string) (count selected : Z),
    (0 <= count)%Z ->
    let group := buttons id count selected in
    renderButtonGroup id count selected
    = "<div id=" ++ quoted (id ++ "-group") ++ " style="
      ++ quoted "margin: 4px 0; display: flex; flex-wrap: wrap; gap: 4px;" ++ ">"
      ++ String lf "            " ++ Str.join group ++ String lf "        </div>"
    /\ Z.of_nat (List.length group) = count
    /\ map (attribute "data-value") group
       = map (fun i => Some (decimal (Z.of_nat i))) (seq 0 (Z.to_nat count))
    /\ (forall i b, nth_error group i = Some b ->
          hasClass "selected" b = (Z.of_nat i =? selected)%Z)
    /\ List.length (filter (hasClass "selected") group)
       = if ((0 <=? selected) && (selected <? count))%Z then 1 else 0.
Proof.
  intros id count selected Hcount group. subst group. unfold buttons.
  repeat split.
  - rewrite List.length_map, List.length_seq. lia.
  - rewrite map_map. apply map_ext. intros i. apply attribute_data_value.
  - intros i b Hb. rewrite nth_error_map in Hb.
    destruct (nth_error (seq 0 (Z.to_nat count)) i) as [j|] eqn:Ej; [|discriminate].
    injection Hb as <-.
    assert (Hi : i < List.length (seq 0 (Z.to_nat count)))
      by (apply nth_error_Some; congruence).
    rewrite length_seq in Hi.
    rewrite (nth_error_nth' _ 0) in Ej by (rewrite length_seq; exact Hi).
    rewrite seq_nth in Ej by exact Hi. injection Ej as <-.
    apply hasClass_selected.
  - rewrite <- (List.length_map (fun b => b) (filter _ _)).
    transitivity (List.length (filter (fun i => (Z.of_nat i =? selected)%Z)
                            (seq 0 (Z.to_nat count)))).
    + rewrite map_id. clear Hcount. induction (seq 0 (Z.to_nat count)) as [|i l IH];
        [reflexivity|].
      simpl. rewrite hasClass_selected.
      destruct (Z.of_nat i =? selected)%Z; simpl; now rewrite IH.
    + rewrite count_selected. simpl Z.of_nat at 1.
      rewrite Nat.add_0_l, Z2Nat.id by exact Hcount. reflexivity.
Qed.

Lemma button_group_marks_selected_index_witness :
  map (attribute "data-value") (buttons "face" 6 3)
  = [Some "0"; Some "1"; Some "2"; Some "3"; Some "4"; Some "5"]
  /\ List.length (filter (hasClass "selected") (buttons "face" 6 3)) = 1
  /\ List.length (filter (hasClass "selected") (buttons "face" 6 6)) = 0.
Proof.
  destruct (button_group_marks_selected_index "face" 6 3) as (_ & _ & Hv & _ & Hs);
    [lia|].
  destruct (button_group_marks_selected_index "face" 6 6) as (_ & _ & _ & _ & Hn);
    [lia|].
  split; [exact Hv|]. split; [exact Hs | exact Hn].
Defined.

(* ================================================================== *)
(** * Reading a well-formed block back *)

(** ** Cutting a text at a heading *)

Lemma cut_skip (sep a b : string) :
  startsWithin sep a b = false ->
  Str.cut sep (a ++ b)
  = match Str.cut sep b with
    | Some (x, y) => Some (a ++ x, y)
    | None => None
    end.
Proof.
  induction a as [|c a IH]; intros H.
  - change ("" ++ b) with b. now destruct (Str.cut sep b) as [[x y]|].
  - simpl in H. apply orb_false_iff in H as [Hp Hs].
    change (String c a ++ b) with (String c (a ++ b)).
    simpl Str.cut. rewrite strip_prefix by exact Hp.
    fold (Str.cut sep (a ++ b)). rewrite (IH Hs).
    now destruct (Str.cut sep b) as [[x y]|].
Qed.

Lemma startsWithin_foreign (k : ascii) (sep a b : string) :
  Str.mem k a = false -> startsWithin (String k sep) a b = false.
Proof.
  induction a as [|c a IH]; intros H; [reflexivity|].
  simpl in H. apply orb_false_iff in H as [Hkc Hka].
  change (startsWithin (String k sep) (String c a) b)
    with (prefix (String k sep) (String c (a ++ b)) || startsWithin (String k sep) a b).
  rewrite prefix_cons, Hkc, (IH Hka). reflexivity.
Qed.

(** No occurrence of [sep] starts in [a] when [a] holds none and the
    character after [a] occurs nowhere in [sep] past its first
    character. *)
Lemma startsWithin_clean (sep a b : string) (c : ascii) :
  Str.includes sep a = false -> Str.mem c (Str.tail sep) = false ->
  startsWithin sep a (String c b) = false.
Proof.
  intros Ha Hc. induction a as [|x a IH]; [reflexivity|].
  rewrite includes_cons in Ha. apply orb_false_iff in Ha as [Hp Hs].
  change (startsWithin sep (String x a) (String c b))
    with (prefix sep (String x a ++ String c b) || startsWithin sep a (String c b)).
  rewrite (IH Hs), orb_false_r.
  destruct (prefix sep (String x a ++ String c b)) eqn:E; [|reflexivity].
  apply prefix_app_inv in E as [E | (q & -> & Hq & Hqb)]; [congruence|].
  destruct q as [|y q]; [congruence|].
  rewrite prefix_cons in Hqb. apply andb_true_iff in Hqb as [Hy _].
  apply Ascii.eqb_eq in Hy as ->.
  change (Str.tail (String x a ++ String c q)) with (a ++ String c q) in Hc.
  rewrite mem_app in Hc. simpl in Hc. rewrite Ascii.eqb_refl in Hc.
  rewrite orb_true_r in Hc. discriminate.
Qed.

Lemma cut_length (sep s a b : string) :
  Str.cut sep s = Some (a, b) ->
  length s = length a + length sep + length b.
Proof.
  revert a; induction s as [|c s IH]; intros a H.
  - simpl in H. destruct (Str.strip sep "") as [r|] eqn:E; [|discriminate].
    injection H as Ha Hb. subst a b. apply strip_inv in E.
    rewrite E at 1. now rewrite length_append.
  - simpl in H. destruct (Str.strip sep (String c s)) as [r|] eqn:E.
    + injection H as Ha Hb. subst a b. apply strip_inv in E.
      rewrite E at 1. now rewrite length_append.
    + fold (Str.cut sep s) in H.
      destruct (Str.cut sep s) as [[x y]|]; [|discriminate].
      injection H as Ha Hb. subst a b. simpl. now rewrite (IH x eq_refl).
Qed.

Lemma cut_empty (sep : string) : sep <> "" -> Str.cut sep "" = None.
Proof. destruct sep; [congruence | reflexivity]. Qed.

Lemma split_fuel_head (fuel : nat) (sep s : string) :
  fuel <> 0 \/ Str.cut sep s = None ->
  nth_error (Str.split_fuel fuel sep s) 0 = Some (before sep s).
Proof.
  unfold before. intros H. destruct fuel as [|fuel].
  - destruct H as [H|H]; [congruence|]. now rewrite H.
  - simpl. now destruct (Str.cut sep s) as [[a b]|].
Qed.

Lemma split_first (sep s : string) :
  sep <> "" -> nth_error (Str.split sep s) 0 = Some (before sep s).
Proof.
  intros Hsep. apply split_fuel_head.
  destruct s; [right; now apply cut_empty | left; discriminate].
Qed.

Lemma split_second (sep s a b : string) :
  sep <> "" -> Str.cut sep s = Some (a, b) ->
  nth_error (Str.split sep s) 1 = Some (before sep b).
Proof.
  intros Hsep Hcut. pose proof (cut_length _ _ _ _ Hcut) as Hlen.
  assert (Hs : length sep <> 0) by (destruct sep; [congruence | discriminate]).
  unfold Str.split. destruct (length s) as [|n] eqn:En; [lia|].
  simpl. rewrite Hcut. simpl. apply split_fuel_head.
  destruct n; [right | left; discriminate].
  assert (Hb : length b = 0) by lia.
  destruct b; [now apply cut_empty | discriminate].
Qed.

(** The display section of a text whose block is delimited by the two
    headings. *)
Lemma displaySection_delimited (pre body post : string) :
  Str.includes headingDisplays pre = false ->
  Str.includes headingDisplays body = false ->
  Str.includes headingTransforms body = false ->
  displaySectionOf (pre ++ headingDisplays ++ body ++ headingTransforms ++ post)
  = Some body.
Proof.
  intros Hpre Hbody1 Hbody2. unfold displaySectionOf.
  fold headingDisplays headingTransforms.
  assert (Hcut : Str.cut headingDisplays
                   (pre ++ headingDisplays ++ body ++ headingTransforms ++ post)
                 = Some (pre, body ++ headingTransforms ++ post)).
  { rewrite cut_skip by (apply startsWithin_clean; [exact Hpre | reflexivity]).
    rewrite cut_here. now rewrite append_nil_r. }
  assert (Hd : headingDisplays <> "") by discriminate.
  assert (Ht : headingTransforms <> "") by discriminate.
  rewrite (split_second _ _ _ _ Hd Hcut).
  rewrite split_first by exact Ht. f_equal.
  assert (Hb : exists x, before headingDisplays (body ++ headingTransforms ++ post)
                         = body ++ headingTransforms ++ x).
  { unfold before.
    rewrite cut_skip by (apply startsWithin_clean; [exact Hbody1 | reflexivity]).
    rewrite cut_skip by (apply startsWithin_foreign; reflexivity).
    destruct (Str.cut headingDisplays post) as [[x y]|]; eexists; reflexivity. }
  destruct Hb as [x ->]. unfold before.
  rewrite cut_skip by (apply startsWithin_clean; [exact Hbody2 | reflexivity]).
  rewrite cut_here. now rewrite append_nil_r.
Qed.

(** ** The scanners on rendered text *)

Arguments quoted : simpl never.

Lemma span_run (p : ascii -> bool) (run rest : string) :
  Str.all p run = true -> startsOutside p rest = true ->
  Str.span p (run ++ rest) = (run, rest).
Proof.
  intros Hrun Hrest. induction run as [|c run IH].
  - destruct rest as [|c rest]; [reflexivity|].
    simpl in *. apply negb_true_iff in Hrest. now rewrite Hrest.
  - simpl in Hrun. apply andb_true_iff in Hrun as [Hc Hrun].
    change (String c run ++ rest) with (String c (run ++ rest)).
    simpl. now rewrite Hc, (IH Hrun).
Qed.

Lemma isEmpty_false (s : string) : negb (isEmpty s) = true -> isEmpty s = false.
Proof. now destruct s. Qed.

Lemma matchQuoted_quoted (n rest : string) :
  negb (isEmpty n) = true -> Str.all notQuote n = true ->
  matchQuoted (quoted n ++ rest) = Some (n, rest).
Proof.
  intros Hne Hq. unfold matchQuoted, quoted.
  change (String dq (n ++ String dq "") ++ rest)
    with (String dq "" ++ ((n ++ String dq "") ++ rest)).
  rewrite strip_app, append_assoc.
  rewrite span_run by (try exact Hq; reflexivity).
  rewrite (isEmpty_false _ Hne).
  reflexivity.
Qed.

Lemma strip_cons (a b : ascii) (lit s : string) :
  Str.strip (String a lit) (String b s)
  = if Ascii.eqb a b then Str.strip lit s else None.
Proof. reflexivity. Qed.

(** A text whose first character is not a double quote starts no
    match of the view expression. *)
Lemma matchView_not_here (c : ascii) (s : string) :
  notQuote c = true -> matchView (String c s) = None.
Proof.
  intros H. unfold matchView, matchQuoted. rewrite strip_cons.
  unfold notQuote in H. apply negb_true_iff in H.
  rewrite Ascii.eqb_sym in H. now rewrite H.
Qed.

Lemma matchAllViews_skip (g s : string) (fuel : nat) :
  Str.all notQuote g = true ->
  matchAllViews (length g + fuel) (g ++ s) = matchAllViews fuel s.
Proof.
  intros Hg. induction g as [|c g IH]; [reflexivity|].
  simpl in Hg. apply andb_true_iff in Hg as [Hc Hg].
  change (String c g ++ s) with (String c (g ++ s)).
  change (length (String c g) + fuel) with (S (length g + fuel)).
  cbn [matchAllViews]. rewrite (matchView_not_here _ _ Hc).
  exact (IH Hg).
Qed.

Lemma matchAllViews_none (g : string) (fuel : nat) :
  Str.all notQuote g = true -> matchAllViews fuel g = nil.
Proof.
  revert g; induction fuel as [|fuel IH]; intros g Hg; [reflexivity|].
  destruct g as [|c g]; [reflexivity|].
  simpl in Hg. apply andb_true_iff in Hg as [Hc Hg].
  cbn [matchAllViews]. rewrite (matchView_not_here _ _ Hc).
  exact (IH _ Hg).
Qed.

(** The view expression on a quoted entry: the match is the entry. *)
Lemma matchView_entry (n : string) (m : bool) (rest : string) :
  negb (isEmpty n) = true -> Str.all notQuote n = true ->
  Str.strip " (*)" rest = None ->
  matchView (renderEntry (QuotedView n m) ++ rest)
  = Some (renderEntry (QuotedView n m), rest).
Proof.
  intros Hne Hq Hrest. unfold matchView. cbn [renderEntry].
  rewrite append_assoc, (matchQuoted_quoted _ _ Hne Hq).
  unfold optionalMarker. destruct m.
  - now rewrite strip_app.
  - change ("" ++ rest) with rest. rewrite Hrest. now rewrite append_nil_r.
Qed.

Lemma viewOfMatch_entry (n : string) (m : bool) :
  negb (isEmpty n) = true -> Str.all notQuote n = true ->
  viewOfMatch (renderEntry (QuotedView n m))
  = {| View.name := n; View.isDefault := carriesMarker (QuotedView n m) |}.
Proof.
  intros Hne Hq. unfold viewOfMatch, carriesMarker. f_equal.
  cbn [renderEntry].
  assert (H : matchQuoted (quoted n ++ (if m then " (*)" else ""))
              = Some (n, if m then " (*)" else ""))
    by now apply matchQuoted_quoted.
  unfold quoted in *.
  change (String dq (n ++ String dq "") ++ (if m then " (*)" else ""))
    with (String dq ((n ++ String dq "") ++ (if m then " (*)" else ""))) in *.
  cbn [firstQuoted]. now rewrite H.
Qed.

Lemma commaSeparated_cons (x : string) (rest : list string) :
  commaSeparated (x :: rest) = x ++ comma rest ++ commaSeparated rest.
Proof.
  destruct rest as [|y rest]; [|reflexivity].
  simpl. now rewrite append_nil_r.
Qed.

Lemma comma_no_quote (rest : list string) : Str.all notQuote (comma rest) = true.
Proof. now destruct rest. Qed.

Lemma comma_no_marker (rest : list string) :
  Str.strip " (*)" (comma rest ++ commaSeparated rest) = None.
Proof. now destruct rest. Qed.

Lemma renderEntry_length (n : string) (m : bool) :
  2 <= length (renderEntry (QuotedView n m)).
Proof.
  cbn [renderEntry]. unfold quoted. rewrite length_append. simpl.
  rewrite length_append. simpl. lia.
Qed.

Lemma matchAllViews_line (es : list ViewEntry) :
  forallb wfEntry es = true ->
  forall (g : string) (fuel : nat),
    Str.all notQuote g = true ->
    length (g ++ commaSeparated (map renderEntry es)) < fuel ->
    matchAllViews fuel (g ++ commaSeparated (map renderEntry es)) = quotedTexts es.
Proof.
  induction es as [|e es IH]; intros Hwf g fuel Hg Hfuel.
  - apply matchAllViews_none. simpl. now rewrite append_nil_r.
  - simpl in Hwf. apply andb_true_iff in Hwf as [He Hes].
    cbn [map] in *. rewrite commaSeparated_cons in *.
    destruct e as [n m | t].
    + simpl in He. apply andb_true_iff in He as [He _].
      apply andb_true_iff in He as [Hne Hq].
      rewrite length_append in Hfuel.
      replace fuel with (length g + S (fuel - length g - 1)) by lia.
      rewrite matchAllViews_skip by exact Hg.
      cbn [matchAllViews].
      rewrite matchView_entry by (try assumption; apply comma_no_marker).
      unfold quotedTexts. cbn [filter isQuotedView map]. f_equal.
      apply (IH Hes).
      * apply comma_no_quote.
      * rewrite length_append in *.
        pose proof (renderEntry_length n m). rewrite length_append in *. lia.
    + simpl in He. apply andb_true_iff in He as [Hq _].
      unfold quotedTexts. cbn [filter isQuotedView renderEntry].
      cbn [renderEntry] in Hfuel.
      rewrite <- !append_assoc. rewrite <- !append_assoc in Hfuel.
      apply (IH Hes).
      * rewrite !all_app, Hg, Hq. apply comma_no_quote.
      * exact Hfuel.
Qed.

Lemma viewOfMatch_texts (es : list ViewEntry) :
  forallb wfEntry es = true ->
  map viewOfMatch (quotedTexts es) = viewsOf es.
Proof.
  induction es as [|e es IH]; intros Hwf; [reflexivity|].
  simpl in Hwf. apply andb_true_iff in Hwf as [He Hes].
  unfold quotedTexts in *. destruct e as [n m | t].
  - simpl in He. apply andb_true_iff in He as [He _].
    apply andb_true_iff in He as [Hne Hq].
    cbn [filter isQuotedView map viewsOf].
    rewrite viewOfMatch_entry by assumption. now rewrite (IH Hes).
  - cbn [filter isQuotedView viewsOf]. exact (IH Hes).
Qed.

Lemma parseViews_line (es : list ViewEntry) :
  forallb wfEntry es = true ->
  parseViews (commaSeparated (map renderEntry es)) = viewsOf es.
Proof.
  intros Hwf. unfold parseViews.
  rewrite <- (viewOfMatch_texts _ Hwf). f_equal.
  apply (matchAllViews_line es Hwf ""); [reflexivity | simpl; lia].
Qed.

Lemma entries_on_one_line (es : list ViewEntry) :
  forallb wfEntry es = true ->
  Str.all notLineTerminator (commaSeparated (map renderEntry es)) = true.
Proof.
  induction es as [|e es IH]; intros Hwf; [reflexivity|].
  simpl in Hwf. apply andb_true_iff in Hwf as [He Hes].
  cbn [map]. rewrite commaSeparated_cons, !all_app, (IH Hes), andb_true_r.
  apply andb_true_iff. split; [|now destruct (map renderEntry es)].
  destruct e as [n m | t]; simpl in He.
  - apply andb_true_iff in He as [_ Hl]. cbn [renderEntry]. unfold quoted.
    change (String dq (n ++ String dq "")) with (String dq "" ++ n ++ String dq "").
    rewrite !all_app, Hl. now destruct m.
  - now apply andb_true_iff in He as [_ Hl].
Qed.

Lemma renderDisplay_text (d : DisplayLines) (rest : string) :
  renderDisplay d ++ rest
  = lead d ++ displayText (displayName d) (displayMarked d) (indentation d)
                (viewsLineOf d) rest.
Proof.
  unfold renderDisplay, displayText, markerText, quoted.
  repeat (cbn [append]; rewrite ?append_assoc). reflexivity.
Qed.

Lemma matchDisplay_text (n : string) (m : bool) (ind line rest : string) :
  negb (isEmpty n) = true -> Str.all notQuote n = true ->
  negb (isEmpty ind) = true -> Str.all isSpace ind = true ->
  negb (isEmpty line) = true -> Str.all notLineTerminator line = true ->
  matchDisplay (displayText n m ind line rest) = Some (n, m, line, String lf rest).
Proof.
  intros Hn Hnq Hi His Hl Hlt. unfold matchDisplay, displayText.
  rewrite strip_app.
  rewrite span_run by (try exact Hnq; reflexivity).
  rewrite (isEmpty_false _ Hn), strip_app.
  assert (Hm : optionalMarker (markerText m ++ String lf "" ++ ind ++ "views: "
                               ++ line ++ String lf rest)
               = (m, String lf "" ++ ind ++ "views: " ++ line ++ String lf rest)).
  { unfold optionalMarker, markerText. destruct m; [now rewrite strip_app | reflexivity]. }
  rewrite Hm, strip_app.
  rewrite span_run by (try exact His; reflexivity).
  rewrite (isEmpty_false _ Hi), strip_app.
  rewrite span_run by (try exact Hlt; reflexivity).
  now rewrite (isEmpty_false _ Hl).
Qed.

(** No match of the display expression starts where the dash, the space
    and the double quote are not all three there. *)
Lemma matchDisplay_needs_start (s : string) :
  Str.strip ("- " ++ String dq "") s = None -> matchDisplay s = None.
Proof. intros H. unfold matchDisplay. now rewrite H. Qed.

Lemma notQuote_eqb (c : ascii) : notQuote c = true -> Ascii.eqb dq c = false.
Proof.
  unfold notQuote. intros H. apply negb_true_iff in H.
  now rewrite Ascii.eqb_sym.
Qed.

Lemma no_start_in_gap (g : string) :
  Str.all notQuote g = true -> Str.strip ("- " ++ String dq "") g = None.
Proof.
  intros Hg. destruct g as [|c1 [|c2 [|c3 g]]]; cbn [append]; rewrite ?strip_cons.
  - reflexivity.
  - now destruct (Ascii.eqb "-" c1).
  - now destruct (Ascii.eqb "-" c1), (Ascii.eqb " " c2).
  - simpl in Hg. apply andb_true_iff in Hg as [_ Hg].
    apply andb_true_iff in Hg as [_ Hg]. apply andb_true_iff in Hg as [H3 _].
    rewrite (notQuote_eqb _ H3).
    now destruct (Ascii.eqb "-" c1), (Ascii.eqb " " c2).
Qed.

Lemma no_start_before_dash (g s : string) :
  Str.all notQuote g = true -> g <> "" ->
  Str.strip ("- " ++ String dq "") (g ++ ("- " ++ String dq "") ++ s) = None.
Proof.
  intros Hg Hne. destruct g as [|c1 [|c2 [|c3 g]]]; [congruence| | |];
    cbn [append]; rewrite ?strip_cons.
  - destruct (Ascii.eqb "-" c1); reflexivity.
  - destruct (Ascii.eqb "-" c1), (Ascii.eqb " " c2); reflexivity.
  - simpl in Hg. apply andb_true_iff in Hg as [_ Hg].
    apply andb_true_iff in Hg as [_ Hg]. apply andb_true_iff in Hg as [H3 _].
    rewrite (notQuote_eqb _ H3).
    now destruct (Ascii.eqb "-" c1), (Ascii.eqb " " c2).
Qed.

Lemma execDisplays_none (g : string) (fuel : nat) :
  Str.all notQuote g = true -> execDisplays fuel g = nil.
Proof.
  revert g; induction fuel as [|fuel IH]; intros g Hg; [reflexivity|].
  cbn [execDisplays].
  rewrite matchDisplay_needs_start by (apply no_start_in_gap; exact Hg).
  destruct g as [|c g]; [reflexivity|].
  simpl in Hg. apply andb_true_iff in Hg as [_ Hg]. exact (IH _ Hg).
Qed.

Lemma execDisplays_skip (g s : string) (fuel : nat) :
  Str.all notQuote g = true ->
  execDisplays (length g + fuel) (g ++ ("- " ++ String dq "") ++ s)
  = execDisplays fuel (("- " ++ String dq "") ++ s).
Proof.
  intros Hg. induction g as [|c g IH]; [reflexivity|].
  change (length (String c g) + fuel) with (S (length g + fuel)).
  cbn [execDisplays].
  rewrite matchDisplay_needs_start
    by (apply no_start_before_dash; [exact Hg | discriminate]).
  change (String c g ++ ("- " ++ String dq "") ++ s)
    with (String c (g ++ ("- " ++ String dq "") ++ s)).
  cbn iota. simpl in Hg. apply andb_true_iff in Hg as [_ Hg]. exact (IH Hg).
Qed.

Lemma displayText_length (n : string) (m : bool) (ind line rest : string) :
  length (displayText n m ind line rest) > 1 + length rest.
Proof.
  unfold displayText. rewrite !length_append. simpl. lia.
Qed.

Lemma execDisplays_block (ds : list DisplayLines) (trail : string) :
  forallb wfDisplay ds = true -> Str.all notQuote trail = true ->
  forall (g : string) (fuel : nat),
    Str.all notQuote g = true ->
    length (g ++ renderBlock ds trail) < fuel ->
    execDisplays fuel (g ++ renderBlock ds trail) = map displayOf ds.
Proof.
  intros Hwf Htrail. induction ds as [|d ds IH]; intros g fuel Hg Hfuel.
  - apply execDisplays_none. simpl. now rewrite all_app, Hg, Htrail.
  - simpl in Hwf. apply andb_true_iff in Hwf as [Hd Hds].
    unfold wfDisplay in Hd.
    repeat match type of Hd with
           | _ && _ = true => let H := fresh "H" in apply andb_true_iff in Hd as [Hd H]
           end.
    cbn [renderBlock map] in *. rewrite renderDisplay_text in *.
    rewrite <- append_assoc in *.
    rewrite length_append in Hfuel.
    pose proof (displayText_length (displayName d) (displayMarked d) (indentation d)
                  (viewsLineOf d) (renderBlock ds trail)) as Hlen.
    replace fuel with (length (g ++ lead d) + S (fuel - length (g ++ lead d) - 1))
      by lia.
    unfold displayText at 1.
    rewrite execDisplays_skip by (rewrite all_app, Hg; exact Hd).
    fold (displayText (displayName d) (displayMarked d) (indentation d)
            (viewsLineOf d) (renderBlock ds trail)).
    cbn [execDisplays].
    rewrite matchDisplay_text by (try assumption; now apply entries_on_one_line).
    unfold viewsLineOf at 1. rewrite parseViews_line by assumption.
    unfold displayOf at 2. f_equal.
    change (String lf (renderBlock ds trail))
      with (String lf "" ++ renderBlock ds trail).
    apply (IH Hds); [reflexivity|].
    rewrite length_append. simpl. lia.
Qed.

Lemma isEmpty_app (a b : string) : isEmpty (a ++ b) = isEmpty a && isEmpty b.
Proof. now destruct a. Qed.

(** Reading a rendered block back gives the displays it was rendered
    from, with their quoted views. *)
Theorem parse_rendered_block (pre post trail : string) (ds : list DisplayLines) :
  let body := renderBlock ds trail in
  Str.includes headingDisplays pre = false ->
  Str.includes headingDisplays body = false ->
  Str.includes headingTransforms body = false ->
  forallb wfDisplay ds = true -> Str.all notQuote trail = true ->
  parseColorConfigInfo (pre ++ headingDisplays ++ body ++ headingTransforms ++ post)
  = map displayOf ds.
Proof.
  intros body Hpre Hb1 Hb2 Hwf Htrail. unfold parseColorConfigInfo.
  rewrite displaySection_delimited by assumption.
  destruct (isEmpty body) eqn:E.
  - destruct ds as [|d ds]; [reflexivity|].
    subst body. cbn [renderBlock] in E. rewrite renderDisplay_text in E.
    rewrite isEmpty_app in E. unfold displayText in E.
    rewrite andb_false_r in E. discriminate.
  - apply (execDisplays_block ds trail Hwf Htrail ""); [reflexivity|].
    subst body. change ("" ++ renderBlock ds trail) with (renderBlock ds trail). lia.
Qed.

Lemma default_displays_count (ds : list DisplayLines) :
  List.length (filter isDefault (map displayOf ds))
  = List.length (filter displayMarked ds).
Proof.
  induction ds as [|d ds IH]; [reflexivity|].
  cbn [map filter]. unfold displayOf at 1. cbn [isDefault].
  destruct (displayMarked d); cbn [List.length]; now rewrite IH.
Qed.

Lemma default_views_count (es : list ViewEntry) :
  List.length (filter View.isDefault (viewsOf es))
  = List.length (filter carriesMarker es).
Proof.
  induction es as [|e es IH]; [reflexivity|].
  destruct e as [n m | t]; cbn [viewsOf filter View.isDefault].
  - destruct (carriesMarker (QuotedView n m)); cbn [List.length]; now rewrite IH.
  - cbn [carriesMarker]. exact IH.
Qed.

(** What the parser guarantees.  Take a text in which [Known displays:]
    opens a well-formed block that [Named transforms:] closes.  If
    exactly one display line carries the marker and, on the views line
    of each display, exactly one quoted view holds the marker characters
    in its matched text (after the closing quote or within the name),
    then exactly one display of the parsed catalog is default and,
    within it (as within every display), exactly one view is default. *)
Theorem well_formed_block_has_one_default :
  forall (pre post trail : string) (ds : list DisplayLines),
    let body := renderBlock ds trail in
    Str.includes "Known displays:" pre = false ->
    Str.includes "Known displays:" body = false ->
    Str.includes "Named transforms:" body = false ->
    forallb wfDisplay ds = true ->
    Str.all notQuote trail = true ->
    List.length (filter displayMarked ds) = 1 ->
    (forall d, In d ds -> List.length (filter carriesMarker (entries d)) = 1) ->
    let catalog :=
      parseColorConfigInfo
        (pre ++ "Known displays:" ++ body ++ "Named transforms:" ++ post) in
    List.length (filter isDefault catalog) = 1
    /\ (forall d, In d catalog ->
          List.length (filter View.isDefault (views d)) = 1)
    /\ (exists d, In d catalog /\ isDefault d = true
                  /\ List.length (filter View.isDefault (views d)) = 1).
Proof.
  intros pre post trail ds body Hpre Hb1 Hb2 Hwf Htrail Hone Hviews catalog.
  assert (Hparse : catalog = map displayOf ds)
    by (apply parse_rendered_block; assumption).
  assert (Hall : forall d, In d catalog ->
                   List.length (filter View.isDefault (views d)) = 1).
  { intros d Hd. rewrite Hparse in Hd. apply in_map_iff in Hd as (d0 & <- & Hd0).
    cbn [displayOf views]. rewrite default_views_count. now apply Hviews. }
  assert (Hcount : List.length (filter isDefault catalog) = 1)
    by (rewrite Hparse, default_displays_count; exact Hone).
  split; [exact Hcount|]. split; [exact Hall|].
  destruct (filter isDefault catalog) as [|d l] eqn:E; [discriminate|].
  assert (Hd : In d (filter isDefault catalog)) by (rewrite E; now left).
  apply filter_In in Hd as [Hin Hdef].
  exists d. repeat split; [exact Hin | exact Hdef | now apply Hall].
Qed.

Lemma well_formed_block_has_one_default_witness :
  List.length (filter isDefault (parseColorConfigInfo sampleOutput)) = 1
  /\ (forall d, In d (parseColorConfigInfo sampleOutput) ->
        List.length (filter View.isDefault (views d)) = 1).
Proof.
  destruct (well_formed_block_has_one_default
              ("Color configuration: ocio://default" ++ String lf "Known color spaces: "
                 ++ String lf "    - " ++ quoted "sRGB - Texture" ++ String lf "")
              (String lf "") "" sampleDisplays) as (H1 & H2 & _);
    try reflexivity.
  - intros d [<- | [<- | []]]; reflexivity.
  - split; [exact H1 | exact H2].
Defined.

(** C8.  The block of [markerInName] is well formed, one display line
    carries the marker and one quoted view of that display is marked,
    yet the parsed display has two default views: the display test reads
    the marker group of the match, the view test looks for the marker
    characters anywhere in the matched text, and the name of the second
    view holds them. *)
Theorem marker_in_view_name_reads_as_default :
  forallb wfDisplay markerInName = true
  /\ List.length (filter displayMarked markerInName) = 1
  /\ (forall d, In d markerInName ->
        List.length (filter markedView (entries d)) = 1)
  /\ markerInNameOutput
     = "Known displays:" ++ String lf "    - " ++ quoted "sRGB - Display" ++ " (*)"
       ++ String lf "      views: " ++ quoted "A" ++ " (*), " ++ quoted "B(*)"
       ++ String lf "Named transforms:"
  /\ parseColorConfigInfo markerInNameOutput
     = [ {| name := "sRGB - Display"; isDefault := true;
            views := [ {| View.name := "A"; View.isDefault := true |};
                       {| View.name := "B(*)"; View.isDefault := true |} ] |} ]
  /\ ~ (exists d, In d (parseColorConfigInfo markerInNameOutput)
                  /\ isDefault d = true
                  /\ List.length (filter View.isDefault (views d)) = 1).
Proof.
  assert (Hparse : parseColorConfigInfo markerInNameOutput
                   = [ {| name := "sRGB - Display"; isDefault := true;
                          views := [ {| View.name := "A"; View.isDefault := true |};
                                     {| View.name := "B(*)";
                                        View.isDefault := true |} ] |} ])
    by reflexivity.
  split; [reflexivity|]. split; [reflexivity|].
  split; [intros d [<- | []]; reflexivity|].
  split; [reflexivity|]. split; [exact Hparse|].
  intros (d & Hin & _ & Hone). rewrite Hparse in Hin.
  destruct Hin as [<- | []]. discriminate Hone.
Qed.

(** The view test looks for the marker characters anywhere in the
    matched text: a quoted view whose name spells them counts as carrying
    them, and is read as a default view. *)
Example view_name_spelling_the_marker :
  parseViews (quoted "A" ++ ", " ++ quoted "B(*)")
  = [ {| View.name := "A"; View.isDefault := false |};
      {| View.name := "B(*)"; View.isDefault := true |} ].
Proof. reflexivity. Qed.

(* ================================================================== *)
(** * Further properties of the extraction command *)

Lemma includes_mid (sub a b : string) :
  Str.includes sub ((a ++ sub) ++ b) = true.
Proof. rewrite append_assoc. apply includes_intro. Qed.

Lemma unwords_app (l1 l2 : list string) :
  l1 <> nil -> l2 <> nil ->
  unwords (l1 ++ l2) = unwords l1 ++ " " ++ unwords l2.
Proof.
  intros H1 H2. induction l1 as [|w l1 IH]; [congruence|].
  destruct l1 as [|w' l1].
  - cbn [app]. now rewrite unwords_cons.
  - change ((w :: w' :: l1) ++ l2)%list with (w :: ((w' :: l1) ++ l2))%list.
    rewrite unwords_cons by discriminate. rewrite IH by discriminate.
    rewrite (unwords_cons w (w' :: l1)) by discriminate.
    now rewrite !append_assoc.
Qed.

(** A flag and its argument, standing between other words, occur in the
    command line with the spaces around them. *)
Lemma flag_with_argument (l1 : list string) (flag arg : string) (l2 : list string) :
  l1 <> nil -> l2 <> nil ->
  Str.includes (" " ++ flag ++ " " ++ arg ++ " ")
    (unwords (l1 ++ flag :: arg :: l2)) = true.
Proof.
  intros H1 H2. rewrite unwords_app by (assumption || discriminate).
  rewrite unwords_cons by discriminate. rewrite unwords_cons by exact H2.
  replace (unwords l1 ++ " " ++ flag ++ " " ++ arg ++ " " ++ unwords l2)
    with (unwords l1 ++ (" " ++ flag ++ " " ++ arg ++ " ") ++ unwords l2)
    by (rewrite !append_assoc; reflexivity).
  apply includes_intro.
Qed.

(** X1.  For a header that is not a cubemap the extraction command
    carries no [--face]; it carries [--depth <selection.depth>] when
    pixelDepth > 1 and no [--depth] when pixelDepth is absent or at most
    1. *)
Theorem depth_flag_for_volumes_only :
  forall (ktx2Path previewPath : string) (selection : Selection)
         (info : option Ktx2Info),
    let h := headerOf info in
    let cmd := extractCmd ktx2Path previewPath selection info in
    isCubemap h = false ->
    Str.includes "--face" (extractFlags selection h) = false
    /\ (forall d, pixelDepth h = Some d -> (d > 1)%Z ->
          Str.includes (" --depth " ++ decimal (depth selection) ++ " ") cmd = true)
    /\ ((pixelDepth h = None \/ exists d, pixelDepth h = Some d /\ (d <= 1)%Z) ->
          Str.includes "--depth" (extractFlags selection h) = false).
Proof.
  intros ktx2Path previewPath selection info h cmd Hflat.
  assert (Hwords : forall flag k p,
             Str.includes flag (extractFlags selection h) = true ->
             Str.includes flag (extractCmd k p selection info) = true).
  { intros flag k p H. rewrite extractFlags_prefix. now apply includes_app_l. }
  repeat split.
  - destruct (Str.includes "--face" (extractFlags selection h)) eqn:E; [|reflexivity].
    apply (Hwords _ "" "") in E. rewrite extractCmd_words in E.
    unfold extractWords in E. fold h in E. rewrite Hflat in E.
    destruct (orElse (pixelDepth h) 0 >? 1)%Z, (orElse (layerCount h) 0 >? 1)%Z;
      revert E; flag_search; discriminate.
  - intros d Hd Hgt.
    assert (Hdepth : (orElse (pixelDepth h) 0 >? 1)%Z = true).
    { rewrite Hd. unfold orElse. destruct (Z.eqb_spec d 0); [lia | now apply gtb_true]. }
    subst cmd. rewrite extractCmd_words. unfold extractWords. fold h.
    rewrite Hflat, Hdepth.
    destruct (orElse (layerCount h) 0 >? 1)%Z;
      apply (flag_with_argument
               ["ktx"; "extract"; "--level"; decimal (level selection)]
               "--depth" (decimal (depth selection)));
      discriminate.
  - intros Hd.
    assert (Hdepth : (orElse (pixelDepth h) 0 >? 1)%Z = false).
    { destruct Hd as [-> | (d & -> & Hle)]; [reflexivity|].
      unfold orElse. destruct (Z.eqb_spec d 0); [reflexivity|].
      rewrite Z.gtb_ltb. apply Z.ltb_ge. exact Hle. }
    destruct (Str.includes "--depth" (extractFlags selection h)) eqn:E; [|reflexivity].
    apply (Hwords _ "" "") in E. rewrite extractCmd_words in E.
    unfold extractWords in E. fold h in E. rewrite Hflat, Hdepth in E.
    destruct (orElse (layerCount h) 0 >? 1)%Z; revert E; flag_search; discriminate.
Qed.

Lemma depth_flag_for_volumes_only_witness :
  Str.includes " --depth 5 "
    (extractCmd "vol.ktx2" "/tmp/preview_vol.ktx2.png" slice5 volumeInfo) = true
  /\ Str.includes "--depth"
       (extractFlags layer2 (headerOf arrayInfo)) = false.
Proof.
  split.
  - apply (proj1 (proj2 (depth_flag_for_volumes_only "vol.ktx2"
                           "/tmp/preview_vol.ktx2.png" slice5 volumeInfo eq_refl)) 8%Z);
      [reflexivity | lia].
  - apply (proj2 (proj2 (depth_flag_for_volumes_only "array.ktx2"
                           "/tmp/p.png" layer2 arrayInfo eq_refl))).
    right. exists 0%Z. split; [reflexivity | lia].
Defined.

(** X2.  Whatever the header and the selection, the selector flags start
    with [ktx extract --level <selection.level>] and never hold both
    [--face] and [--depth]. *)
Theorem face_and_depth_never_together :
  forall (selection : Selection) (h : Ktx2Header),
    prefix ("ktx extract --level " ++ decimal (level selection))
      (extractFlags selection h) = true
    /\ (Str.includes "--face" (extractFlags selection h)
        && Str.includes "--depth" (extractFlags selection h)) = false.
Proof.
  intros selection h.
  set (info := Some {| header := Some h; index := None |}).
  assert (Hh : headerOf info = h) by reflexivity.
  split.
  - unfold extractFlags.
    set (c := "ktx extract --level " ++ decimal (level selection)).
    destruct (isCubemap h), (orElse (pixelDepth h) 0 >? 1)%Z,
      (orElse (layerCount h) 0 >? 1)%Z;
      rewrite ?append_assoc;
      first [ apply prefix_app
            | rewrite <- (append_nil_r c) at 2; apply prefix_app ].
  - assert (Hflags : forall flag,
               Str.includes flag (extractFlags selection h)
               = true -> Str.includes flag (extractCmd "" "" selection info) = true).
    { intros flag H. rewrite extractFlags_prefix, Hh. now apply includes_app_l. }
    destruct (isCubemap h) eqn:Hc.
    + destruct (Str.includes "--depth" (extractFlags selection h)) eqn:E;
        [|apply andb_false_r].
      apply Hflags in E. rewrite extractCmd_words in E.
      unfold extractWords in E. rewrite Hh, Hc in E.
      destruct (orElse (layerCount h) 0 >? 1)%Z; revert E; flag_search; discriminate.
    + destruct (Str.includes "--face" (extractFlags selection h)) eqn:E;
        [|reflexivity].
      apply Hflags in E. rewrite extractCmd_words in E.
      unfold extractWords in E. rewrite Hh, Hc in E.
      destruct (orElse (pixelDepth h) 0 >? 1)%Z, (orElse (layerCount h) 0 >? 1)%Z;
        revert E; flag_search; discriminate.
Qed.

(** X3.  On a cubemap without array layers (layerCount absent, 0 or 1)
    the reduced command of the retry is, character for character, the
    primary command: the retry repeats the command that just failed. *)
Theorem retry_repeats_primary_without_layers :
  forall (ktx2Path previewPath : string) (selection : Selection)
         (info : option Ktx2Info),
    let h := headerOf info in
    isCubemap h = true ->
    (layerCount h = None \/ layerCount h = Some 0%Z \/ layerCount h = Some 1%Z) ->
    fallbackCmd ktx2Path previewPath selection
    = extractCmd ktx2Path previewPath selection info.
Proof.
  intros ktx2Path previewPath selection info h Hc Hl.
  unfold fallbackCmd, extractCmd, extractFlags. fold h. rewrite Hc.
  replace (orElse (layerCount h) 0 >? 1)%Z with false
    by (destruct Hl as [-> | [-> | ->]]; reflexivity).
  now rewrite !append_assoc.
Qed.

Lemma retry_repeats_primary_without_layers_witness :
  fallbackCmd "cube.ktx2" "/tmp/p.png" face3
  = extractCmd "cube.ktx2" "/tmp/p.png" face3 cubeInfo.
Proof.
  apply (retry_repeats_primary_without_layers "cube.ktx2" "/tmp/p.png" face3 cubeInfo);
    [reflexivity | right; left; reflexivity].
Defined.

(* ================================================================== *)
(** * Further properties of the metadata query *)

Lemma fromFirst_skip (c : ascii) (pre rest : string) :
  Str.mem c pre = false ->
  fromFirst c (pre ++ String c rest) = Some (String c rest).
Proof.
  intros H. induction pre as [|x pre IH].
  - simpl. now rewrite Ascii.eqb_refl.
  - simpl in H. apply orb_false_iff in H as [Hx Hpre].
    change (String x pre ++ String c rest) with (String x (pre ++ String c rest)).
    cbn [fromFirst]. rewrite Ascii.eqb_sym, Hx. exact (IH Hpre).
Qed.

Lemma uptoLast_none (c : ascii) (s : string) :
  Str.mem c s = false -> uptoLast c s = None.
Proof.
  induction s as [|x s IH]; intros H; [reflexivity|].
  simpl in H. apply orb_false_iff in H as [Hx Hs].
  cbn [uptoLast]. rewrite (IH Hs). now rewrite Ascii.eqb_sym, Hx.
Qed.

Lemma uptoLast_last (c : ascii) (a post : string) :
  Str.mem c post = false ->
  uptoLast c (a ++ String c post) = Some (a ++ String c "").
Proof.
  intros H. induction a as [|x a IH].
  - cbn [append uptoLast]. rewrite (uptoLast_none _ _ H).
    now rewrite Ascii.eqb_refl.
  - change (String x a ++ String c post) with (String x (a ++ String c post)).
    cbn [uptoLast]. now rewrite IH.
Qed.

(** The brace expression cuts a document out of the text around it. *)
Lemma braced_document (pre body post : string) :
  Str.mem "{" pre = false -> Str.mem "}" post = false ->
  braced (pre ++ "{" ++ body ++ "}" ++ post) = Some ("{" ++ body ++ "}").
Proof.
  intros Hpre Hpost. unfold braced.
  change (pre ++ "{" ++ body ++ "}" ++ post)
    with (pre ++ String "{" (body ++ String "}" post)).
  rewrite fromFirst_skip by exact Hpre.
  change (String "{" (body ++ String "}" post))
    with (String "{" body ++ String "}" post).
  now rewrite uptoLast_last.
Qed.

Section Ktx2MetadataMoreFacts.

Variable JSON_parse : string -> Result Ktx2Info.

(** X4.  When the output of [ktx info] is a JSON document with other
    text around it (text before it without an opening brace, text after
    it without a closing brace) and does not parse as a whole,
    [getKtx2Info] resolves to what the document alone parses to. *)
Theorem metadata_recovered_from_noisy_output :
  forall (sh : Shell) (filePath : string) (log : Log)
         (pre body post : string) (e : Error) (info : Ktx2Info),
    infoOutput sh filePath log = Resolved (pre ++ "{" ++ body ++ "}" ++ post) ->
    JSON_parse (pre ++ "{" ++ body ++ "}" ++ post) = Rejected e ->
    Str.mem "{" pre = false -> Str.mem "}" post = false ->
    JSON_parse ("{" ++ body ++ "}") = Resolved info ->
    fst (getKtx2Info JSON_parse sh filePath log) = Resolved info.
Proof.
  intros sh filePath log pre body post e info Hout Hwhole Hpre Hpost Hdoc.
  rewrite getKtx2Info_cases, Hout, Hwhole.
  rewrite braced_document by assumption. now rewrite Hdoc.
Qed.

(** X5.  [getKtx2Info] issues the validated query first and the
    unvalidated one only when the first could not be run: output that
    does not parse never triggers the second query, and nothing else is
    ever issued. *)
Theorem metadata_queries_issued :
  forall (sh : Shell) (filePath : string) (log : Log),
    snd (getKtx2Info JSON_parse sh filePath log)
    = (log ++ match sh log (infoCmd filePath) with
              | Resolved _ => [infoCmd filePath]
              | Rejected _ => [infoCmd filePath; infoCmdUnvalidated filePath]
              end)%list.
Proof.
  intros sh filePath log.
  unfold getKtx2Info, bind, try_catch, exec, throw, ret, settled.
  destruct (sh log (infoCmd filePath)) as [stdout|e1].
  - destruct (JSON_parse stdout); [reflexivity|].
    destruct (braced stdout); [|reflexivity].
    now destruct (JSON_parse _).
  - rewrite <- app_assoc. cbn [app].
    destruct (sh _ (infoCmdUnvalidated filePath)) as [stdout|e2]; [|reflexivity].
    destruct (JSON_parse stdout); [reflexivity|].
    destruct (braced stdout); [|reflexivity].
    now destruct (JSON_parse _).
Qed.

(** X6.  After a failed metadata query (both commands fail, or the
    output parses neither whole nor cut down to its braces) the
    extraction command built from the returned metadata selects the
    level only, whatever the selection: no [--face], [--depth] or
    [--layer]. *)
Theorem level_only_after_metadata_failure :
  forall (sh : Shell) (filePath : string) (log : Log) (info : Ktx2Info),
    (match infoOutput sh filePath log with
     | Rejected _ => True
     | Resolved text => unparseable JSON_parse text
     end) ->
    fst (getKtx2Info JSON_parse sh filePath log) = Resolved info ->
    forall (ktx2Path previewPath : string) (selection : Selection),
      extractCmd ktx2Path previewPath selection (Some info)
      = "ktx extract --level " ++ decimal (level selection)
        ++ " " ++ quoted ktx2Path ++ " " ++ quoted (extractPathOf previewPath).
Proof.
  intros sh filePath log info Hbad Hinfo ktx2Path previewPath selection.
  assert (Hmin : info = minimalInfo).
  { rewrite getKtx2Info_cases in Hinfo.
    destruct (infoOutput sh filePath log) as [text|]; [|congruence].
    destruct Hbad as [[e He] Hb]. rewrite He in Hinfo.
    destruct (braced text); [|congruence].
    destruct Hb as [e' He']. rewrite He' in Hinfo. congruence. }
  subst info. unfold extractCmd. cbn [headerOf header minimalInfo].
  unfold extractFlags, isCubemap. cbn. rewrite ?append_assoc. reflexivity.
Qed.

End Ktx2MetadataMoreFacts.

Lemma metadata_recovered_from_noisy_output_witness :
  fst (getKtx2Info parseEmptyObject chattyKtx "a.ktx2" nil)
  = Resolved {| header := None; index := None |}.
Proof.
  apply (metadata_recovered_from_noisy_output parseEmptyObject chattyKtx "a.ktx2" nil
           "warning: 2 issues " "" " done" (SyntaxError "Unexpected token"));
    reflexivity.
Defined.

Lemma level_only_after_metadata_failure_witness :
  extractCmd "a.ktx2" "/tmp/preview_a.ktx2.png" face3 (Some minimalInfo)
  = "ktx extract --level 0 " ++ quoted "a.ktx2"
    ++ " " ++ quoted "/tmp/preview_a.ktx2.png.exr".
Proof.
  apply (level_only_after_metadata_failure parseEmptyObject brokenKtx "a.ktx2" nil
           minimalInfo).
  - split; [now eexists | simpl; now eexists].
  - reflexivity.
Defined.

(* ================================================================== *)
(** * Further properties of the colour-config parser *)

(** X7.  Only the text between the first [Known displays:] and the next
    [Named transforms:] is parsed: whatever stands before the heading
    and after the closing heading, the catalog is that of the block
    alone. *)
Theorem only_the_display_section_is_parsed :
  forall (pre body post : string),
    Str.includes "Known displays:" pre = false ->
    Str.includes "Known displays:" body = false ->
    Str.includes "Named transforms:" body = false ->
    parseColorConfigInfo
      (pre ++ "Known displays:" ++ body ++ "Named transforms:" ++ post)
    = parseColorConfigInfo ("Known displays:" ++ body ++ "Named transforms:").
Proof.
  intros pre body post Hpre Hb1 Hb2. unfold parseColorConfigInfo.
  change "Known displays:" with headingDisplays in *.
  change "Named transforms:" with headingTransforms in *.
  assert (Hblock : displaySectionOf (headingDisplays ++ body ++ headingTransforms)
                   = Some body).
  { pose proof (displaySection_delimited "" body "" eq_refl Hb1 Hb2) as H.
    rewrite append_nil_r in H. exact H. }
  rewrite (displaySection_delimited pre body post) by assumption.
  now rewrite Hblock.
Qed.

Lemma only_the_display_section_is_parsed_witness :
  parseColorConfigInfo sampleOutput
  = parseColorConfigInfo
      ("Known displays:" ++ renderBlock sampleDisplays "" ++ "Named transforms:").
Proof.
  apply (only_the_display_section_is_parsed
           ("Color configuration: ocio://default" ++ String lf "Known color spaces: "
              ++ String lf "    - " ++ quoted "sRGB - Texture" ++ String lf "")
           (renderBlock sampleDisplays "") (String lf ""));
    reflexivity.
Defined.

Lemma span_spec (p : ascii -> bool) (s run rest : string) :
  Str.span p s = (run, rest) -> s = run ++ rest /\ Str.all p run = true.
Proof.
  revert run rest; induction s as [|c s IH]; intros run rest H.
  - injection H as <- <-. now split.
  - cbn [Str.span] in H. destruct (p c) eqn:Hc.
    + destruct (Str.span p s) as [run' rest'] eqn:E.
      injection H as <- <-. destruct (IH _ _ eq_refl) as [-> Hall].
      split; [reflexivity|]. simpl. now rewrite Hc.
    + injection H as <- <-. now split.
Qed.

Lemma isEmpty_true (s : string) : isEmpty s = true -> s = "".
Proof. now destruct s. Qed.

Lemma isEmpty_nonempty (s : string) : isEmpty s = false -> s <> "".
Proof. destruct s; [discriminate | discriminate]. Qed.

Lemma matchQuoted_inv (s inner rest : string) :
  matchQuoted s = Some (inner, rest) ->
  s = quoted inner ++ rest /\ isEmpty inner = false /\ Str.all notQuote inner = true.
Proof.
  unfold matchQuoted. intros H.
  destruct (Str.strip (String dq "") s) as [s1|] eqn:E1; [|discriminate].
  destruct (Str.span notQuote s1) as [run s2] eqn:E2.
  destruct (isEmpty run) eqn:E3; [discriminate|].
  destruct (Str.strip (String dq "") s2) as [s3|] eqn:E4; [|discriminate].
  injection H as <- <-.
  apply strip_inv in E1, E4. apply span_spec in E2 as [E2 Hall].
  subst s s1 s2. repeat split; try assumption.
  unfold quoted. cbn [append]. now rewrite !append_assoc.
Qed.

Lemma matchView_inv (s viewMatch rest : string) :
  matchView s = Some (viewMatch, rest) ->
  exists inner marked,
    viewMatch = renderEntry (QuotedView inner marked)
    /\ s = viewMatch ++ rest
    /\ isEmpty inner = false /\ Str.all notQuote inner = true.
Proof.
  unfold matchView. intros H.
  destruct (matchQuoted s) as [[inner s1]|] eqn:E; [|discriminate].
  apply matchQuoted_inv in E as (-> & Hne & Hq).
  unfold optionalMarker in H.
  destruct (Str.strip " (*)" s1) as [r|] eqn:E1; injection H as <- <-.
  - apply strip_inv in E1 as ->. exists inner, true.
    repeat split; try assumption; cbn [renderEntry]; unfold quoted;
      cbn [append]; rewrite ?append_assoc; reflexivity.
  - exists inner, false.
    repeat split; try assumption; cbn [renderEntry]; unfold quoted;
      cbn [append]; rewrite ?append_nil_r; reflexivity.
Qed.

Lemma all_quoted (p : ascii -> bool) (inner : string) :
  Str.all p (quoted inner) = true -> Str.all p inner = true.
Proof.
  unfold quoted. intros H. cbn [Str.all] in H.
  apply andb_true_iff in H as [_ H]. rewrite all_app in H.
  now apply andb_true_iff in H as [H _].
Qed.

(** The views read from one line have plain names that stay on the
    line. *)
Lemma matchAllViews_plain (fuel : nat) (s : string) :
  Str.all notLineTerminator s = true ->
  Forall (fun v => plainName (View.name v)
                   /\ Str.all notLineTerminator (View.name v) = true)
    (map viewOfMatch (matchAllViews fuel s)).
Proof.
  revert s; induction fuel as [|fuel IH]; intros s Hs; [constructor|].
  cbn [matchAllViews]. destruct (matchView s) as [[viewMatch rest]|] eqn:E.
  - apply matchView_inv in E as (inner & marked & -> & Hs' & Hne & Hq).
    rewrite Hs' in Hs. rewrite all_app in Hs. apply andb_true_iff in Hs as [Hm Hrest].
    cbn [map]. constructor; [|now apply IH].
    rewrite viewOfMatch_entry by (try assumption; now rewrite Hne).
    cbn [View.name]. repeat split; try assumption.
    + now apply isEmpty_nonempty.
    + cbn [renderEntry] in Hm. rewrite all_app in Hm.
      apply andb_true_iff in Hm as [Hm _]. now apply all_quoted in Hm.
  - destruct s as [|c s]; [constructor|].
    apply IH. simpl in Hs. now apply andb_true_iff in Hs as [_ Hs].
Qed.

Lemma matchDisplay_inv (s n line rest : string) (marked : bool) :
  matchDisplay s = Some (n, marked, line, rest) ->
  plainName n /\ Str.all notLineTerminator line = true.
Proof.
  unfold matchDisplay. intros H.
  destruct (Str.strip _ s) as [s1|]; [|discriminate].
  destruct (Str.span notQuote s1) as [run s2] eqn:E2.
  destruct (isEmpty run) eqn:E3; [discriminate|].
  destruct (Str.strip _ s2) as [s3|]; [|discriminate].
  destruct (optionalMarker s3) as [mk s4].
  destruct (Str.strip _ s4) as [s5|]; [|discriminate].
  destruct (Str.span isSpace s5) as [blank s6].
  destruct (isEmpty blank); [discriminate|].
  destruct (Str.strip _ s6) as [s7|]; [|discriminate].
  destruct (Str.span notLineTerminator s7) as [l r] eqn:E7.
  destruct (isEmpty l); [discriminate|].
  injection H as <- <- <- <-.
  apply span_spec in E2 as [_ Hq]. apply span_spec in E7 as [_ Hl].
  repeat split; try assumption. now apply isEmpty_nonempty.
Qed.

Lemma execDisplays_plain (fuel : nat) (s : string) :
  Forall (fun d => plainName (name d)
                   /\ Forall (fun v => plainName (View.name v)
                                       /\ Str.all notLineTerminator (View.name v) = true)
                        (views d))
    (execDisplays fuel s).
Proof.
  revert s; induction fuel as [|fuel IH]; intros s; [constructor|].
  cbn [execDisplays].
  destruct (matchDisplay s) as [[[[n marked] line] rest]|] eqn:E.
  - apply matchDisplay_inv in E as [Hn Hl].
    constructor; [|apply IH]. cbn [name views]. split; [exact Hn|].
    unfold parseViews. now apply matchAllViews_plain.
  - destruct s as [|c s]; [constructor | apply IH].
Qed.

Lemma parsed_catalog_plain (output : string) :
  Forall (fun d => plainName (name d)
                   /\ Forall (fun v => plainName (View.name v)
                                       /\ Str.all notLineTerminator (View.name v) = true)
                        (views d))
    (parseColorConfigInfo output).
Proof.
  unfold parseColorConfigInfo.
  destruct (displaySectionOf output) as [section|]; [|constructor].
  destruct (isEmpty section); [constructor|].
  apply execDisplays_plain.
Qed.

(** X8.  Whatever the text, every display of the parsed catalog has a
    name that is not empty and holds no double quote, and so has every
    view of it; a view name also holds no line break. *)
Theorem parsed_names_are_plain :
  forall (output : string) (d : ColorDisplay),
    In d (parseColorConfigInfo output) ->
    plainName (name d)
    /\ (forall v, In v (views d) ->
          plainName (View.name v)
          /\ Str.all notLineTerminator (View.name v) = true).
Proof.
  intros output d Hd.
  pose proof (parsed_catalog_plain output) as H.
  rewrite Forall_forall in H. destruct (H d Hd) as [Hn Hv].
  split; [exact Hn|]. intros v Hin. rewrite Forall_forall in Hv. now apply Hv.
Qed.

Lemma parsed_names_are_plain_witness :
  plainName "sRGB - Display".
Proof.
  apply (proj1 (parsed_names_are_plain sampleOutput
                  (displayOf (nth 0 sampleDisplays
                                (Build_DisplayLines "" "" false "" nil)))
                  ltac:(vm_compute; left; reflexivity))).
Defined.

Lemma names_of_views (es : list ViewEntry) :
  map View.name (viewsOf es) = quotedNames es.
Proof.
  induction es as [|[n m | t] es IH]; cbn [viewsOf quotedNames map];
    [reflexivity | now rewrite IH | exact IH].
Qed.

(** X9.  Parsing a well-formed block gives its displays in the order
    listed, each with its name and with the names of its quoted views
    in the order listed; entries without quotes are left out. *)
Theorem parse_keeps_order_and_names :
  forall (pre post trail : string) (ds : list DisplayLines),
    let body := renderBlock ds trail in
    Str.includes "Known displays:" pre = false ->
    Str.includes "Known displays:" body = false ->
    Str.includes "Named transforms:" body = false ->
    forallb wfDisplay ds = true ->
    Str.all notQuote trail = true ->
    let catalog :=
      parseColorConfigInfo
        (pre ++ "Known displays:" ++ body ++ "Named transforms:" ++ post) in
    map name catalog = map displayName ds
    /\ map (fun d => map View.name (views d)) catalog
       = map (fun d => quotedNames (entries d)) ds
    /\ map isDefault catalog = map displayMarked ds.
Proof.
  intros pre post trail ds body Hpre Hb1 Hb2 Hwf Htrail catalog.
  assert (Hparse : catalog = map displayOf ds)
    by (apply parse_rendered_block; assumption).
  rewrite Hparse, !map_map. repeat split; apply map_ext; intros d;
    cbn [displayOf name views isDefault]; try reflexivity.
  apply names_of_views.
Qed.

Lemma parse_keeps_order_and_names_witness :
  map name (parseColorConfigInfo sampleOutput)
  = ["sRGB - Display"; "Rec.1886 Rec.709 - Display"]
  /\ map (fun d => map View.name (views d)) (parseColorConfigInfo sampleOutput)
     = [["ACES 1.0 - SDR Video"; "Un-tone-mapped"];
        ["ACES 1.0 - SDR Video"; "Video (colorimetric)"]].
Proof.
  destruct (parse_keeps_order_and_names
              ("Color configuration: ocio://default" ++ String lf "Known color spaces: "
                 ++ String lf "    - " ++ quoted "sRGB - Texture" ++ String lf "")
              (String lf "") "" sampleDisplays) as (H1 & H2 & _);
    try reflexivity.
  split; [exact H1 | exact H2].
Defined.

(* ================================================================== *)
(** * The default display and view of a parsed block *)

Lemma find_default_display (ds : list DisplayLines) :
  find isDefault (map displayOf ds) = option_map displayOf (find displayMarked ds).
Proof.
  induction ds as [|d ds IH]; [reflexivity|].
  cbn [map find]. change (isDefault (displayOf d)) with (displayMarked d).
  now destruct (displayMarked d).
Qed.

Lemma find_default_view (es : list ViewEntry) :
  find View.isDefault (viewsOf es)
  = match find carriesMarker es with
    | Some (QuotedView n m) =>
        Some {| View.name := n; View.isDefault := carriesMarker (QuotedView n m) |}
    | _ => None
    end.
Proof.
  induction es as [|[n m|t] es IH]; [reflexivity| |exact IH].
  cbn [viewsOf find View.isDefault].
  destruct (carriesMarker (QuotedView n m)) eqn:E; [now rewrite E | exact IH].
Qed.

Lemma first_view (es : list ViewEntry) :
  option_map View.name (nth_error (viewsOf es) 0) = nth_error (quotedNames es) 0.
Proof.
  induction es as [|[n m|t] es IH]; [reflexivity|reflexivity|exact IH].
Qed.

Lemma wfDisplay_name (ds : list DisplayLines) (d : DisplayLines) :
  forallb wfDisplay ds = true -> In d ds -> isEmpty (displayName d) = false.
Proof.
  intros Hwf Hin. rewrite forallb_forall in Hwf. specialize (Hwf d Hin).
  unfold wfDisplay in Hwf. rewrite !andb_true_iff in Hwf.
  destruct Hwf as [[[[[[_ H] _] _] _] _] _]. now apply negb_true_iff in H.
Qed.

Lemma wfDisplay_view (ds : list DisplayLines) (d : DisplayLines) (v : string) (m : bool) :
  forallb wfDisplay ds = true -> In d ds -> In (QuotedView v m) (entries d) ->
  isEmpty v = false.
Proof.
  intros Hwf Hin Hv. rewrite forallb_forall in Hwf. specialize (Hwf d Hin).
  unfold wfDisplay in Hwf. rewrite !andb_true_iff in Hwf.
  destruct Hwf as [[_ H] _]. rewrite forallb_forall in H. specialize (H _ Hv).
  cbn [wfEntry] in H. rewrite !andb_true_iff in H.
  destruct H as [[H _] _]. now apply negb_true_iff in H.
Qed.

Lemma quotedNames_in (es : list ViewEntry) (v : string) :
  In v (quotedNames es) -> exists m, In (QuotedView v m) es.
Proof.
  induction es as [|[n m|t] es IH]; cbn [quotedNames]; intros H.
  - destruct H.
  - destruct H as [-> | H]; [exists m; now left|].
    destruct (IH H) as [m' Hm']. exists m'. now right.
  - destruct (IH H) as [m' Hm']. exists m'. now right.
Qed.

Lemma parse_blockOutput (pre post trail : string) (ds : list DisplayLines) :
  Str.includes "Known displays:" pre = false ->
  Str.includes "Known displays:" (renderBlock ds trail) = false ->
  Str.includes "Named transforms:" (renderBlock ds trail) = false ->
  forallb wfDisplay ds = true ->
  Str.all notQuote trail = true ->
  parseColorConfigInfo (blockOutput pre ds trail post) = map displayOf ds.
Proof.
  intros Hpre Hb1 Hb2 Hwf Htrail. unfold blockOutput.
  apply (parse_rendered_block pre post trail ds); assumption.
Qed.

(** X10.  In a well-formed block, the first display line that carries
    the marker and the first quoted view of that display whose text
    carries the marker give the display and the view that
    [resolveCustomEditor] requests first. *)
Theorem marked_names_are_the_defaults :
  forall (pre post trail : string) (ds : list DisplayLines)
         (d : DisplayLines) (v : string) (m : bool),
    Str.includes "Known displays:" pre = false ->
    Str.includes "Known displays:" (renderBlock ds trail) = false ->
    Str.includes "Named transforms:" (renderBlock ds trail) = false ->
    forallb wfDisplay ds = true ->
    Str.all notQuote trail = true ->
    find displayMarked ds = Some d ->
    find carriesMarker (entries d) = Some (QuotedView v m) ->
    let catalog := parseColorConfigInfo (blockOutput pre ds trail post) in
    defaultDisplayName catalog = displayName d
    /\ defaultViewName catalog = v.
Proof.
  intros pre post trail ds d v m Hpre Hb1 Hb2 Hwf Htrail Hd Hv catalog.
  assert (Hparse : catalog = map displayOf ds) by now apply parse_blockOutput.
  assert (Hdefault : defaultDisplayOf catalog = Some (displayOf d)).
  { unfold defaultDisplayOf. now rewrite Hparse, find_default_display, Hd. }
  destruct (find_some _ _ Hd) as [Hin _].
  destruct (find_some _ _ Hv) as [Hvin _].
  unfold defaultViewName, defaultDisplayName. rewrite Hdefault.
  cbn [option_map defaultViewOf displayOf name views].
  rewrite find_default_view, Hv. cbn [option_map View.name nameOr].
  rewrite (wfDisplay_name ds d Hwf Hin), (wfDisplay_view ds d v m Hwf Hin Hvin).
  now split.
Qed.

Lemma marked_names_are_the_defaults_witness :
  defaultDisplayName (parseColorConfigInfo sampleOutput) = "sRGB - Display"
  /\ defaultViewName (parseColorConfigInfo sampleOutput) = "ACES 1.0 - SDR Video".
Proof.
  apply (marked_names_are_the_defaults
           ("Color configuration: ocio://default" ++ String lf "Known color spaces: "
              ++ String lf "    - " ++ quoted "sRGB - Texture" ++ String lf "")
           (String lf "") "" sampleDisplays
           (nth 0 sampleDisplays (Build_DisplayLines "" "" false "" nil))
           "ACES 1.0 - SDR Video" true);
    reflexivity.
Defined.

(** X11.  In a well-formed block that marks no display, the first
    display listed is requested.  The view requested is the first
    quoted view of that display whose matched text holds the marker
    characters, after the closing quote or within the name; when there
    is none it is the first quoted view of the display, and when the
    display lists no quoted view at all the request pairs the display
    with the view name [ACES 1.0 - SDR Video]. *)
Theorem unmarked_block_defaults :
  forall (pre post trail : string) (d : DisplayLines) (rest : list DisplayLines),
    let ds := d :: rest in
    Str.includes "Known displays:" pre = false ->
    Str.includes "Known displays:" (renderBlock ds trail) = false ->
    Str.includes "Named transforms:" (renderBlock ds trail) = false ->
    forallb wfDisplay ds = true ->
    Str.all notQuote trail = true ->
    find displayMarked ds = None ->
    let catalog := parseColorConfigInfo (blockOutput pre ds trail post) in
    defaultDisplayName catalog = displayName d
    /\ defaultViewName catalog
       = match find carriesMarker (entries d) with
         | Some (QuotedView v _) => v
         | _ =>
             match quotedNames (entries d) with
             | v :: _ => v
             | nil => "ACES 1.0 - SDR Video"
             end
         end.
Proof.
  intros pre post trail d rest ds Hpre Hb1 Hb2 Hwf Htrail Hd catalog.
  assert (Hparse : catalog = map displayOf ds) by now apply parse_blockOutput.
  assert (Hdefault : defaultDisplayOf catalog = Some (displayOf d)).
  { unfold defaultDisplayOf. rewrite Hparse, find_default_display, Hd. reflexivity. }
  assert (Hin : In d ds) by now left.
  unfold defaultViewName, defaultDisplayName. rewrite Hdefault.
  cbn [option_map defaultViewOf displayOf name views nameOr].
  rewrite (wfDisplay_name ds d Hwf Hin). split; [reflexivity|].
  rewrite find_default_view.
  assert (Hfirst : nameOr (option_map View.name (nth_error (viewsOf (entries d)) 0))
                     "ACES 1.0 - SDR Video"
                   = match quotedNames (entries d) with
                     | v :: _ => v
                     | nil => "ACES 1.0 - SDR Video"
                     end).
  { rewrite first_view.
    destruct (quotedNames (entries d)) as [|v vs] eqn:Hq; [reflexivity|].
    cbn [nth_error nameOr].
    destruct (quotedNames_in (entries d) v) as [m Hm]; [rewrite Hq; now left|].
    now rewrite (wfDisplay_view ds d v m Hwf Hin Hm). }
  destruct (find carriesMarker (entries d)) as [[v m|t]|] eqn:Hv;
    [|exact Hfirst|exact Hfirst].
  destruct (find_some _ _ Hv) as [Hvin _].
  cbn [option_map View.name nameOr].
  now rewrite (wfDisplay_view ds d v m Hwf Hin Hvin).
Qed.

Lemma unmarked_block_defaults_witness :
  (defaultDisplayName (parseColorConfigInfo bareOutput) = "Rec.2020 - Display"
   /\ defaultViewName (parseColorConfigInfo bareOutput) = "ACES 1.0 - SDR Video")
  /\ (defaultDisplayName
        (parseColorConfigInfo (blockOutput "" unmarkedDisplays (String lf "") ""))
      = "P3-D65 - Display"
      /\ defaultViewName
           (parseColorConfigInfo (blockOutput "" unmarkedDisplays (String lf "") ""))
         = "Video (colorimetric)")
  /\ (defaultDisplayName
        (parseColorConfigInfo (blockOutput "" spelledDisplays "" ""))
      = "P3-D65 - Display"
      /\ defaultViewName
           (parseColorConfigInfo (blockOutput "" spelledDisplays "" ""))
         = "B(*)").
Proof.
  split; [|split].
  - apply (unmarked_block_defaults "" "" ""
             (nth 0 bareDisplays (Build_DisplayLines "" "" false "" nil)) nil);
      reflexivity.
  - apply (unmarked_block_defaults "" "" (String lf "")
             (nth 0 unmarkedDisplays (Build_DisplayLines "" "" false "" nil))
             (tl unmarkedDisplays));
      reflexivity.
  - apply (unmarked_block_defaults "" "" ""
             (nth 0 spelledDisplays (Build_DisplayLines "" "" false "" nil)) nil);
      reflexivity.
Defined.

(* ================================================================== *)
(** * Mip level details *)

Lemma toInt32_small (n : Z) : (- 2 ^ 31 <= n < 2 ^ 31)%Z -> toInt32 n = n.
Proof.
  intros H. unfold toInt32.
  rewrite Z.mod_small by (change (2 ^ 32)%Z with (2 ^ 31 + 2 ^ 31)%Z; lia). lia.
Qed.

Lemma toInt32_range (n : Z) : (- 2 ^ 31 <= toInt32 n < 2 ^ 31)%Z.
Proof.
  unfold toInt32.
  pose proof (Z.mod_pos_bound (n + 2 ^ 31) (2 ^ 32) ltac:(lia)) as H.
  change (2 ^ 32)%Z with (2 ^ 31 + 2 ^ 31)%Z in *. lia.
Qed.

Lemma mipSize_small (dimension level : Z) :
  (0 <= dimension < 2 ^ 31)%Z -> (0 <= level < 32)%Z ->
  mipSize dimension level = Z.max 1 (dimension / 2 ^ level).
Proof.
  intros Hd Hl. unfold mipSize, signedShiftRight.
  rewrite toInt32_small by lia. rewrite Z.mod_small by lia.
  now rewrite Z.shiftr_div_pow2 by lia.
Qed.

(** X12.  For a dimension below 2^31 and a level below 32 the size
    shown is the dimension divided by 2^level, rounded down and at least
    1; each level shows half the size of the level before it, rounded
    down and at least 1. *)
Theorem mip_size_halves_per_level :
  forall (dimension level : Z),
    (0 < dimension < 2 ^ 31)%Z -> (0 <= level < 32)%Z ->
    mipSize dimension level = Z.max 1 (dimension / 2 ^ level)
    /\ mipSize dimension 0 = dimension
    /\ ((level + 1 < 32)%Z ->
        mipSize dimension (level + 1) = Z.max 1 (mipSize dimension level / 2)).
Proof.
  intros dimension level Hd Hl. split; [|split].
  - apply mipSize_small; lia.
  - rewrite mipSize_small by lia. rewrite Z.pow_0_r, Z.div_1_r. lia.
  - intros Hnext. rewrite !mipSize_small by lia.
    rewrite Z.pow_add_r by lia. rewrite <- Z.div_div by lia.
    change (2 ^ 1)%Z with 2%Z.
    assert (Hq : (0 <= dimension / 2 ^ level)%Z)
      by (apply Z.div_pos; [lia | apply Z.pow_pos_nonneg; lia]).
    destruct (Z.eq_dec (dimension / 2 ^ level) 0) as [-> | Hne].
    + reflexivity.
    + now rewrite (Z.max_r 1 (dimension / 2 ^ level)) by lia.
Qed.

Lemma mip_size_halves_per_level_witness :
  mipSize 10 3 = Z.max 1 (10 / 2 ^ 3)
  /\ mipSize 10 0 = 10%Z
  /\ ((3 + 1 < 32)%Z -> mipSize 10 (3 + 1) = Z.max 1 (mipSize 10 3 / 2)).
Proof. apply (mip_size_halves_per_level 10 3); lia. Defined.

(** X13.  Whatever the dimension and the level, the size shown lies
    between 1 and 2^31 - 1; the level counts modulo 32 and the dimension
    modulo 2^32, and a dimension from 2^31 on, read as negative, shows
    as 1. *)
Theorem mip_size_wraps :
  forall (dimension level : Z),
    (1 <= mipSize dimension level < 2 ^ 31)%Z
    /\ mipSize dimension (level + 32) = mipSize dimension level
    /\ mipSize (dimension + 2 ^ 32) level = mipSize dimension level
    /\ ((2 ^ 31 <= dimension < 2 ^ 32)%Z -> mipSize dimension level = 1%Z).
Proof.
  intros dimension level.
  assert (Hc : (0 <= level mod 32 < 32)%Z) by (apply Z.mod_pos_bound; lia).
  pose proof (toInt32_range dimension) as Hr.
  assert (Hp : (0 < 2 ^ (level mod 32))%Z) by (apply Z.pow_pos_nonneg; lia).
  repeat split.
  - unfold mipSize. lia.
  - unfold mipSize, signedShiftRight. rewrite Z.shiftr_div_pow2 by lia.
    apply Z.max_lub_lt; [lia|].
    apply Z.div_lt_upper_bound; [exact Hp|]. nia.
  - unfold mipSize, signedShiftRight.
    replace (level + 32)%Z with (level + 1 * 32)%Z by lia.
    now rewrite Z.mod_add by lia.
  - unfold mipSize, signedShiftRight, toInt32.
    replace (dimension + 2 ^ 32 + 2 ^ 31)%Z
      with (dimension + 2 ^ 31 + 1 * 2 ^ 32)%Z by lia.
    now rewrite Z.mod_add by lia.
  - intros Hbig. unfold mipSize, signedShiftRight.
    assert (Hneg : toInt32 dimension = (dimension - 2 ^ 32)%Z).
    { unfold toInt32.
      replace (dimension + 2 ^ 31)%Z
        with (dimension - 2 ^ 31 + 1 * 2 ^ 32)%Z
        by (change (2 ^ 32)%Z with (2 ^ 31 + 2 ^ 31)%Z; lia).
      rewrite Z.mod_add by lia.
      rewrite Z.mod_small by (change (2 ^ 32)%Z with (2 ^ 31 + 2 ^ 31)%Z in *; lia).
      change (2 ^ 32)%Z with (2 ^ 31 + 2 ^ 31)%Z. lia. }
    rewrite Hneg, Z.shiftr_div_pow2 by lia.
    apply Z.max_l.
    assert ((dimension - 2 ^ 32) / 2 ^ (level mod 32) < 0)%Z; [|lia].
    apply Z.div_lt_upper_bound; [exact Hp | lia].
Qed.

Lemma mip_size_wraps_witness :
  mipSize 4096 33 = mipSize 4096 1 /\ mipSize 4294967295 0 = 1%Z.
Proof.
  split.
  - exact (proj1 (proj2 (mip_size_wraps 4096 1))).
  - apply (proj2 (proj2 (proj2 (mip_size_wraps 4294967295 0)))). lia.
Defined.

Lemma levelAt_found (ix : Ktx2Index) (level : Z) :
  (0 <= level < Z.of_nat (List.length (levels ix)))%Z ->
  exists lvl, levelAt (Some ix) level = Some lvl.
Proof.
  intros H. unfold levelAt.
  destruct (Z.ltb_spec level 0) as [Hneg|_]; [lia|].
  destruct (nth_error (levels ix) (Z.to_nat level)) as [lvl|] eqn:E; [now exists lvl|].
  apply nth_error_None in E. lia.
Qed.

Lemma levelAt_missing (index : option Ktx2Index) (level : Z) :
  levelAt index level = None
  <-> index = None
      \/ exists ix, index = Some ix
                    /\ (level < 0 \/ Z.of_nat (List.length (levels ix)) <= level)%Z.
Proof.
  unfold levelAt. destruct index as [ix|]; [|split; [now left | reflexivity]].
  destruct (Z.ltb_spec level 0) as [Hneg|Hpos].
  - split; [intros _; right; exists ix; split; [reflexivity | lia] | reflexivity].
  - rewrite nth_error_None. split.
    + intros H. right. exists ix. split; [reflexivity | lia].
    + intros [H | (ix' & H & Hr)]; [discriminate|].
      injection H as <-. lia.
Qed.

(** X14.  [renderLevelInfo] gives the empty text exactly when there is
    no index or the level is below zero or not below the number of
    levels of the index, whether or not there is a header; it fails
    exactly when the level is in the index and the header is missing;
    otherwise it gives a table. *)
Theorem level_info_outcomes :
  forall (header : option Ktx2Header) (index : option Ktx2Index) (level : Z),
    let missing :=
      index = None
      \/ exists ix, index = Some ix
                    /\ (level < 0 \/ Z.of_nat (List.length (levels ix)) <= level)%Z in
    (renderLevelInfo header index level = Some "" <-> missing)
    /\ (renderLevelInfo header index level = None <-> ~ missing /\ header = None)
    /\ (forall html, renderLevelInfo header index level = Some html -> html <> "" ->
          prefix "<table " html = true
          /\ Str.endsWith html "</table>" = true
          /\ Str.includes ("Selected Mip Level: " ++ decimal level ++ "</td>") html = true).
Proof.
  intros header index level missing. subst missing.
  rewrite <- levelAt_missing. unfold renderLevelInfo.
  destruct (levelAt index level) as [lvl|].
  - destruct header as [h|].
    + split; [split; [discriminate | discriminate]|].
      split; [split; [discriminate | intros [_ H]; discriminate]|].
      intros html H _.
      apply (f_equal (fun o => match o with Some x => x | None => "" end)) in H.
      cbv beta iota in H. subst html. split; [reflexivity|]. split.
      * change (String lf "        </table>")
          with (String lf "        " ++ "</table>").
        rewrite <- !append_assoc. apply endsWith_app.
      * match goal with
        | |- Str.includes ?sub (?a ++ ?l1 ++ ?b ++ ?n ++ ?c ++ ?rest) = true =>
            replace (a ++ l1 ++ b ++ n ++ c ++ rest)
              with ((a ++ l1 ++ "<tr><td colspan=2 style='font-weight:bold;padding:2px 8px;'>")
                      ++ sub ++ ("</tr>" ++ rest))
              by (rewrite !append_assoc; reflexivity)
        end.
        apply includes_intro.
    + split; [split; [discriminate | discriminate]|].
      split; [split; [intros _; split; [discriminate | reflexivity] | reflexivity]|].
      discriminate.
  - split; [split; reflexivity|].
    split; [split; [discriminate | intros [H _]; now contradiction H]|].
    intros html H Hne. injection H as <-. now contradiction Hne.
Qed.

Lemma level_info_outcomes_witness :
  renderLevelInfo (Some mipHeader) (Some mipIndex) 4 = Some ""
  /\ renderLevelInfo None (Some mipIndex) 7 = Some ""
  /\ renderLevelInfo None (Some mipIndex) 2 = None.
Proof.
  split; [|split].
  - apply (proj1 (level_info_outcomes (Some mipHeader) (Some mipIndex) 4)).
    right. exists mipIndex. split; [reflexivity | right; simpl; lia].
  - apply (proj1 (level_info_outcomes None (Some mipIndex) 7)).
    right. exists mipIndex. split; [reflexivity | right; simpl; lia].
  - apply (proj1 (proj2 (level_info_outcomes None (Some mipIndex) 2))).
    split; [|reflexivity].
    intros [H | (ix & H & Hr)]; [discriminate|].
    injection H as <-. simpl in Hr. lia.
Defined.

Lemma includes_app_r (sub a b : string) :
  Str.includes sub b = true -> Str.includes sub (a ++ b) = true.
Proof.
  intros H. apply includes_inv in H as (x & y & ->).
  rewrite <- append_assoc. apply includes_intro.
Qed.

Lemma includes_refl (s : string) : Str.includes s s = true.
Proof.
  apply includes_prefix. rewrite <- (append_nil_r s) at 2. apply prefix_app.
Qed.

Lemma truthy_nonzero (v : Z) : v <> 0%Z -> truthy (Some v) = true.
Proof. intros H. unfold truthy. now apply negb_true_iff, Z.eqb_neq. Qed.

Lemma mipSize_wrapped (dimension level : Z) :
  (0 <= dimension < 2 ^ 31)%Z ->
  mipSize dimension level = Z.max 1 (dimension / 2 ^ (level mod 32)).
Proof.
  intros Hd. unfold mipSize, signedShiftRight.
  assert (Hc : (0 <= level mod 32 < 32)%Z) by (apply Z.mod_pos_bound; lia).
  rewrite toInt32_small by lia.
  now rewrite Z.shiftr_div_pow2 by lia.
Qed.

(** X15.  For a level of the index and a header with a level count and
    a width and a height below 2^31, the table of [renderLevelInfo]
    shows the resolution of the level as width / 2^k x height / 2^k,
    each rounded down and at least 1, where k is the level modulo 32:
    the level itself when it is below 32. *)
Theorem resolution_row_shows_mip_size :
  forall (h : Ktx2Header) (ix : Ktx2Index) (level pw ph : Z),
    pixelWidth h = Some pw -> pixelHeight h = Some ph ->
    truthy (levelCount h) = true ->
    (0 < pw < 2 ^ 31)%Z -> (0 < ph < 2 ^ 31)%Z ->
    (0 <= level < Z.of_nat (List.length (levels ix)))%Z ->
    exists html,
      renderLevelInfo (Some h) (Some ix) level = Some html
      /\ Str.includes
           (infoRow "Resolution"
              (decimal (Z.max 1 (pw / 2 ^ (level mod 32))) ++ " " ++ times ++ " "
                 ++ decimal (Z.max 1 (ph / 2 ^ (level mod 32)))))
           html = true
      /\ ((level < 32)%Z ->
          Str.includes
            (infoRow "Resolution"
               (decimal (Z.max 1 (pw / 2 ^ level)) ++ " " ++ times ++ " "
                  ++ decimal (Z.max 1 (ph / 2 ^ level))))
            html = true).
Proof.
  intros h ix level pw ph Hw Hh Hc Hpw Hph Hlevel.
  destruct (levelAt_found ix level Hlevel) as [lvl Hlvl].
  unfold renderLevelInfo. rewrite Hlvl. eexists. split; [reflexivity|].
  assert (Hrow : resolutionRow h level
                 = infoRow "Resolution"
                     (decimal (Z.max 1 (pw / 2 ^ (level mod 32))) ++ " " ++ times ++ " "
                        ++ decimal (Z.max 1 (ph / 2 ^ (level mod 32))))).
  { unfold resolutionRow. rewrite Hw, Hh, Hc.
    rewrite !truthy_nonzero by lia. cbn [andb].
    now rewrite !mipSize_wrapped by lia. }
  rewrite Hrow.
  assert (Hshown : Str.includes
                     (infoRow "Resolution"
                        (decimal (Z.max 1 (pw / 2 ^ (level mod 32))) ++ " " ++ times
                           ++ " " ++ decimal (Z.max 1 (ph / 2 ^ (level mod 32)))))
                     ("<table style='width:100%;margin-top:8px;color:var(--vscode-foreground);background:var(--vscode-editor-background);border-collapse:collapse;'>"
                        ++ String lf "            "
                        ++ "<tr><td colspan=2 style='font-weight:bold;padding:2px 8px;'>Selected Mip Level: "
                        ++ decimal level ++ "</td></tr>"
                        ++ String lf "            "
                        ++ infoRow "Resolution"
                             (decimal (Z.max 1 (pw / 2 ^ (level mod 32))) ++ " " ++ times
                                ++ " " ++ decimal (Z.max 1 (ph / 2 ^ (level mod 32))))
                        ++ String lf "            "
                        ++ Str.join (map (fun kv => infoRow (fst kv) (snd kv)) lvl)
                        ++ String lf "        </table>") = true).
  { do 6 apply includes_app_r. apply includes_app_l, includes_refl. }
  split; [exact Hshown|].
  intros H32.
  replace (2 ^ level)%Z with (2 ^ (level mod 32))%Z
    by (now rewrite Z.mod_small by lia).
  exact Hshown.
Qed.

Lemma resolution_row_shows_mip_size_witness :
  exists html,
    renderLevelInfo (Some mipHeader) (Some mipIndex) 2 = Some html
    /\ Str.includes (infoRow "Resolution" ("2 " ++ times ++ " 1")) html = true.
Proof.
  destruct (resolution_row_shows_mip_size mipHeader mipIndex 2 10 6)
    as (html & Hhtml & Hrow & _); try reflexivity; try (simpl; lia).
  exists html. split; [exact Hhtml | exact Hrow].
Defined.

(* ================================================================== *)
(** * The selectors of the KTX2 page and the extraction command *)

Lemma extractFlags_words (selection : Selection) (h : Ktx2Header) :
  extractFlags selection h = unwords (flagWords selection h).
Proof.
  unfold extractFlags, flagWords.
  destruct (isCubemap h), (orElse (pixelDepth h) 0 >? 1)%Z,
    (orElse (layerCount h) 0 >? 1)%Z;
    cbn [app unwords]; rewrite ?append_assoc; reflexivity.
Qed.

Lemma flags_hold_layer (selection : Selection) (h : Ktx2Header) :
  Str.includes "--layer" (extractFlags selection h) = (orElse (layerCount h) 0 >? 1)%Z.
Proof.
  rewrite extractFlags_words. unfold flagWords.
  destruct (isCubemap h), (orElse (pixelDepth h) 0 >? 1)%Z,
    (orElse (layerCount h) 0 >? 1)%Z; flag_search; reflexivity.
Qed.

Lemma flags_hold_face (selection : Selection) (h : Ktx2Header) :
  Str.includes "--face" (extractFlags selection h) = isCubemap h.
Proof.
  rewrite extractFlags_words. unfold flagWords.
  destruct (isCubemap h), (orElse (pixelDepth h) 0 >? 1)%Z,
    (orElse (layerCount h) 0 >? 1)%Z; flag_search; reflexivity.
Qed.

Lemma flags_hold_depth (selection : Selection) (h : Ktx2Header) :
  Str.includes "--depth" (extractFlags selection h)
  = negb (isCubemap h) && (orElse (pixelDepth h) 0 >? 1)%Z.
Proof.
  rewrite extractFlags_words. unfold flagWords.
  destruct (isCubemap h), (orElse (pixelDepth h) 0 >? 1)%Z,
    (orElse (layerCount h) 0 >? 1)%Z; flag_search; reflexivity.
Qed.

Lemma buttons_length (id : string) (count selected : Z) :
  List.length (buttons id count selected) = Z.to_nat count.
Proof. unfold buttons. now rewrite List.length_map, List.length_seq. Qed.

Lemma choice_offered (n : option Z) :
  (1 < Z.to_nat (orElse n 1))%nat <-> (orElse n 0 >? 1)%Z = true.
Proof.
  rewrite Z.gtb_ltb, Z.ltb_lt. unfold orElse.
  destruct n as [v|]; [|simpl; lia].
  destruct (Z.eqb_spec v 0); [simpl; lia | lia].
Qed.

(** X16.  The page offers a choice of layer (more than one button in
    the layer group) exactly when the extraction command carries
    [--layer], and a choice of face exactly when it carries [--face];
    it carries [--depth] exactly when the page offers a choice of depth
    and the texture is not a cubemap, so on a cubemap with depth slices
    the depth buttons do not reach the command. *)
Theorem selector_choice_reaches_command :
  forall (info : Ktx2Info) (selection : Selection),
    let h := headerOf (Some info) in
    let flags := extractFlags selection h in
    ((1 < List.length (buttons "layer" (layerCountOf info) (layer selection)))%nat
       <-> Str.includes "--layer" flags = true)
    /\ ((1 < List.length (buttons "face" (faceCountOf info) (face selection)))%nat
          <-> Str.includes "--face" flags = true)
    /\ ((1 < List.length (buttons "depth" (depthCountOf info) (depth selection)))%nat
        /\ isCubemap h = false
          <-> Str.includes "--depth" flags = true).
Proof.
  intros info selection h flags. subst flags.
  rewrite !buttons_length, flags_hold_layer, flags_hold_face, flags_hold_depth.
  unfold layerCountOf, faceCountOf, depthCountOf. fold h.
  rewrite !choice_offered. unfold isCubemap.
  split; [reflexivity|]. split; [reflexivity|].
  destruct (orElse (faceCount h) 0 >? 1)%Z, (orElse (pixelDepth h) 0 >? 1)%Z;
    simpl; intuition congruence.
Qed.

Lemma selector_choice_reaches_command_witness :
  Str.includes "--layer" (extractFlags face3 (headerOf (Some deepCubeArray))) = true
  /\ Str.includes "--face" (extractFlags face3 (headerOf (Some deepCubeArray))) = true.
Proof.
  split.
  - apply (proj1 (selector_choice_reaches_command deepCubeArray face3)).
    simpl. lia.
  - apply (proj1 (proj2 (selector_choice_reaches_command deepCubeArray face3))).
    simpl. lia.
Defined.

(* ================================================================== *)
(** * The display and view selectors of the two pages *)

Lemma nameOr_plain (n fallback : string) :
  n <> "" -> nameOr (Some n) fallback = n.
Proof. intros H. cbn [nameOr]. destruct n; [congruence | reflexivity]. Qed.

(** On a catalog whose names are not empty the names the page is built
    with are the display and view of the first preview. *)
Lemma page_names_of_named_catalog (catalog : list ColorDisplay) :
  (forall d, In d catalog ->
     name d <> "" /\ forall v, In v (views d) -> View.name v <> "") ->
  name (ktx2DefaultDisplay catalog) = defaultDisplayName catalog
  /\ ktx2DefaultViewName catalog = defaultViewName catalog.
Proof.
  intros Hnames.
  unfold ktx2DefaultViewName, ktx2DefaultDisplay, defaultDisplayName, defaultViewName.
  destruct (defaultDisplayOf catalog) as [d|] eqn:Hd; [|split; reflexivity].
  assert (Hin : In d catalog).
  { unfold defaultDisplayOf in Hd.
    destruct (find isDefault catalog) as [d'|] eqn:Hf.
    - injection Hd as <-. now destruct (find_some _ _ Hf).
    - destruct catalog as [|d0 rest]; [discriminate|].
      injection Hd as <-. now left. }
  destruct (Hnames d Hin) as [Hn Hv].
  cbn [option_map defaultViewOf]. rewrite (nameOr_plain (name d)) by exact Hn.
  split; [reflexivity|].
  destruct (find View.isDefault (views d)) as [v|] eqn:Hf.
  - cbn [option_map]. destruct (find_some _ _ Hf) as [Hvin _].
    now rewrite !nameOr_plain by (apply Hv; exact Hvin).
  - cbn [option_map nameOr]. reflexivity.
Qed.

(** X17.  Whatever the colour-config query does, the names written
    between the single quotes of [display:] and [view:] in the first
    selection state of the script of the KTX2 page are the display and
    the view of the first preview command, written as they are. *)
Theorem page_script_names_previewed_display_and_view :
  forall (runCommand : string -> Proc string) (log : Log)
         (catalog : list ColorDisplay) (selection : Selection),
    fst (getColorConfigInfo runCommand log) = Resolved catalog ->
    Str.endsWith (selectionScript catalog selection)
      ("exposure: 0,"
         ++ String lf "                        display: '"
         ++ defaultDisplayName catalog ++ "',"
         ++ String lf "                        view: '"
         ++ defaultViewName catalog ++ "'"
         ++ String lf "                    };") = true.
Proof.
  intros runCommand log catalog selection H.
  assert (Hnames : name (ktx2DefaultDisplay catalog) = defaultDisplayName catalog
                   /\ ktx2DefaultViewName catalog = defaultViewName catalog).
  { apply page_names_of_named_catalog.
    unfold getColorConfigInfo, try_catch, bind, ret in H.
    destruct (runCommand _ log) as [[output|e] log']; cbn [fst] in H;
      injection H as <-.
    - intros d Hd. pose proof (parsed_catalog_plain output) as Hall.
      rewrite Forall_forall in Hall. destruct (Hall d Hd) as [[Hn _] Hv].
      split; [exact Hn|]. intros v Hin. rewrite Forall_forall in Hv.
      exact (proj1 (proj1 (Hv v Hin))).
    - intros d [<- | []]. split; [discriminate|].
      intros v [<- | []]. discriminate. }
  destruct Hnames as [Hdisplay Hview].
  unfold selectionScript. rewrite Hdisplay, Hview.
  match goal with
  | |- Str.endsWith ?text ?suf = true =>
      replace text with (("let selection = {"
        ++ String lf "                        level: " ++ decimal (level selection) ++ ","
        ++ String lf "                        layer: " ++ decimal (layer selection) ++ ","
        ++ String lf "                        face: " ++ decimal (face selection) ++ ","
        ++ String lf "                        depth: " ++ decimal (depth selection) ++ ","
        ++ String lf "                        ") ++ suf)
        by (rewrite !append_assoc; reflexivity)
  end.
  apply endsWith_app.
Qed.

Lemma page_script_names_previewed_display_and_view_witness :
  Str.endsWith (selectionScript (parseColorConfigInfo sampleOutput) face3)
    ("exposure: 0,"
       ++ String lf "                        display: 'sRGB - Display',"
       ++ String lf "                        view: 'ACES 1.0 - SDR Video'"
       ++ String lf "                    };") = true.
Proof.
  apply (page_script_names_previewed_display_and_view
           (fun _ => ret sampleOutput) nil (parseColorConfigInfo sampleOutput) face3).
  reflexivity.
Defined.

Lemma prefix_refl (s : string) : prefix s s = true.
Proof. rewrite <- (append_nil_r s) at 2. apply prefix_app. Qed.

(** X18.  Both pages list [No Tonemapping] as the first view option,
    whatever the catalog.  With a display in the catalog the two lists
    are the same: one option per view of the default display, in order.
    With an empty catalog the KTX2 page lists the view of its literal
    display, and the other page's list ends in the text [undefined]. *)
Theorem view_options_start_with_no_tonemapping :
  forall (colorDisplays : list ColorDisplay),
    prefix noTonemappingOption (exrViewsOptions colorDisplays) = true
    /\ prefix noTonemappingOption (ktx2ViewsOptions colorDisplays) = true
    /\ (forall d, defaultDisplayOf colorDisplays = Some d ->
          exrViewsOptions colorDisplays = noTonemappingOption ++ viewOptionsOf (views d)
          /\ ktx2ViewsOptions colorDisplays = exrViewsOptions colorDisplays)
    /\ (colorDisplays = nil ->
          exrViewsOptions colorDisplays = noTonemappingOption ++ "undefined"
          /\ ktx2ViewsOptions colorDisplays
             = noTonemappingOption ++ optionTag "ACES 1.0 - SDR Video" true).
Proof.
  intros colorDisplays.
  assert (Hsum : forall rest,
             (if isEmpty (noTonemappingOption ++ rest) then ""
              else noTonemappingOption ++ rest) = noTonemappingOption ++ rest)
    by reflexivity.
  unfold exrViewsOptions, ktx2ViewsOptions, ktx2DefaultDisplay.
  cbv zeta. rewrite Hsum.
  split; [apply prefix_app|]. split; [apply prefix_app|]. split.
  - intros d Hd. rewrite Hd. now split.
  - intros ->. now split.
Qed.

Lemma view_options_start_with_no_tonemapping_witness :
  exrViewsOptions nil = noTonemappingOption ++ "undefined"
  /\ ktx2ViewsOptions nil = noTonemappingOption ++ optionTag "ACES 1.0 - SDR Video" true.
Proof.
  apply (proj2 (proj2 (proj2 (view_options_start_with_no_tonemapping nil)))).
  reflexivity.
Defined.

(* ================================================================== *)
(** * The commands of a preview *)

Section EditorFacts.

Context {JS : JSNumber}.
Variable JSON_parse : string -> Result Ktx2Info.
Variable sh : Shell.
Variable extname : string -> string.
Variable previewPathOf : string -> string.
Variable runtime : Log -> Step -> Result unit.
Variable typeError : Error.



Lemma colour_stage (log : Log) :
  getColorConfigInfo (wrappedRunCommand sh) log
  = (Resolved (discoveredDisplays sh log), (log ++ ["oiiotool --colorconfiginfo"])%list).
Proof.
  unfold getColorConfigInfo, wrappedRunCommand, discoveredDisplays,
    try_catch, bind, exec, settled, ret.
  now destruct (sh log "oiiotool --colorconfiginfo").
Qed.


Lemma tonemap_stage (inputPath outputPath : string) (exposure : number)
    (display view : string) (log : Log) :
  adjustExposure inputPath outputPath exposure (runCommand sh) display view log
  = (match sh log (adjustExposureCmd inputPath outputPath exposure display view) with
     | Resolved _ => Resolved tt
     | Rejected e => Rejected e
     end,
     (log ++ [adjustExposureCmd inputPath outputPath exposure display view])%list).
Proof.
  unfold adjustExposure, runCommand, bind, exec, throw, ret.
  now destruct (sh log _).
Qed.


Lemma extraction_stage (ktx2Path previewPath : string) (selection : Selection)
    (info : option Ktx2Info) (log : Log) :
  exists outcome rest,
    updateKtx2Preview sh ktx2Path previewPath selection info log
    = (outcome,
       (log ++ extractCmd ktx2Path previewPath selection info :: rest)%list)
    /\ (outcome = Resolved (extractPathOf previewPath) \/ exists e, outcome = Rejected e)
    /\ Forall (fun cmd => prefix "ktx extract " cmd = true) rest.
Proof.
  unfold updateKtx2Preview, try_catch, bind, exec, throw, ret.
  destruct (sh log _) as [stdout|e].
  - exists (Resolved (extractPathOf previewPath)), nil. repeat split; [now left | constructor].
  - destruct (isCubemap (headerOf info)).
    + destruct (sh _ (fallbackCmd ktx2Path previewPath selection)) as [stdout|e2].
      * exists (Resolved (extractPathOf previewPath)),
          [fallbackCmd ktx2Path previewPath selection].
        rewrite <- app_assoc. repeat split; [now left|].
        constructor; [reflexivity | constructor].
      * exists (Rejected e2), [fallbackCmd ktx2Path previewPath selection].
        rewrite <- app_assoc. repeat split; [right; now eexists|].
        constructor; [reflexivity | constructor].
    + exists (Rejected e), nil. repeat split; [right; now eexists | constructor].
Qed.



(** Extraction followed by tone mapping, under a [catch]: the body
    shared by the two KTX2 message handlers. *)
Lemma extract_then_tonemap (fsPath previewPath : string) (selection : Selection)
    (info : Ktx2Info) (exposure : number) (display view : string)
    (report : Error -> Report) (log : Log) :
  try_catch
    ((extractedPath <- updateKtx2Preview sh fsPath previewPath selection (Some info) ;;
      adjustExposure extractedPath (previewPath ++ "_display.png") exposure
        (runCommand sh) display view ;;
      ret Ready)%proc)
    (fun e => ret (report e)) log
  = let extraction := updateKtx2Preview sh fsPath previewPath selection (Some info) log in
    let tonemap := adjustExposureCmd (extractPathOf previewPath)
                     (previewPath ++ "_display.png") exposure display view in
    match fst extraction with
    | Rejected e => (Resolved (report e), snd extraction)
    | Resolved _ =>
        (match sh (snd extraction) tonemap with
         | Resolved _ => Resolved Ready
         | Rejected e => Resolved (report e)
         end, (snd extraction ++ [tonemap])%list)
    end.
Proof.
  destruct (extraction_stage fsPath previewPath selection (Some info) log)
    as (outcome & rest & Hrun & Houtcome & _).
  unfold try_catch, bind at 1. cbv zeta. rewrite Hrun. cbn [fst snd].
  destruct Houtcome as [-> | [e ->]]; [|reflexivity].
  unfold bind. rewrite tonemap_stage.
  now destruct (sh _ _).
Qed.



(** X20.  For a file that is neither [.exr], [.hdr] nor [.ktx2] the
    colour-config query is the only command issued, and the failure
    reported is [Unsupported file type]. *)
Theorem unsupported_file_runs_no_tool :
  forall (fsPath : string) (log : Log),
    extname fsPath <> ".exr" -> extname fsPath <> ".hdr" ->
    extname fsPath <> ".ktx2" ->
    resolveCustomEditor JSON_parse sh extname previewPathOf runtime typeError
      fsPath log
    = (Resolved (ErrorMessage (ExecError "Unsupported file type")),
       (log ++ ["oiiotool --colorconfiginfo"])%list).
Proof.
  intros fsPath log Hexr Hhdr Hktx. unfold resolveCustomEditor.
  unfold bind at 1. rewrite colour_stage.
  apply String.eqb_neq in Hexr, Hhdr, Hktx.
  now rewrite Hexr, Hhdr, Hktx.
Qed.



(** X23.  On the KTX2 page a message of type [extract] or
    [adjustExposure] first extracts the selection of the message again:
    when the extraction fails no tone-mapping command is issued and the
    failure is reported; when it succeeds exactly one tone-mapping
    command follows, reading the extraction target and writing
    [<previewPath>_display.png].  A message of another type issues no
    command. *)
Theorem ktx2_message_commands :
  forall (fsPath : string) (info : Ktx2Info) (msg : Message) (log : Log),
    let previewPath := previewPathOf fsPath in
    let extraction :=
      updateKtx2Preview sh fsPath previewPath (msgSelection msg) (Some info) log in
    let handled := onKtx2Message sh previewPathOf fsPath info msg log in
    (msgType msg <> "extract" -> msgType msg <> "adjustExposure" ->
       handled = (Resolved Ignored, log))
    /\ (msgType msg = "extract" \/ msgType msg = "adjustExposure" ->
        (forall e, fst extraction = Rejected e ->
           handled = (Resolved (ErrorMessage e), snd extraction))
        /\ (forall path, fst extraction = Resolved path ->
              exists report exposure display view,
                handled
                = (Resolved report,
                   (snd extraction
                      ++ [adjustExposureCmd (extractPathOf previewPath)
                            (previewPath ++ "_display.png") exposure display view])%list)
                /\ (report = Ready \/ exists e, report = ErrorMessage e))).
Proof.
  intros fsPath info msg log previewPath extraction handled.
  subst handled. unfold onKtx2Message. fold previewPath. split.
  - intros H1 H2. apply String.eqb_neq in H1, H2. now rewrite H1, H2.
  - intros Htype.
    assert (Hrun : forall exposure display view,
               (forall e, fst extraction = Rejected e ->
                  try_catch
                    ((extractedPath <-
                        updateKtx2Preview sh fsPath previewPath (msgSelection msg)
                          (Some info) ;;
                      adjustExposure extractedPath (previewPath ++ "_display.png")
                        exposure (runCommand sh) display view ;;
                      ret Ready)%proc)
                    (fun e => ret (ErrorMessage e)) log
                  = (Resolved (ErrorMessage e), snd extraction))
               /\ (forall path, fst extraction = Resolved path ->
                     exists report,
                       try_catch
                         ((extractedPath <-
                             updateKtx2Preview sh fsPath previewPath (msgSelection msg)
                               (Some info) ;;
                           adjustExposure extractedPath (previewPath ++ "_display.png")
                             exposure (runCommand sh) display view ;;
                           ret Ready)%proc)
                         (fun e => ret (ErrorMessage e)) log
                       = (Resolved report,
                          (snd extraction
                             ++ [adjustExposureCmd (extractPathOf previewPath)
                                   (previewPath ++ "_display.png")
                                   exposure display view])%list)
                       /\ (report = Ready \/ exists e, report = ErrorMessage e))).
    { intros exposure display view.
      rewrite (extract_then_tonemap fsPath previewPath (msgSelection msg) info
                 exposure display view ErrorMessage).
      cbv zeta. fold extraction. split.
      - intros e He. now rewrite He.
      - intros path Hp. rewrite Hp.
        destruct (sh (snd extraction) _) as [out|e].
        + exists Ready. split; [reflexivity | now left].
        + exists (ErrorMessage e). split; [reflexivity | right; now eexists]. }
    destruct (msgType msg =? "extract") eqn:Hextract.
    + cbv zeta.
      destruct (Hrun (match msgSelectionExposure msg with
                      | Some e => e
                      | None => num 0
                      end)
                  (nameOr (msgDisplay msg) "sRGB - Display")
                  (nameOr (msgView msg) "ACES 1.0 - SDR Video")) as [Hfail Hok].
      split; [exact Hfail|].
      intros path Hp. destruct (Hok path Hp) as (report & Heq & Hreport).
      exists report. do 3 eexists. split; [exact Heq | exact Hreport].
    + assert (Hadjust : (msgType msg =? "adjustExposure") = true).
      { destruct Htype as [H | H].
        - apply String.eqb_eq in H. congruence.
        - now apply String.eqb_eq. }
      rewrite Hadjust. cbv zeta.
      destruct (Hrun (msgExposure msg)
                  (nameOr2 (msgDisplay msg) (msgSelectionDisplay msg) "sRGB - Display")
                  (nameOr2 (msgView msg) (msgSelectionView msg) "ACES 1.0 - SDR Video"))
        as [Hfail Hok].
      split; [exact Hfail|].
      intros path Hp. destruct (Hok path Hp) as (report & Heq & Hreport).
      exists report. do 3 eexists. split; [exact Heq | exact Hreport].
Qed.

(** X24.  A message that carries no display and no view (absent or
    empty) is rendered with [sRGB - Display] and [ACES 1.0 - SDR Video]
    on the EXR page and by the [extract] handler of the KTX2 page, which
    takes the exposure of the selection, or 0 when the selection has
    none; the [adjustExposure] handler of the KTX2 page takes the
    exposure of the message and falls back on the names of the
    selection first. *)
Theorem message_without_names_uses_defaults :
  forall (fsPath : string) (info : Ktx2Info) (msg : Message) (log : Log),
    (msgDisplay msg = None \/ msgDisplay msg = Some "") ->
    (msgView msg = None \/ msgView msg = Some "") ->
    let previewPath := previewPathOf fsPath in
    let displayPath := previewPath ++ "_display.png" in
    let extraction :=
      updateKtx2Preview sh fsPath previewPath (msgSelection msg) (Some info) log in
    (msgType msg = "adjustExposure" ->
       snd (onExrMessage sh previewPathOf fsPath msg log)
       = (log ++ [adjustExposureCmd fsPath previewPath (msgExposure msg)
                    "sRGB - Display" "ACES 1.0 - SDR Video"])%list)
    /\ (msgType msg = "extract" ->
        forall path, fst extraction = Resolved path ->
          snd (onKtx2Message sh previewPathOf fsPath info msg log)
          = (snd extraction
               ++ [adjustExposureCmd (extractPathOf previewPath) displayPath
                     (match msgSelectionExposure msg with
                      | Some e => e
                      | None => num 0
                      end)
                     "sRGB - Display" "ACES 1.0 - SDR Video"])%list)
    /\ (msgType msg = "adjustExposure" ->
        forall path, fst extraction = Resolved path ->
          snd (onKtx2Message sh previewPathOf fsPath info msg log)
          = (snd extraction
               ++ [adjustExposureCmd (extractPathOf previewPath) displayPath
                     (msgExposure msg)
                     (nameOr (msgSelectionDisplay msg) "sRGB - Display")
                     (nameOr (msgSelectionView msg) "ACES 1.0 - SDR Video")])%list).
Proof.
  intros fsPath info msg log Hd Hv previewPath displayPath extraction.
  assert (Hdisplay : forall fallback, nameOr (msgDisplay msg) fallback = fallback)
    by (intros fallback; destruct Hd as [-> | ->]; reflexivity).
  assert (Hview : forall fallback, nameOr (msgView msg) fallback = fallback)
    by (intros fallback; destruct Hv as [-> | ->]; reflexivity).
  split; [|split].
  - intros Htype. unfold onExrMessage. rewrite Htype.
    change ("adjustExposure" =? "adjustExposure") with true. cbv iota zeta.
    rewrite Hdisplay, Hview. fold previewPath.
    unfold try_catch, bind. rewrite tonemap_stage.
    now destruct (sh log _).
  - intros Htype path Hp. unfold onKtx2Message. rewrite Htype.
    change ("extract" =? "extract") with true. cbv iota zeta.
    rewrite Hdisplay, Hview. fold previewPath.
    rewrite (extract_then_tonemap fsPath previewPath (msgSelection msg) info _
               "sRGB - Display" "ACES 1.0 - SDR Video" ErrorMessage).
    cbv zeta. fold extraction. rewrite Hp. reflexivity.
  - intros Htype path Hp. unfold onKtx2Message. rewrite Htype.
    change ("adjustExposure" =? "extract") with false.
    change ("adjustExposure" =? "adjustExposure") with true. cbv iota zeta.
    unfold nameOr2. rewrite Hdisplay, Hview. fold previewPath.
    rewrite (extract_then_tonemap fsPath previewPath (msgSelection msg) info _
               _ _ ErrorMessage).
    cbv zeta. fold extraction. rewrite Hp. reflexivity.
Qed.

End EditorFacts.


Lemma unsupported_file_runs_no_tool_witness :
  resolveCustomEditor (JS := wholeNumbers) parseEmptyObject quietTools
    lastExtension tmpPreview steadyRuntime undefinedHeader "notes.txt" nil
  = (Resolved (ErrorMessage (ExecError "Unsupported file type")),
     ["oiiotool --colorconfiginfo"]).
Proof.
  apply (unsupported_file_runs_no_tool (JS := wholeNumbers) parseEmptyObject
           quietTools lastExtension tmpPreview steadyRuntime undefinedHeader
           "notes.txt" nil);
    vm_compute; discriminate.
Defined.



Lemma ktx2_message_commands_witness :
  onKtx2Message (JS := wholeNumbers) noKtx tmpPreview "a.ktx2" deepCubeArray
    buttonMessage nil
  = (Resolved (ErrorMessage (ExecError "ktx: command not found")),
     snd (updateKtx2Preview noKtx "a.ktx2" (tmpPreview "a.ktx2") face3
            (Some deepCubeArray) nil)).
Proof.
  apply (proj2 (ktx2_message_commands (JS := wholeNumbers) noKtx tmpPreview
                  "a.ktx2" deepCubeArray buttonMessage nil)).
  - left. reflexivity.
  - reflexivity.
Defined.

Lemma message_without_names_uses_defaults_witness :
  snd (onExrMessage (JS := wholeNumbers) quietTools tmpPreview "a.exr"
         sliderMessage nil)
  = [adjustExposureCmd (JS := wholeNumbers) "a.exr" "/tmp/preview_a.exr.png"
       2%Z "sRGB - Display" "ACES 1.0 - SDR Video"].
Proof.
  apply (proj1 (message_without_names_uses_defaults (JS := wholeNumbers) quietTools
                  tmpPreview "a.exr" deepCubeArray sliderMessage nil
                  (or_introl eq_refl) (or_intror eq_refl))).
  reflexivity.
Defined.
